(** * Kimera DSG visualizer: the graph-to-marker projection

    A shallow embedding of [visualizer_utils.cpp] and
    [scene_graph_visualizer.cpp], and the properties of the marker
    builders, the layer orchestrator and the redraw controller.

    Conventions of the embedding:
    - a C++ [double] (and a [float]) is an IEEE 754 value of
      [SpecFloat.spec_float]; arithmetic on [double] is the binary64
      instance of the [SF*] operations;
    - a statement that can throw returns an [outcome]; what the code
      publishes and logs is collected, in order, in a trace of [Event]s;
    - [std::map] locals are [gmap]s, read out in ascending key order;
      containers owned by the graph are the lists their iteration yields;
    - types and helpers declared in headers outside these two files are
      fields of the class [Externals]. *)

From Stdlib Require Import ZArith NArith List Bool String Lia.
From Stdlib Require Import Floats.SpecFloat DecimalString.
From stdpp Require Import base option list strings gmap sorting.

Local Open Scope Z_scope.

(** ** IEEE doubles *)

Module Double.

Definition double : Type := spec_float.

Definition prec : Z := 53.
Definition emax : Z := 1024.

Definition add : double -> double -> double := SFadd prec emax.
Definition sub : double -> double -> double := SFsub prec emax.
Definition mul : double -> double -> double := SFmul prec emax.
Definition div : double -> double -> double := SFdiv prec emax.

(** [a < b], [a <= b] and [a > b] of C++: false as soon as one side is
    a NaN. *)
Definition lt (a b : double) : bool := SFltb a b.
Definition le (a b : double) : bool := SFleb a b.
Definition gt (a b : double) : bool := SFltb b a.

(** [std::isfinite]. *)
Definition isfinite (a : double) : bool :=
  match a with
  | S754_zero _ | S754_finite _ _ _ => true
  | S754_infinity _ | S754_nan => false
  end.

(** The literals [0.0] and [1.0]. *)
Definition zero : double := S754_zero false.
Definition one : double := S754_finite false 4503599627370496 (-52).

(** Single precision, for the bounding box vectors. *)
Definition fsub : double -> double -> double := SFsub 24 128.

End Double.

Import Double.

(** ** Colormap helpers of [visualizer_utils.cpp] *)

(** [getRatio]: the assignments of the source, one [let] each. *)
Definition getRatio (min max value : double) : double :=
  let ratio := div (sub value min) (sub max min) in
  let ratio := if negb (isfinite ratio) then zero else ratio in
  let ratio := if gt ratio one then one else ratio in
  let ratio := if lt ratio zero then zero else ratio in
  ratio.

(** Membership in the closed unit interval, by the comparisons of the
    floating-point type itself. *)
Definition in_unit_interval (x : double) : Prop :=
  le zero x = true /\ le x one = true.


(** ** Exceptions, undefined behaviour, and what a pass emits *)

Inductive Exception : Type :=
| bad_cast        (* a failed [dynamic_cast] to a reference *)
| out_of_range.   (* [std::map::at] on an absent key *)

(** The result of running a statement: a value, an exception in flight,
    or behaviour the language leaves undefined (dereferencing the result
    of a failed node lookup, incrementing an iterator past the end). *)
Inductive outcome (A : Type) : Type :=
| Ok (a : A)
| Throw (e : Exception)
| Undefined.
Arguments Ok {A} a.
Arguments Throw {A} e.
Arguments Undefined {A}.

#[global] Instance outcome_ret : MRet outcome := fun A a => Ok a.
#[global] Instance outcome_bind : MBind outcome := fun A B f o =>
  match o with
  | Ok a => f a
  | Throw e => Throw e
  | Undefined => Undefined
  end.
#[global] Instance outcome_fmap : FMap outcome := fun A B f o =>
  match o with
  | Ok a => Ok (f a)
  | Throw e => Throw e
  | Undefined => Undefined
  end.

(** [try { body } catch (const std::bad_cast&) { handler }]. *)
Definition try_catch_bad_cast {A} (body handler : outcome A) : outcome A :=
  match body with
  | Throw bad_cast => handler
  | o => o
  end.

(** [*p] for an optional or a pointer [p]. *)
Definition deref {A} (p : option A) : outcome A :=
  match p with
  | Some a => Ok a
  | None => Undefined
  end.

(** [m.at(k)] of a [std::map]. *)
Definition map_at {V} (m : gmap N V) (k : N) : outcome V :=
  match m !! k with
  | Some v => Ok v
  | None => Throw out_of_range
  end.

(** Integer conversions: a 64-bit identifier stored in the 32-bit
    [Marker::id], and a count read as a [size_t]. *)
Definition to_int32 (n : N) : Z :=
  let z := Z.of_N n mod 2 ^ 32 in
  if z <? 2 ^ 31 then z else z - 2 ^ 32.

Definition size_max : N := (2 ^ 64)%N.
Definition to_size_t (n : N) : N := (n mod size_max)%N.
(** [c++] on a [size_t]. *)
Definition size_incr (c : N) : N := ((c + 1) mod size_max)%N.

(** [std::to_string] of an unsigned integer. *)
Definition to_string (n : N) : string := NilZero.string_of_uint (N.to_uint n).

(** ** Scene graph data *)

Record Point : Type := mkPoint { pt_x : double; pt_y : double; pt_z : double }.

(** [p.z += dz]. *)
Definition raise_z (p : Point) (dz : double) : Point :=
  {| pt_x := pt_x p; pt_y := pt_y p; pt_z := add (pt_z p) dz |}.

Definition Point_Zero : Point := mkPoint zero zero zero.

(** A colour vector.  The source builds only the two vectors below
    itself; every other colour is read from the graph. *)
Record NodeColor : Type := mkColor { red : Z; green : Z; blue : Z }.

Definition NodeColor_Zero : NodeColor := mkColor 0 0 0.
(** [desired_color << 1.0, 0.0, 0.0]. *)
Definition sentinel_color : NodeColor := mkColor 1 0 0.

(** The two kinds of box the source tells apart, and any other
    enumerator. *)
Inductive BoundingBoxType : Type := OBB | AABB | INVALID.

Definition Matrix3 : Type := list double.

Record BoundingBox : Type := {
  bb_type : BoundingBoxType;
  world_P_center : Point;
  world_R_center : Matrix3;
  bb_min : Point;
  bb_max : Point
}.

(** The attribute hierarchy: [NodeAttributes] carries the position,
    [SemanticNodeAttributes] extends it with a colour, and
    [ObjectNodeAttributes] and [PlaceNodeAttributes] extend the
    semantic attributes. *)
Inductive NodeAttributes : Type :=
| PlainAttributes (position : Point)
| SemanticAttributes (position : Point) (color : NodeColor)
| ObjectAttributes (position : Point) (color : NodeColor) (bounding_box : BoundingBox)
| PlaceAttributes (position : Point) (color : NodeColor) (distance : double).

(** [attributes().position]: the base class, always there. *)
Definition position (a : NodeAttributes) : Point :=
  match a with
  | PlainAttributes p | SemanticAttributes p _
  | ObjectAttributes p _ _ | PlaceAttributes p _ _ => p
  end.

(** [attributes<SemanticNodeAttributes>().color]. *)
Definition semantic_color (a : NodeAttributes) : outcome NodeColor :=
  match a with
  | PlainAttributes _ => Throw bad_cast
  | SemanticAttributes _ c | ObjectAttributes _ c _ | PlaceAttributes _ c _ => Ok c
  end.

(** [attributes<ObjectNodeAttributes>().bounding_box]. *)
Definition object_bounding_box (a : NodeAttributes) : outcome BoundingBox :=
  match a with
  | ObjectAttributes _ _ b => Ok b
  | _ => Throw bad_cast
  end.

(** [attributes<PlaceNodeAttributes>().distance]. *)
Definition place_distance (a : NodeAttributes) : outcome double :=
  match a with
  | PlaceAttributes _ _ d => Ok d
  | _ => Throw bad_cast
  end.

Record Node : Type := {
  node_id : N;
  node_layer : N;
  attributes : NodeAttributes
}.

Record Edge : Type := { source : N; target : N }.

(** A layer, by what iterating [nodes()] and [edges()] yields: key and
    value pairs in ascending key order. *)
Record SceneGraphLayer : Type := {
  layer_id : N;
  nodes : list (N * Node);
  edges : list (N * Edge)
}.

Definition numEdges (layer : SceneGraphLayer) : nat := length (edges layer).

Record DynamicSceneGraph : Type := {
  layers : list (N * SceneGraphLayer);
  inter_layer_edges : list (N * Edge)
}.

(** ** Configuration *)

Record LayerConfig : Type := {
  visualize : bool;
  use_label : bool;
  use_bounding_box : bool;
  use_sphere_marker : bool;
  marker_scale : double;
  marker_alpha : double;
  bounding_box_alpha : double;
  label_scale : double;
  label_height : double;
  interlayer_edge_scale : double;
  interlayer_edge_alpha : double;
  interlayer_edge_use_color : bool;
  use_edge_source : bool;
  interlayer_edge_insertion_skip : N;
  intralayer_edge_scale : double;
  intralayer_edge_alpha : double;
  intralayer_edge_insertion_skip : N
}.

Record VisualizerConfig : Type := {
  color_places_by_distance : bool;
  collapse_layers : bool;
  places_min_distance : double;
  places_max_distance : double;
  places_min_hue : double;
  places_max_hue : double;
  places_min_saturation : double;
  places_max_saturation : double;
  places_min_luminance : double;
  places_max_luminance : double;
  mesh_edge_break_ratio : double;
  mesh_layer_offset : double
}.

Record HlsColorMapConfig : Type := {
  min_hue : double;
  max_hue : double;
  min_saturation : double;
  max_saturation : double;
  min_luminance : double;
  max_luminance : double
}.

(** ** Marker messages *)

Module Msg.

Inductive Quaternion : Type :=
| QuaternionZero                       (* a default-constructed message *)
| QuaternionIdentity
| QuaternionOfRotation (R : Matrix3).

Record Pose : Type := { pose_position : Point; orientation : Quaternion }.

Record ColorRGBA : Type := { r : double; g : double; b : double; a : double }.

Inductive MarkerType : Type :=
| ARROW | CUBE | SPHERE_LIST | CUBE_LIST | LINE_LIST | TEXT_VIEW_FACING.

Inductive Action : Type := ADD | DELETE | DELETEALL.

Record Header : Type := { stamp : Z; frame_id : string }.

Record Marker : Type := {
  header : Header;
  ns : string;
  id : Z;
  type : MarkerType;
  action : Action;
  pose : Pose;
  scale : Point;
  color : ColorRGBA;
  lifetime : Z;
  points : list Point;
  colors : list ColorRGBA;
  text : string
}.

(** [Marker marker;]: every field zero or empty, so type [ARROW] and
    action [ADD], the enumerators of value 0. *)
Definition default : Marker := {|
  header := {| stamp := 0; frame_id := "" |};
  ns := "";
  id := 0;
  type := ARROW;
  action := ADD;
  pose := {| pose_position := Point_Zero; orientation := QuaternionZero |};
  scale := Point_Zero;
  color := {| r := zero; g := zero; b := zero; a := zero |};
  lifetime := 0;
  points := [];
  colors := [];
  text := ""
|}.

Definition set_header (h : Header) (m : Marker) : Marker :=
  {| header := h; ns := ns m; id := id m; type := type m; action := action m;
     pose := pose m; scale := scale m; color := color m; lifetime := lifetime m;
     points := points m; colors := colors m; text := text m |}.

Definition set_action (x : Action) (m : Marker) : Marker :=
  {| header := header m; ns := ns m; id := id m; type := type m; action := x;
     pose := pose m; scale := scale m; color := color m; lifetime := lifetime m;
     points := points m; colors := colors m; text := text m |}.

(** [points.push_back] and [colors.push_back], for the elements an
    iteration adds. *)
Definition push_back (ps : list Point) (cs : list ColorRGBA) (m : Marker) : Marker :=
  {| header := header m; ns := ns m; id := id m; type := type m; action := action m;
     pose := pose m; scale := scale m; color := color m; lifetime := lifetime m;
     points := points m ++ ps; colors := colors m ++ cs; text := text m |}.

End Msg.

Abbreviation Marker := Msg.Marker.
Abbreviation MarkerArray := (list Msg.Marker).


(** ** Publishers and the log *)

(** The five latched topics advertised by the constructor. *)
Inductive Channel : Type :=
| semantic_instance_centroid_pub_
| bounding_box_pub_
| text_markers_pub_
| edges_centroid_pcl_pub_
| edges_node_node_pub_.

Inductive Event : Type :=
| Publish (channel : Channel) (markers : MarkerArray)
| ROS_WARN (message : string)
| ROS_ERROR (message : string).

(** A run of orchestrator code: the events it emitted, in order, and how
    it ended.  Events emitted before an exception stay emitted. *)
Record Eff (A : Type) : Type := mkEff { trace : list Event; result : outcome A }.
Arguments mkEff {A} trace result.
Arguments trace {A} _.
Arguments result {A} _.

#[global] Instance Eff_ret : MRet Eff := fun A a => mkEff [] (Ok a).
#[global] Instance Eff_bind : MBind Eff := fun A B f m =>
  match result m with
  | Ok a => mkEff (trace m ++ trace (f a)) (result (f a))
  | Throw e => mkEff (trace m) (Throw e)
  | Undefined => mkEff (trace m) Undefined
  end.

Definition emit (e : Event) : Eff unit := mkEff [e] (Ok tt).
Definition lift {A} (o : outcome A) : Eff A := mkEff [] o.

(** The members of [SceneGraphVisualizer] that the modelled methods read
    or write. *)
Record SceneGraphVisualizer : Type := {
  need_redraw_ : bool;
  scene_graph_ : option DynamicSceneGraph;
  world_frame_ : string;
  visualizer_config_ : VisualizerConfig;
  layer_configs_ : gmap N LayerConfig
}.

(** ** Declarations taken from headers outside these sources *)

Class Externals : Type := {
  (** [to_underlying(KimeraDsgLayers::PLACES)] and [...::OBJECTS]. *)
  PLACES : N;
  OBJECTS : N;
  (** [getZOffset(config, visualizer_config)]. *)
  getZOffset : LayerConfig -> VisualizerConfig -> double;
  (** [dsg_utils::interpolateColorMap]. *)
  interpolateColorMap : HlsColorMapConfig -> double -> NodeColor;
  (** [dsg_utils::makeColorMsg(color, alpha)]; the alpha can be left to
      its default. *)
  makeColorMsg : NodeColor -> option double -> Msg.ColorRGBA;
  (** [NodeSymbol(id).getLabel()]. *)
  getLabel : N -> string;
  (** [graph.getNode(id)]: the node, when the identifier resolves. *)
  getNode : DynamicSceneGraph -> N -> option Node;
  (** [layer.getPosition(id)]. *)
  getPosition : SceneGraphLayer -> N -> outcome Point;
  (** [graph.getMeshCloudForNode(id)]: null, or the sample points. *)
  getMeshCloudForNode : DynamicSceneGraph -> N -> option (list Point);
  (** [scene_graph->empty()]. *)
  empty : DynamicSceneGraph -> bool
}.

Section Visualizer.

Context `{Ext : Externals}.

(** ** [visualizer_utils.cpp] *)

Definition getDistanceColor (config : VisualizerConfig) (distance : double) : NodeColor :=
  if le (places_max_distance config) (places_min_distance config) then
    NodeColor_Zero
  else
    let hls_config := {|
      min_hue := places_min_hue config;
      max_hue := places_max_hue config;
      min_saturation := places_min_saturation config;
      max_saturation := places_max_saturation config;
      min_luminance := places_min_luminance config;
      max_luminance := places_max_luminance config |} in
    let ratio :=
      getRatio (places_min_distance config) (places_max_distance config) distance in
    interpolateColorMap hls_config ratio.

(** [fillPoseWithIdentity]. *)
Definition identity_pose : Msg.Pose :=
  {| Msg.pose_position := Point_Zero; Msg.orientation := Msg.QuaternionIdentity |}.

(** [(bounding_box.max - bounding_box.min)], in single precision. *)
Definition extent (bb : BoundingBox) : Point :=
  {| pt_x := fsub (pt_x (bb_max bb)) (pt_x (bb_min bb));
     pt_y := fsub (pt_y (bb_max bb)) (pt_y (bb_min bb));
     pt_z := fsub (pt_z (bb_max bb)) (pt_z (bb_min bb)) |}.

(** The pose of a box.  The [default] label of the [switch] logs and
    leaves the pose as the constructor made it. *)
Definition bounding_box_pose (config : LayerConfig) (visualizer_config : VisualizerConfig)
    (bounding_box : BoundingBox) : Eff Msg.Pose :=
  match bb_type bounding_box with
  | OBB =>
      mret {| Msg.pose_position :=
                raise_z (world_P_center bounding_box) (getZOffset config visualizer_config);
              Msg.orientation := Msg.QuaternionOfRotation (world_R_center bounding_box) |}
  | AABB =>
      mret {| Msg.pose_position :=
                raise_z (world_P_center bounding_box) (getZOffset config visualizer_config);
              Msg.orientation := Msg.QuaternionIdentity |}
  | INVALID =>
      _ ← emit (ROS_ERROR "Invalid bounding box encountered!");
      mret (Msg.pose Msg.default)
  end.

Definition makeBoundingBoxMarker (config : LayerConfig) (node : Node)
    (visualizer_config : VisualizerConfig) (marker_namespace : string)
  : Eff Marker :=
  color ← lift (semantic_color (attributes node));
  bounding_box ← lift (object_bounding_box (attributes node));
  pose ← bounding_box_pose config visualizer_config bounding_box;
  mret {| Msg.header := Msg.header Msg.default;
          Msg.ns := marker_namespace;
          Msg.id := to_int32 (node_id node);
          Msg.type := Msg.CUBE;
          Msg.action := Msg.ADD;
          Msg.pose := pose;
          Msg.scale := extent bounding_box;
          Msg.color := makeColorMsg color (Some (bounding_box_alpha config));
          Msg.lifetime := 0;
          Msg.points := [];
          Msg.colors := [];
          Msg.text := "" |}.

Definition makeTextMarker (config : LayerConfig) (node : Node)
    (visualizer_config : VisualizerConfig) (marker_namespace : string) : Marker :=
  {| Msg.header := Msg.header Msg.default;
     Msg.ns := marker_namespace;
     Msg.id := to_int32 (node_id node);
     Msg.type := Msg.TEXT_VIEW_FACING;
     Msg.action := Msg.ADD;
     Msg.pose :=
       {| Msg.pose_position :=
            raise_z (position (attributes node))
                    (add (getZOffset config visualizer_config) (label_height config));
          Msg.orientation := Msg.QuaternionIdentity |};
     Msg.scale := mkPoint zero zero (label_scale config);
     Msg.color := makeColorMsg NodeColor_Zero None;
     Msg.lifetime := 0;
     Msg.points := [];
     Msg.colors := [];
     Msg.text := getLabel (node_id node) |}.

(** The body of the node loop of [makeCentroidMarkers]: the colour of
    one node and the flag [node_colors_valid] after it. *)
Definition centroid_color (visualizer_config : VisualizerConfig) (layer : SceneGraphLayer)
    (layer_color : option NodeColor) (node_colors_valid : bool) (node : Node)
  : outcome (NodeColor * bool) :=
  match layer_color with
  | Some c => Ok (c, node_colors_valid)
  | None =>
      if negb node_colors_valid then Ok (sentinel_color, node_colors_valid)
      else if color_places_by_distance visualizer_config
              && bool_decide (layer_id layer = PLACES) then
        distance ← place_distance (attributes node);
        Ok (getDistanceColor visualizer_config distance, node_colors_valid)
      else
        try_catch_bad_cast
          (color ← semantic_color (attributes node); Ok (color, node_colors_valid))
          (Ok (sentinel_color, false))
  end.

Fixpoint centroid_loop (config : LayerConfig) (layer : SceneGraphLayer)
    (visualizer_config : VisualizerConfig) (layer_color : option NodeColor)
    (id_node_pairs : list (N * Node)) (node_colors_valid : bool) (marker : Marker)
  : outcome Marker :=
  match id_node_pairs with
  | [] => Ok marker
  | id_node_pair :: rest =>
      let node_centroid :=
        raise_z (position (attributes id_node_pair.2))
                (getZOffset config visualizer_config) in
      '(desired_color, valid) ←
        centroid_color visualizer_config layer layer_color node_colors_valid
                       id_node_pair.2;
      centroid_loop config layer visualizer_config layer_color rest valid
        (Msg.push_back [node_centroid]
           [makeColorMsg desired_color (Some (marker_alpha config))] marker)
  end.

Definition makeCentroidMarkers (config : LayerConfig) (layer : SceneGraphLayer)
    (visualizer_config : VisualizerConfig) (layer_color : option NodeColor)
    (marker_namespace : string) : outcome Marker :=
  let marker :=
    {| Msg.header := Msg.header Msg.default;
       Msg.ns := marker_namespace;
       Msg.id := to_int32 (layer_id layer);
       Msg.type := if use_sphere_marker config then Msg.SPHERE_LIST else Msg.CUBE_LIST;
       Msg.action := Msg.ADD;
       Msg.pose := identity_pose;
       Msg.scale := mkPoint (marker_scale config) (marker_scale config) (marker_scale config);
       Msg.color := Msg.color Msg.default;
       Msg.lifetime := 0;
       Msg.points := [];
       Msg.colors := [];
       Msg.text := "" |} in
  centroid_loop config layer visualizer_config layer_color (nodes layer) true marker.

Definition makeNewEdgeList (config : LayerConfig) (layer_id : N) : Marker :=
  {| Msg.header := Msg.header Msg.default;
     Msg.ns := "graph_edges";
     Msg.id := to_int32 layer_id;
     Msg.type := Msg.LINE_LIST;
     Msg.action := if visualize config then Msg.ADD else Msg.DELETE;
     Msg.pose := identity_pose;
     Msg.scale := mkPoint (interlayer_edge_scale config) zero zero;
     Msg.color := Msg.color Msg.default;
     Msg.lifetime := 0;
     Msg.points := [];
     Msg.colors := [];
     Msg.text := "" |}.

(** The two locals of [makeGraphEdgeMarkers] that the edge loop
    updates. *)
Record EdgeLoop : Type := {
  layer_markers : gmap N Marker;
  num_since_last_insertion : gmap N N
}.

(** [m[k]] read as an rvalue: the mapped value, a value-initialised one
    when the key is new. *)
Definition counter_at (m : gmap N N) (k : N) : N := default 0%N (m !! k).

(** The first statement of the loop body: the marker and the counter of
    a source layer are created when its first edge is met. *)
Definition open_layer (configs : gmap N LayerConfig) (source target : Node)
    (st : EdgeLoop) : outcome EdgeLoop :=
  if bool_decide (layer_markers st !! node_layer source = None) then
    source_config ← map_at configs (node_layer source);
    let marker := makeNewEdgeList source_config (node_layer source) in
    target_config ← map_at configs (node_layer target);
    let marker :=
      if negb (visualize target_config) then Msg.set_action Msg.DELETE marker
      else marker in
    Ok {| layer_markers := <[node_layer source := marker]> (layer_markers st);
          num_since_last_insertion :=
            <[node_layer source := 0%N]> (num_since_last_insertion st) |}
  else Ok st.

(** The colour of a drawn edge. *)
Definition edge_color (source_config : LayerConfig) (source target : Node)
  : outcome NodeColor :=
  if interlayer_edge_use_color source_config then
    if use_edge_source source_config then semantic_color (attributes source)
    else semantic_color (attributes target)
  else Ok NodeColor_Zero.

(** The two end points of a drawn edge, each raised by the offset of its
    own layer. *)
Definition edge_points (source_config target_config : LayerConfig)
    (visualizer_config : VisualizerConfig) (source target : Node) : list Point :=
  [ raise_z (position (attributes source)) (getZOffset source_config visualizer_config);
    raise_z (position (attributes target)) (getZOffset target_config visualizer_config) ].

(** One iteration of [for (const auto& edge : graph.inter_layer_edges())];
    a [continue] is the state returned as it stands. *)
Definition edge_body (graph : DynamicSceneGraph) (configs : gmap N LayerConfig)
    (visualizer_config : VisualizerConfig) (st : EdgeLoop) (edge : N * Edge)
  : outcome EdgeLoop :=
  source ← deref (getNode graph (source edge.2));
  target ← deref (getNode graph (target edge.2));
  st ← open_layer configs source target st;
  source_config ← map_at configs (node_layer source);
  if negb (visualize source_config) then Ok st else
  target_config ← map_at configs (node_layer target);
  if negb (visualize target_config) then Ok st else
  let num_between_insertions :=
    to_size_t (interlayer_edge_insertion_skip source_config) in
  if (num_between_insertions <=? counter_at (num_since_last_insertion st) (node_layer source))%N
  then
    let counters := <[node_layer source := 0%N]> (num_since_last_insertion st) in
    marker ← map_at (layer_markers st) (node_layer source);
    color ← edge_color source_config source target;
    let color_msg := makeColorMsg color (Some (intralayer_edge_alpha source_config)) in
    let marker :=
      Msg.push_back
        (edge_points source_config target_config visualizer_config source target)
        [color_msg; color_msg] marker in
    Ok {| layer_markers := <[node_layer source := marker]> (layer_markers st);
          num_since_last_insertion := counters |}
  else
    Ok {| layer_markers := layer_markers st;
          num_since_last_insertion :=
            <[node_layer source :=
                size_incr (counter_at (num_since_last_insertion st) (node_layer source))]>
              (num_since_last_insertion st) |}.

Fixpoint edge_loop (graph : DynamicSceneGraph) (configs : gmap N LayerConfig)
    (visualizer_config : VisualizerConfig) (edges : list (N * Edge)) (st : EdgeLoop)
  : outcome EdgeLoop :=
  match edges with
  | [] => Ok st
  | edge :: rest =>
      st ← edge_body graph configs visualizer_config st edge;
      edge_loop graph configs visualizer_config rest st
  end.

(** Iterating a [std::map]: the entries in ascending key order. *)
Definition key_le {V} (p q : N * V) : Prop := (p.1 <= q.1)%N.

#[global] Instance key_le_dec {V} (p q : N * V) : Decision (key_le p q).
Proof. unfold key_le. apply _. Defined.

Definition in_key_order {V} (m : gmap N V) : list (N * V) :=
  merge_sort key_le (map_to_list m).

Definition makeGraphEdgeMarkers (graph : DynamicSceneGraph)
    (configs : gmap N LayerConfig) (visualizer_config : VisualizerConfig)
  : outcome MarkerArray :=
  st ← edge_loop graph configs visualizer_config (inter_layer_edges graph)
       {| layer_markers := ∅; num_since_last_insertion := ∅ |};
  Ok ((fun id_marker_pair => id_marker_pair.2) <$> in_key_order (layer_markers st)).

(** A loop [for (i = 0; i < v.size(); i += stride_minus_1 + 1)] over a
    vector: the elements it visits.  [wait] counts the elements still to
    pass over before the next visit. *)
Fixpoint strided {A} (stride_minus_1 wait : nat) (v : list A) : list A :=
  match v with
  | [] => []
  | a :: rest =>
      match wait with
      | O => a :: strided stride_minus_1 stride_minus_1 rest
      | S wait' => strided stride_minus_1 wait' rest
      end
  end.

(** What one node adds to the marker of [makeMeshEdgesMarker]. *)
Definition mesh_edges_of_node (config : LayerConfig)
    (visualizer_config : VisualizerConfig) (graph : DynamicSceneGraph) (node : Node)
  : outcome (list Point * list Msg.ColorRGBA) :=
  match getMeshCloudForNode graph (node_id node) with
  | None | Some [] => Ok ([], [])
  | Some mesh_points =>
      color ← semantic_color (attributes node);
      let attrs_position := position (attributes node) in
      let center_point :=
        raise_z attrs_position
          (mul (mesh_edge_break_ratio visualizer_config)
               (getZOffset config visualizer_config)) in
      let centroid_location :=
        raise_z attrs_position (getZOffset config visualizer_config) in
      let color_msg :=
        if interlayer_edge_use_color config
        then makeColorMsg color (Some (interlayer_edge_alpha config))
        else makeColorMsg NodeColor_Zero (Some (interlayer_edge_alpha config)) in
      let vertices :=
        (fun p =>
           if negb (collapse_layers visualizer_config)
           then raise_z p (mesh_layer_offset visualizer_config) else p)
        <$> strided (N.to_nat (interlayer_edge_insertion_skip config)) 0 mesh_points in
      Ok ([centroid_location; center_point]
            ++ concat ((fun vertex => [center_point; vertex]) <$> vertices),
          [color_msg; color_msg]
            ++ concat ((fun _ => [color_msg; color_msg]) <$> vertices))
  end.

Fixpoint mesh_edges_loop (config : LayerConfig) (visualizer_config : VisualizerConfig)
    (graph : DynamicSceneGraph) (id_node_pairs : list (N * Node)) (marker : Marker)
  : outcome Marker :=
  match id_node_pairs with
  | [] => Ok marker
  | id_node_pair :: rest =>
      '(ps, cs) ← mesh_edges_of_node config visualizer_config graph id_node_pair.2;
      mesh_edges_loop config visualizer_config graph rest (Msg.push_back ps cs marker)
  end.

Definition makeMeshEdgesMarker (config : LayerConfig)
    (visualizer_config : VisualizerConfig) (graph : DynamicSceneGraph)
    (layer : SceneGraphLayer) (marker_namespace : string) : outcome Marker :=
  let marker :=
    {| Msg.header := Msg.header Msg.default;
       Msg.ns := marker_namespace;
       Msg.id := to_int32 (layer_id layer);
       Msg.type := Msg.LINE_LIST;
       Msg.action := Msg.ADD;
       Msg.pose := identity_pose;
       Msg.scale := mkPoint (interlayer_edge_scale config) zero zero;
       Msg.color := Msg.color Msg.default;
       Msg.lifetime := 0;
       Msg.points := [];
       Msg.colors := [];
       Msg.text := "" |} in
  mesh_edges_loop config visualizer_config graph (nodes layer) marker.

(** The [while] loop of [makeLayerEdgeMarkers].  [wait] is the number of
    increments [std::advance] still owes; owing one at [end()] is
    undefined. *)
Fixpoint layer_edge_loop (config : LayerConfig) (layer : SceneGraphLayer)
    (visualizer_config : VisualizerConfig) (wait : nat) (edges : list (N * Edge))
  : outcome (list Point) :=
  match edges with
  | [] => match wait with O => Ok [] | S _ => Undefined end
  | edge :: rest =>
      match wait with
      | O =>
          source ← getPosition layer (source edge.2);
          target ← getPosition layer (target edge.2);
          more ← layer_edge_loop config layer visualizer_config
                   (N.to_nat (intralayer_edge_insertion_skip config)) rest;
          Ok ([ raise_z source (getZOffset config visualizer_config);
                raise_z target (getZOffset config visualizer_config) ] ++ more)
      | S wait' => layer_edge_loop config layer visualizer_config wait' rest
      end
  end.

Definition makeLayerEdgeMarkers (config : LayerConfig) (layer : SceneGraphLayer)
    (visualizer_config : VisualizerConfig) (color : NodeColor) : outcome Marker :=
  let marker_ns := ("layer_" +:+ to_string (layer_id layer) +:+ "_edges")%string in
  if negb (visualize config) then
    Ok {| Msg.header := Msg.header Msg.default;
          Msg.ns := marker_ns;
          Msg.id := 0;
          Msg.type := Msg.LINE_LIST;
          Msg.action := Msg.DELETE;
          Msg.pose := Msg.pose Msg.default;
          Msg.scale := Msg.scale Msg.default;
          Msg.color := Msg.color Msg.default;
          Msg.lifetime := 0;
          Msg.points := [];
          Msg.colors := [];
          Msg.text := "" |}
  else
    points ← layer_edge_loop config layer visualizer_config 0 (edges layer);
    Ok {| Msg.header := Msg.header Msg.default;
          Msg.ns := marker_ns;
          Msg.id := 0;
          Msg.type := Msg.LINE_LIST;
          Msg.action := Msg.ADD;
          Msg.pose := identity_pose;
          Msg.scale := mkPoint (intralayer_edge_scale config) zero zero;
          Msg.color := makeColorMsg color (Some (intralayer_edge_alpha config));
          Msg.lifetime := 0;
          Msg.points := points;
          Msg.colors := [];
          Msg.text := "" |}.

(** ** [scene_graph_visualizer.cpp] *)

Definition configUpdateCb (config : VisualizerConfig) (this : SceneGraphVisualizer)
  : SceneGraphVisualizer :=
  {| need_redraw_ := true;
     scene_graph_ := scene_graph_ this;
     world_frame_ := world_frame_ this;
     visualizer_config_ := config;
     layer_configs_ := layer_configs_ this |}.

Definition layerConfigUpdateCb (layer_id : N) (config : LayerConfig)
    (this : SceneGraphVisualizer) : SceneGraphVisualizer :=
  {| need_redraw_ := true;
     scene_graph_ := scene_graph_ this;
     world_frame_ := world_frame_ this;
     visualizer_config_ := visualizer_config_ this;
     layer_configs_ := <[layer_id := config]> (layer_configs_ this) |}.

(** [setGraph]: the pointer is null ([None]) or shares a graph. *)
Definition setGraph (scene_graph : option DynamicSceneGraph)
    (this : SceneGraphVisualizer) : SceneGraphVisualizer * list Event :=
  if match scene_graph with None => true | Some graph => empty graph end then
    (this, [ROS_WARN "Request to visualize empty scene graph, skipping."])
  else
    ({| need_redraw_ := true;
        scene_graph_ := scene_graph;
        world_frame_ := world_frame_ this;
        visualizer_config_ := visualizer_config_ this;
        layer_configs_ := layer_configs_ this |}, []).

Definition fillHeader (this : SceneGraphVisualizer) (marker : Marker)
    (current_time : Z) : Marker :=
  Msg.set_header {| Msg.stamp := current_time; Msg.frame_id := world_frame_ this |} marker.

Definition makeDeleteMarker (layer_id : N) (marker_ns : string) : Marker :=
  {| Msg.header := Msg.header Msg.default;
     Msg.ns := marker_ns;
     Msg.id := to_int32 layer_id;
     Msg.type := Msg.type Msg.default;
     Msg.action := Msg.DELETE;
     Msg.pose := Msg.pose Msg.default;
     Msg.scale := Msg.scale Msg.default;
     Msg.color := Msg.color Msg.default;
     Msg.lifetime := 0;
     Msg.points := [];
     Msg.colors := [];
     Msg.text := "" |}.

(** The [handle*] methods take the marker array by reference and append
    to it; here they return the array they leave behind. *)

Definition handleCentroids (this : SceneGraphVisualizer) (layer : SceneGraphLayer)
    (config : LayerConfig) (current_time : Z) (markers : MarkerArray)
  : Eff MarkerArray :=
  let ns := "layer_centroids" in
  if visualize config then
    marker ← lift (makeCentroidMarkers config layer (visualizer_config_ this) None ns);
    mret (markers ++ [fillHeader this marker current_time])
  else
    mret (markers ++ [fillHeader this (makeDeleteMarker (layer_id layer) ns) current_time]).

Definition handleMeshEdges (this : SceneGraphVisualizer) (layer : SceneGraphLayer)
    (config : LayerConfig) (current_time : Z) (markers : MarkerArray)
  : Eff MarkerArray :=
  if negb (bool_decide (layer_id layer = OBJECTS)) then mret markers else
  let ns := "mesh_layer_edges" in
  if visualize config then
    graph ← lift (deref (scene_graph_ this));
    marker ← lift (makeMeshEdgesMarker config (visualizer_config_ this) graph layer ns);
    mret (markers ++ [fillHeader this marker current_time])
  else
    mret (markers ++ [fillHeader this (makeDeleteMarker (layer_id layer) ns) current_time]).

Fixpoint handleLabels_loop (this : SceneGraphVisualizer) (ns : string)
    (config : LayerConfig) (current_time : Z) (id_node_pairs : list (N * Node))
    (markers : MarkerArray) : MarkerArray :=
  match id_node_pairs with
  | [] => markers
  | id_node_pair :: rest =>
      let node := id_node_pair.2 in
      let marker :=
        if visualize config && use_label config
        then makeTextMarker config node (visualizer_config_ this) ns
        else makeDeleteMarker (node_id node) ns in
      handleLabels_loop this ns config current_time rest
        (markers ++ [fillHeader this marker current_time])
  end.

Definition handleLabels (this : SceneGraphVisualizer) (layer : SceneGraphLayer)
    (config : LayerConfig) (current_time : Z) (markers : MarkerArray)
  : Eff MarkerArray :=
  let ns := ("layer_" +:+ to_string (layer_id layer) +:+ "_text")%string in
  mret (handleLabels_loop this ns config current_time (nodes layer) markers).

(** The node loop of [handleBoundingBoxes].  The [catch] block logs and
    executes [return]: the method ends there, with the array as the
    nodes before left it. *)
Fixpoint handleBoundingBoxes_loop (this : SceneGraphVisualizer) (ns : string)
    (config : LayerConfig) (current_time : Z) (id_node_pairs : list (N * Node))
    (markers : MarkerArray) : Eff MarkerArray :=
  match id_node_pairs with
  | [] => mret markers
  | id_node_pair :: rest =>
      let node := id_node_pair.2 in
      if visualize config && use_bounding_box config then
        match object_bounding_box (attributes node) with
        | Throw bad_cast =>
            _ ← emit (ROS_ERROR "Bounding boxes enabled for non-object layer");
            mret markers
        | Throw e => lift (Throw e)
        | Undefined => lift Undefined
        | Ok _ =>
            marker ← makeBoundingBoxMarker config node (visualizer_config_ this) ns;
            handleBoundingBoxes_loop this ns config current_time rest
              (markers ++ [fillHeader this marker current_time])
        end
      else
        handleBoundingBoxes_loop this ns config current_time rest
          (markers ++ [fillHeader this (makeDeleteMarker (node_id node) ns) current_time])
  end.

Definition handleBoundingBoxes (this : SceneGraphVisualizer) (layer : SceneGraphLayer)
    (config : LayerConfig) (current_time : Z) (markers : MarkerArray)
  : Eff MarkerArray :=
  let ns := ("layer_" +:+ to_string (layer_id layer) +:+ "_bounding_boxes")%string in
  handleBoundingBoxes_loop this ns config current_time (nodes layer) markers.

(** The four arrays [displayLayers] fills. *)
Record LayerBatches : Type := {
  layer_centroids : MarkerArray;
  text_markers : MarkerArray;
  line_assoc_markers : MarkerArray;
  bounding_boxes : MarkerArray
}.

Fixpoint displayLayers_loop (this : SceneGraphVisualizer) (current_time : Z)
    (id_layer_pairs : list (N * SceneGraphLayer)) (acc : LayerBatches)
  : Eff LayerBatches :=
  match id_layer_pairs with
  | [] => mret acc
  | id_layer_pair :: rest =>
      match layer_configs_ this !! id_layer_pair.1 with
      | None =>
          _ ← emit (ROS_WARN ("failed to find config for layer " +:+ to_string id_layer_pair.1));
          displayLayers_loop this current_time rest acc
      | Some config =>
          let layer := id_layer_pair.2 in
          centroids ← handleCentroids this layer config current_time (layer_centroids acc);
          texts ← handleLabels this layer config current_time (text_markers acc);
          texts ← handleBoundingBoxes this layer config current_time texts;
          lines ← handleMeshEdges this layer config current_time (line_assoc_markers acc);
          displayLayers_loop this current_time rest
            {| layer_centroids := centroids;
               text_markers := texts;
               line_assoc_markers := lines;
               bounding_boxes := bounding_boxes acc |}
      end
  end.

(** [if (!markers.markers.empty()) pub.publish(markers);] *)
Definition publish_unless_empty (channel : Channel) (markers : MarkerArray) : Eff unit :=
  match markers with
  | [] => mret tt
  | _ :: _ => emit (Publish channel markers)
  end.

Definition displayLayers (this : SceneGraphVisualizer) (current_time : Z)
    (scene_graph : DynamicSceneGraph) : Eff unit :=
  batches ← displayLayers_loop this current_time (layers scene_graph)
    {| layer_centroids := []; text_markers := [];
       line_assoc_markers := []; bounding_boxes := [] |};
  _ ← publish_unless_empty semantic_instance_centroid_pub_ (layer_centroids batches);
  _ ← publish_unless_empty bounding_box_pub_ (bounding_boxes batches);
  _ ← publish_unless_empty text_markers_pub_ (text_markers batches);
  publish_unless_empty edges_centroid_pcl_pub_ (line_assoc_markers batches).

Fixpoint displayEdges_loop (this : SceneGraphVisualizer) (current_time : Z)
    (id_layer_pairs : list (N * SceneGraphLayer)) (edge_markers : MarkerArray)
  : Eff MarkerArray :=
  match id_layer_pairs with
  | [] => mret edge_markers
  | id_layer_pair :: rest =>
      if bool_decide (numEdges id_layer_pair.2 = 0%nat) then
        displayEdges_loop this current_time rest edge_markers
      else
        match layer_configs_ this !! id_layer_pair.1 with
        | None =>
            _ ← emit (ROS_WARN ("Failed to find config for layer " +:+ to_string id_layer_pair.1));
            displayEdges_loop this current_time rest edge_markers
        | Some config =>
            layer_edge_marker ←
              lift (makeLayerEdgeMarkers config id_layer_pair.2
                      (visualizer_config_ this) NodeColor_Zero);
            displayEdges_loop this current_time rest
              (edge_markers ++ [fillHeader this layer_edge_marker current_time])
        end
  end.

Definition displayEdges (this : SceneGraphVisualizer) (current_time : Z)
    (scene_graph : DynamicSceneGraph) : Eff unit :=
  edge_markers ←
    lift (makeGraphEdgeMarkers scene_graph (layer_configs_ this) (visualizer_config_ this));
  let edge_markers := (fun marker => fillHeader this marker current_time) <$> edge_markers in
  edge_markers ← displayEdges_loop this current_time (layers scene_graph) edge_markers;
  emit (Publish edges_node_node_pub_ edge_markers).

(** [redraw], and [displayLoop], the timer callback, which only calls
    it.  [ros::Time::now()] is read once in [displayLayers] and once in
    [displayEdges]: the two readings are arguments.  The object is
    returned as the call leaves it, also when the pass throws. *)
Definition redraw (now_layers now_edges : Z) (this : SceneGraphVisualizer)
  : SceneGraphVisualizer * Eff bool :=
  match scene_graph_ this with
  | None => (this, mret false)
  | Some scene_graph =>
      if negb (need_redraw_ this) then (this, mret false)
      else
        let this :=
          {| need_redraw_ := false;
             scene_graph_ := scene_graph_ this;
             world_frame_ := world_frame_ this;
             visualizer_config_ := visualizer_config_ this;
             layer_configs_ := layer_configs_ this |} in
        (this,
         _ ← displayLayers this now_layers scene_graph;
         _ ← displayEdges this now_edges scene_graph;
         mret true)
  end.

Definition displayLoop (now_layers now_edges : Z) (this : SceneGraphVisualizer)
  : SceneGraphVisualizer * Eff unit :=
  let '(this, run) := redraw now_layers now_edges this in
  (this, _ ← run; mret tt).

Definition getDeleteAllMarker : MarkerArray :=
  [Msg.set_action Msg.DELETEALL Msg.default].

Definition clear (curr_time : Z) (this : SceneGraphVisualizer)
  : SceneGraphVisualizer * list Event :=
  let this' :=
    {| need_redraw_ := need_redraw_ this;
       scene_graph_ := None;
       world_frame_ := world_frame_ this;
       visualizer_config_ := visualizer_config_ this;
       layer_configs_ := layer_configs_ this |} in
  let marker := (fun m => fillHeader this m curr_time) <$> getDeleteAllMarker in
  (this',
   [ Publish semantic_instance_centroid_pub_ marker;
     Publish bounding_box_pub_ marker;
     Publish edges_centroid_pcl_pub_ marker;
     Publish edges_node_node_pub_ marker;
     Publish text_markers_pub_ marker ]).

End Visualizer.

(** ** Sample inputs *)

Module Sample.

Definition of_Z (z : Z) : double := binary_normalize prec emax z 0 false.

Definition find_node (id_node_pairs : list (N * Node)) (id : N) : option Node :=
  (fun p : N * Node => p.2) <$> List.find (fun p : N * Node => (p.1 =? id)%N) id_node_pairs.

(** One way to fill the outside declarations: objects are layer 2 and
    places layer 3, the layers lie in one plane, colour components are
    scaled by 255, and identifiers are looked up in the node maps. *)
Definition externals : Externals := {|
  PLACES := 3%N;
  OBJECTS := 2%N;
  getZOffset := fun _ _ => zero;
  interpolateColorMap := fun _ _ => NodeColor_Zero;
  makeColorMsg := fun c alpha =>
    {| Msg.r := div (of_Z (red c)) (of_Z 255);
       Msg.g := div (of_Z (green c)) (of_Z 255);
       Msg.b := div (of_Z (blue c)) (of_Z 255);
       Msg.a := default one alpha |};
  getLabel := to_string;
  getNode := fun graph id =>
    find_node (concat ((fun l : N * SceneGraphLayer => nodes l.2) <$> layers graph)) id;
  getPosition := fun layer id =>
    match find_node (nodes layer) id with
    | Some node => Ok (position (attributes node))
    | None => Throw out_of_range
    end;
  getMeshCloudForNode := fun _ _ => None;
  empty := fun graph =>
    forallb (fun l : N * SceneGraphLayer =>
               match nodes l.2 with [] => true | _ => false end) (layers graph)
|}.

#[local] Existing Instance externals.

Definition origin : Point := Point_Zero.
Definition unit_x : Point := mkPoint one zero zero.

Definition pure_red : NodeColor := mkColor 255 0 0.
Definition pure_blue : NodeColor := mkColor 0 0 255.

Definition box : BoundingBox :=
  {| bb_type := AABB; world_P_center := origin; world_R_center := [];
     bb_min := origin; bb_max := unit_x |}.

Definition layer_config (shown boxes : bool) (skip : N) : LayerConfig :=
  {| visualize := shown; use_label := false; use_bounding_box := boxes;
     use_sphere_marker := false;
     marker_scale := one; marker_alpha := one; bounding_box_alpha := one;
     label_scale := one; label_height := one;
     interlayer_edge_scale := one; interlayer_edge_alpha := one;
     interlayer_edge_use_color := false; use_edge_source := true;
     interlayer_edge_insertion_skip := skip;
     intralayer_edge_scale := one; intralayer_edge_alpha := one;
     intralayer_edge_insertion_skip := 0%N |}.

Definition visualizer_config : VisualizerConfig :=
  {| color_places_by_distance := false; collapse_layers := true;
     places_min_distance := zero; places_max_distance := one;
     places_min_hue := zero; places_max_hue := one;
     places_min_saturation := zero; places_max_saturation := one;
     places_min_luminance := zero; places_max_luminance := one;
     mesh_edge_break_ratio := one; mesh_layer_offset := zero |}.

Definition node (id layer : N) (a : NodeAttributes) : N * Node :=
  (id, {| node_id := id; node_layer := layer; attributes := a |}).

(** An object layer of three nodes; the second one carries semantic
    attributes only. *)
Definition mixed_objects : SceneGraphLayer :=
  {| layer_id := 2%N;
     nodes := [ node 10 2 (ObjectAttributes origin pure_red box);
                node 11 2 (SemanticAttributes unit_x pure_blue);
                node 12 2 (ObjectAttributes unit_x pure_blue box) ];
     edges := [] |}.

(** A layer of four nodes; the second one has no semantic attributes. *)
Definition mixed_colors : SceneGraphLayer :=
  {| layer_id := 4%N;
     nodes := [ node 40 4 (SemanticAttributes origin pure_blue);
                node 41 4 (PlainAttributes unit_x);
                node 42 4 (SemanticAttributes unit_x pure_blue);
                node 43 4 (SemanticAttributes origin pure_red) ];
     edges := [] |}.

Definition objects : SceneGraphLayer :=
  {| layer_id := 2%N;
     nodes := [ node 20 2 (ObjectAttributes origin pure_red box);
                node 21 2 (ObjectAttributes unit_x pure_blue box);
                node 22 2 (ObjectAttributes unit_x pure_red box) ];
     edges := [] |}.

Definition places : SceneGraphLayer :=
  {| layer_id := 3%N;
     nodes := [ node 30 3 (PlaceAttributes origin pure_blue one);
                node 31 3 (PlaceAttributes unit_x pure_blue one) ];
     edges := [(0%N, {| source := 30%N; target := 31%N |})] |}.

(** Places over objects, with five edges from places down to
    objects. *)
Definition graph : DynamicSceneGraph :=
  {| layers := [(2%N, objects); (3%N, places)];
     inter_layer_edges :=
       [ (0%N, {| source := 30%N; target := 20%N |});
         (1%N, {| source := 30%N; target := 21%N |});
         (2%N, {| source := 31%N; target := 21%N |});
         (3%N, {| source := 31%N; target := 22%N |});
         (4%N, {| source := 30%N; target := 22%N |}) ] |}.

Definition one_layer_graph (layer : SceneGraphLayer) : DynamicSceneGraph :=
  {| layers := [(layer_id layer, layer)]; inter_layer_edges := [] |}.

Definition visualizer (dirty : bool) (g : option DynamicSceneGraph)
    (configs : gmap N LayerConfig) : SceneGraphVisualizer :=
  {| need_redraw_ := dirty; scene_graph_ := g; world_frame_ := "world";
     visualizer_config_ := visualizer_config; layer_configs_ := configs |}.

(** Both layers configured and shown, every second inter-layer edge
    passed over. *)
Definition both_shown : gmap N LayerConfig :=
  <[2%N := layer_config true true 0]> (<[3%N := layer_config true false 1]> ∅).

(** Only the object layer has a configuration. *)
Definition objects_only : gmap N LayerConfig :=
  <[2%N := layer_config true true 0]> ∅.

(** The object layer is configured, and hidden. *)
Definition objects_hidden : gmap N LayerConfig :=
  <[2%N := layer_config false true 0]> ∅.

(** The places coloured by distance. *)
Definition by_distance : VisualizerConfig :=
  {| color_places_by_distance := true; collapse_layers := true;
     places_min_distance := zero; places_max_distance := one;
     places_min_hue := zero; places_max_hue := one;
     places_min_saturation := zero; places_max_saturation := one;
     places_min_luminance := zero; places_max_luminance := one;
     mesh_edge_break_ratio := one; mesh_layer_offset := zero |}.

(** A places layer with a node that has semantic attributes only. *)
Definition mixed_places : SceneGraphLayer :=
  {| layer_id := 3%N;
     nodes := [ node 30 3 (PlaceAttributes origin pure_blue one);
                node 31 3 (SemanticAttributes unit_x pure_blue) ];
     edges := [] |}.

Definition places_only : gmap N LayerConfig :=
  <[3%N := layer_config true false 0]> ∅.

(** What the model computes on these inputs. *)

Definition graph_edge_markers : MarkerArray :=
  Eval vm_compute in
    match makeGraphEdgeMarkers graph both_shown visualizer_config with
    | Ok out => out
    | _ => []
    end.



Definition hidden_batches : LayerBatches :=
  Eval vm_compute in
    match result (displayLayers_loop (visualizer true None objects_hidden) 7
                    (layers (one_layer_graph objects))
                    {| layer_centroids := []; text_markers := [];
                       line_assoc_markers := []; bounding_boxes := [] |}) with
    | Ok batches => batches
    | _ => {| layer_centroids := []; text_markers := [];
              line_assoc_markers := []; bounding_boxes := [] |}
    end.

Definition shown_batches : LayerBatches :=
  Eval vm_compute in
    match result (displayLayers_loop
                    (visualizer true (Some (one_layer_graph objects)) both_shown) 7
                    (layers (one_layer_graph objects))
                    {| layer_centroids := []; text_markers := [];
                       line_assoc_markers := []; bounding_boxes := [] |}) with
    | Ok batches => batches
    | _ => {| layer_centroids := []; text_markers := [];
              line_assoc_markers := []; bounding_boxes := [] |}
    end.

Definition object_boxes : MarkerArray :=
  Eval vm_compute in
    match result (handleBoundingBoxes (visualizer true None both_shown) objects
                    (layer_config true true 0) 7 []) with
    | Ok boxes => boxes
    | _ => []
    end.

End Sample.

(** ** Vocabulary of the statements *)

(** What a trace sent to the renderer, in order. *)
Definition publications (events : list Event) : list (Channel * MarkerArray) :=
  omap (fun e => match e with Publish c ms => Some (c, ms) | _ => None end) events.

Section Vocabulary.

Context `{Ext : Externals}.

(** One full orchestration pass over a graph: the layers, then the
    edges. *)
Definition orchestration_pass (this : SceneGraphVisualizer) (now_layers now_edges : Z)
    (graph : DynamicSceneGraph) : Eff unit :=
  _ ← displayLayers this now_layers graph; displayEdges this now_edges graph.

(** The object as a tick that redraws leaves it. *)
Definition cleaned (this : SceneGraphVisualizer) : SceneGraphVisualizer :=
  {| need_redraw_ := false;
     scene_graph_ := scene_graph_ this;
     world_frame_ := world_frame_ this;
     visualizer_config_ := visualizer_config_ this;
     layer_configs_ := layer_configs_ this |}.

(** The markers of a run of [handleBoundingBoxes] over nodes that all
    are objects, boxes enabled. *)
Definition boxes_of (this : SceneGraphVisualizer) (config : LayerConfig)
    (current_time : Z) (ns : string) (l : list (N * Node)) (boxes : MarkerArray) : Prop :=
  Forall2
    (fun (p : N * Node) (box : Marker) =>
       exists marker,
         result (makeBoundingBoxMarker config p.2 (visualizer_config_ this) ns) = Ok marker /\
         box = fillHeader this marker current_time)
    l boxes.

(** What such a run logs: a line for each box that is neither oriented
    nor axis-aligned. *)
Definition box_log (this : SceneGraphVisualizer) (config : LayerConfig)
    (ns : string) (l : list (N * Node)) : list Event :=
  concat ((fun p : N * Node =>
             trace (makeBoundingBoxMarker config p.2 (visualizer_config_ this) ns)) <$> l).

End Vocabulary.

(** The arrays of [displayLayers] before the first layer. *)
Definition no_batches : LayerBatches :=
  {| layer_centroids := []; text_markers := [];
     line_assoc_markers := []; bounding_boxes := [] |}.

(** The four arrays, each with the publisher [displayLayers] hands it
    to, in the order of the four [if] statements. *)
Definition batches_by_channel (batches : LayerBatches) : list (Channel * MarkerArray) :=
  [ (semantic_instance_centroid_pub_, layer_centroids batches);
    (bounding_box_pub_, bounding_boxes batches);
    (text_markers_pub_, text_markers batches);
    (edges_centroid_pcl_pub_, line_assoc_markers batches) ].

(** A run that sends nothing to the renderer. *)
Definition silent {A} (m : Eff A) : Prop := publications (trace m) = [].

(** ** Vocabulary for the inter-layer edges *)

(** An inter-layer edge seen by the skip counter: both end points
    resolve, both layers have a configuration, both are shown. *)
Record EligibleEdge : Type := {
  e_source : Node;
  e_target : Node;
  e_source_config : LayerConfig;
  e_target_config : LayerConfig
}.

Section EdgeVocabulary.

Context `{Ext : Externals}.

Definition eligible (graph : DynamicSceneGraph) (configs : gmap N LayerConfig)
    (edge : N * Edge) : option EligibleEdge :=
  s ← getNode graph (source edge.2);
  t ← getNode graph (target edge.2);
  cs ← configs !! node_layer s;
  ct ← configs !! node_layer t;
  if visualize cs && visualize ct
  then Some {| e_source := s; e_target := t; e_source_config := cs; e_target_config := ct |}
  else None.

(** The eligible edges whose source node lies in [layer], in traversal
    order. *)
Definition eligible_edges (graph : DynamicSceneGraph) (configs : gmap N LayerConfig)
    (layer : N) (edges : list (N * Edge)) : list EligibleEdge :=
  filter (fun e => node_layer (e_source e) = layer) (omap (eligible graph configs) edges).

(** The two points a drawn edge adds to the marker of its source
    layer. *)
Definition drawn_points (visualizer_config : VisualizerConfig) (e : EligibleEdge)
  : list Point :=
  edge_points (e_source_config e) (e_target_config e) visualizer_config
              (e_source e) (e_target e).

(** The points of the marker of a layer, none while there is no
    marker. *)
Definition points_at (st : EdgeLoop) (layer : N) : list Point :=
  from_option Msg.points [] (layer_markers st !! layer).

(** The counter the loop body compares for a layer: the stored one, and
    zero when the layer is yet to be opened. *)
Definition counter_before (st : EdgeLoop) (layer : N) : N :=
  match layer_markers st !! layer with
  | Some _ => counter_at (num_since_last_insertion st) layer
  | None => 0%N
  end.

(** What holds of the two maps between iterations. *)
Definition edge_loop_wf (configs : gmap N LayerConfig) (st : EdgeLoop) : Prop :=
  forall layer,
    match layer_markers st !! layer with
    | None => num_since_last_insertion st !! layer = None
    | Some marker =>
        Msg.id marker = to_int32 layer /\ Msg.ns marker = "graph_edges" /\
        is_Some (configs !! layer)
    end.

End EdgeVocabulary.

(** Every [k]-th element of a list, positions counted from [pos] for the
    first element: the elements whose position is a multiple of [k]. *)
Fixpoint multiples_from {A} (k pos : nat) (l : list A) : list A :=
  match l with
  | [] => []
  | x :: rest =>
      if (pos mod k =? 0)%nat then x :: multiples_from k (S pos) rest
      else multiples_from k (S pos) rest
  end.

(** Every [k]-th element: the [k]-th, the [2k]-th, and so on. *)
Definition every_nth {A} (k : nat) (l : list A) : list A := multiples_from k 1 l.

(** The policy of one counter, on the edges it counts. *)
Fixpoint skip_stride {A} (num_between_insertions num_since_last : N) (l : list A)
  : list A :=
  match l with
  | [] => []
  | x :: rest =>
      if (num_between_insertions <=? num_since_last)%N
      then x :: skip_stride num_between_insertions 0 rest
      else skip_stride num_between_insertions (num_since_last + 1) rest
  end.

(** ** Vocabulary for the intra-layer edges and the mesh edges *)

Section MoreVocabulary.

Context `{Ext : Externals}.

(** The two raised end points of an intra-layer edge whose nodes the
    layer knows. *)
Definition edge_ends_resolve (config : LayerConfig) (layer : SceneGraphLayer)
    (visualizer_config : VisualizerConfig) (edge : N * Edge) (ends : list Point) : Prop :=
  exists p q,
    getPosition layer (source edge.2) = Ok p /\
    getPosition layer (target edge.2) = Ok q /\
    ends = [ raise_z p (getZOffset config visualizer_config);
             raise_z q (getZOffset config visualizer_config) ].

(** A node with surface samples: [getMeshCloudForNode] gives a cloud
    that is neither null nor empty. *)
Definition has_samples (graph : DynamicSceneGraph) (node : Node) : bool :=
  match getMeshCloudForNode graph (node_id node) with
  | None | Some [] => false
  | Some (_ :: _) => true
  end.

(** The number of points a node adds to the mesh edge marker: none
    without samples, else the two of the first edge and two for each
    sample the fan visits. *)
Definition fan_size (config : LayerConfig) (graph : DynamicSceneGraph) (node : Node)
  : nat :=
  match getMeshCloudForNode graph (node_id node) with
  | None | Some [] => 0
  | Some mesh_points =>
      2 + 2 * ((length mesh_points
                + N.to_nat (interlayer_edge_insertion_skip config))
               / S (N.to_nat (interlayer_edge_insertion_skip config)))
  end.

End MoreVocabulary.

Section InterLayerVocabulary.

Context `{Ext : Externals}.

(** The marker a source layer gets when its first edge is met: the new
    edge list of the layer, turned into a [DELETE] marker when the
    target layer of that edge is hidden. *)
Definition opened_marker (source_config target_config : LayerConfig) (layer : N)
  : Marker :=
  if negb (visualize target_config)
  then Msg.set_action Msg.DELETE (makeNewEdgeList source_config layer)
  else makeNewEdgeList source_config layer.

(** What [makeGraphEdgeMarkers] keeps true of the marker of a layer:
    a line list with a colour for each point, and for a hidden source
    layer a [DELETE] marker without points. *)
Definition edge_marker_ok (configs : gmap N LayerConfig) (layer : N) (marker : Marker)
  : Prop :=
  Msg.type marker = Msg.LINE_LIST /\
  length (Msg.colors marker) = length (Msg.points marker) /\
  Nat.Even (length (Msg.points marker)) /\
  forall config, configs !! layer = Some config -> visualize config = false ->
                 Msg.action marker = Msg.DELETE /\ Msg.points marker = [].

(** An edge the loop body gets through: both end points resolve, both
    layers are configured, and the colour of the edge can be read. *)
Definition edge_can_be_drawn (graph : DynamicSceneGraph) (configs : gmap N LayerConfig)
    (edge : N * Edge) : Prop :=
  exists s t cs ct c,
    getNode graph (source edge.2) = Some s /\
    getNode graph (target edge.2) = Some t /\
    configs !! node_layer s = Some cs /\
    configs !! node_layer t = Some ct /\
    edge_color cs s t = Ok c.

(** The source layer of an edge, when its source node resolves. *)
Definition source_layer (graph : DynamicSceneGraph) (edge : N * Edge) : option N :=
  node_layer <$> getNode graph (source edge.2).

End InterLayerVocabulary.

(** ** Vocabulary for the layer handlers *)

(** A marker that only retracts: a [DELETE] without geometry. *)
Definition retracts (marker : Marker) : Prop :=
  Msg.action marker = Msg.DELETE /\ Msg.points marker = [] /\ Msg.colors marker = [].

(** The header [fillHeader] writes. *)
Definition stamped (this : SceneGraphVisualizer) (current_time : Z) (marker : Marker)
  : Prop :=
  Msg.header marker = {| Msg.stamp := current_time; Msg.frame_id := world_frame_ this |}.

(** The layers of a graph that have a registered configuration, each
    with its configuration, in traversal order. *)
Definition configured_layers (this : SceneGraphVisualizer)
    (id_layer_pairs : list (N * SceneGraphLayer)) : list (SceneGraphLayer * LayerConfig) :=
  omap (fun p : N * SceneGraphLayer =>
          (fun config => (p.2, config)) <$> layer_configs_ this !! p.1)
       id_layer_pairs.

(** The warning of [displayLayers] for a layer without configuration. *)
Definition missing_config_warning (id : N) : Event :=
  ROS_WARN ("failed to find config for layer " +:+ to_string id).

(** The warning of [displayEdges] for a layer without configuration. *)
Definition missing_edge_config_warning (id : N) : Event :=
  ROS_WARN ("Failed to find config for layer " +:+ to_string id).

(** The five topics in the order [clear] serves them. *)
Definition cleared_channels : list Channel :=
  [ semantic_instance_centroid_pub_; bounding_box_pub_; edges_centroid_pcl_pub_;
    edges_node_node_pub_; text_markers_pub_ ].

(** ** More sample inputs *)

Module MoreSamples.

Import Sample.

(** The sample declarations, with surface samples for two object nodes:
    three points for node 20 and an empty cloud for node 21. *)
Definition with_samples : Externals := {|
  PLACES := @PLACES externals;
  OBJECTS := @OBJECTS externals;
  getZOffset := @getZOffset externals;
  interpolateColorMap := @interpolateColorMap externals;
  makeColorMsg := @makeColorMsg externals;
  getLabel := @getLabel externals;
  getNode := @getNode externals;
  getPosition := @getPosition externals;
  getMeshCloudForNode := fun _ id =>
    if (id =? 20)%N then Some [unit_x; origin; unit_x]
    else if (id =? 21)%N then Some []
    else None;
  empty := @empty externals
|}.

(** A shown layer whose intra-layer edges are drawn one in two. *)
Definition every_other_edge : LayerConfig :=
  {| visualize := true; use_label := true; use_bounding_box := false;
     use_sphere_marker := true;
     marker_scale := one; marker_alpha := one; bounding_box_alpha := one;
     label_scale := one; label_height := one;
     interlayer_edge_scale := one; interlayer_edge_alpha := one;
     interlayer_edge_use_color := true; use_edge_source := false;
     interlayer_edge_insertion_skip := 1%N;
     intralayer_edge_scale := one; intralayer_edge_alpha := one;
     intralayer_edge_insertion_skip := 1%N |}.

(** A layer of three nodes in a chain, and one with a fourth edge. *)
Definition chain : SceneGraphLayer :=
  {| layer_id := 3%N;
     nodes := [ node 30 3 (PlaceAttributes origin pure_blue one);
                node 31 3 (PlaceAttributes unit_x pure_blue one);
                node 32 3 (PlaceAttributes unit_x pure_red one) ];
     edges := [ (0%N, {| source := 30%N; target := 31%N |});
                (1%N, {| source := 31%N; target := 32%N |});
                (2%N, {| source := 30%N; target := 32%N |}) ] |}.

Definition ring : SceneGraphLayer :=
  {| layer_id := 3%N;
     nodes := nodes chain;
     edges := edges chain ++ [(3%N, {| source := 32%N; target := 30%N |})] |}.

#[local] Existing Instance externals.

Definition mixed_colors_marker : Marker :=
  Eval vm_compute in
    match makeCentroidMarkers (layer_config true false 0) mixed_colors
            visualizer_config None "layer_centroids" with
    | Ok marker => marker
    | _ => Msg.default
    end.

Definition objects_mesh_marker : Marker :=
  Eval vm_compute in
    match @makeMeshEdgesMarker with_samples (layer_config true true 1)
            visualizer_config graph objects "mesh_layer_edges" with
    | Ok marker => marker
    | _ => Msg.default
    end.

(** Three layers with their nodes spread along the first axis, node
    [k] at abscissa [k]: objects, places, and a layer of one room.  The
    places are the source of every inter-layer edge; the first edge
    leads to the room, the other three to the objects. *)
Definition point_x (z : Z) : Point := mkPoint (of_Z z) zero zero.

Definition spread_objects : SceneGraphLayer :=
  {| layer_id := 2%N;
     nodes := [ node 20 2 (ObjectAttributes (point_x 20) pure_red box);
                node 21 2 (ObjectAttributes (point_x 21) pure_blue box);
                node 22 2 (ObjectAttributes (point_x 22) pure_red box) ];
     edges := [] |}.

Definition spread_places : SceneGraphLayer :=
  {| layer_id := 3%N;
     nodes := [ node 30 3 (PlaceAttributes (point_x 30) pure_blue one);
                node 31 3 (PlaceAttributes (point_x 31) pure_blue one) ];
     edges := [] |}.

Definition rooms : SceneGraphLayer :=
  {| layer_id := 4%N;
     nodes := [ node 40 4 (SemanticAttributes (point_x 40) pure_red) ];
     edges := [] |}.

Definition fanned : DynamicSceneGraph :=
  {| layers := [(2%N, spread_objects); (3%N, spread_places); (4%N, rooms)];
     inter_layer_edges :=
       [ (0%N, {| source := 30%N; target := 40%N |});
         (1%N, {| source := 30%N; target := 20%N |});
         (2%N, {| source := 31%N; target := 21%N |});
         (3%N, {| source := 30%N; target := 22%N |}) ] |}.

(** Objects and places shown, the room layer hidden; one inter-layer
    edge in two for the places. *)
Definition rooms_hidden : gmap N LayerConfig :=
  <[2%N := layer_config true false 0]>
    (<[3%N := layer_config true false 1]> (<[4%N := layer_config false false 0]> ∅)).

(** Objects and rooms shown, the places hidden. *)
Definition places_hidden : gmap N LayerConfig :=
  <[2%N := layer_config true false 0]>
    (<[3%N := layer_config false false 1]> (<[4%N := layer_config true false 0]> ∅)).

Definition fanned_markers (configs : gmap N LayerConfig) : MarkerArray :=
  match makeGraphEdgeMarkers fanned configs visualizer_config with
  | Ok out => out
  | _ => []
  end.

End MoreSamples.

(** * Properties *)

(** ** Comparison facts used for the clamp *)

Lemma SFcompare_antisym (a b : spec_float) :
  SFcompare b a = option_map CompOpp (SFcompare a b).
Proof.
  destruct a as [sa|sa| |sa ma ea], b as [sb|sb| |sb mb eb]; simpl;
    try reflexivity; try (destruct sa; reflexivity);
    try (destruct sb; reflexivity);
    try (destruct sa, sb; reflexivity).
  destruct sa, sb; simpl; try reflexivity;
    rewrite (Z.compare_antisym ea eb);
    destruct (ea ?= eb) eqn:E; simpl; try reflexivity;
    rewrite (Pos.compare_cont_antisym ma mb Eq); reflexivity.
Qed.

Lemma isfinite_compare (a b : double) :
  isfinite a = true -> isfinite b = true -> exists c, SFcompare a b = Some c.
Proof.
  destruct a, b; simpl; intros Ha Hb; try discriminate; eauto.
Qed.

Lemma not_gt_le (a b : double) :
  isfinite a = true -> isfinite b = true -> gt a b = false -> le a b = true.
Proof.
  intros Ha Hb. unfold gt, le, SFltb, SFleb.
  rewrite (SFcompare_antisym a b).
  destruct (isfinite_compare a b Ha Hb) as [c ->]. simpl.
  destruct c; simpl; congruence.
Qed.

Lemma not_lt_le (a b : double) :
  isfinite a = true -> isfinite b = true -> lt a b = false -> le b a = true.
Proof.
  intros Ha Hb. unfold lt, le, SFltb, SFleb.
  rewrite (SFcompare_antisym a b).
  destruct (isfinite_compare a b Ha Hb) as [c ->]. simpl.
  destruct c; simpl; congruence.
Qed.

Lemma clamp_in_unit_interval (r : double) :
  isfinite r = true ->
  in_unit_interval
    (let r1 := if gt r one then one else r in if lt r1 zero then zero else r1).
Proof.
  intros Hr. cbv zeta.
  destruct (gt r one) eqn:Hgt.
  - replace (lt one zero) with false by reflexivity. split; reflexivity.
  - destruct (lt r zero) eqn:Hlt.
    + split; reflexivity.
    + split.
      * apply not_lt_le; auto.
      * apply not_gt_le; auto.
Qed.

(** C7.  [getRatio] is a total function of three doubles; whatever the
    inputs (finite, infinite, NaN, [min = max]) its result lies in
    [[0,1]], and it is [0.0] whenever [(value - min) / (max - min)] is
    not finite. *)
Theorem getRatio_unit_interval (min max value : double) :
  in_unit_interval (getRatio min max value) /\
  (isfinite (div (sub value min) (sub max min)) = false ->
   getRatio min max value = zero).
Proof.
  unfold getRatio.
  generalize (div (sub value min) (sub max min)). intros r.
  destruct (isfinite r) eqn:Hr; simpl negb; cbv iota.
  - split; [apply (clamp_in_unit_interval r Hr) | discriminate].
  - split; [apply (clamp_in_unit_interval zero eq_refl) | reflexivity].
Qed.

(** ** The trace monad *)

Lemma Eff_bind_trace {A B} (m : Eff A) (f : A -> Eff B) :
  trace (m ≫= f) =
  trace m ++ match result m with Ok a => trace (f a) | _ => [] end.
Proof.
  unfold mbind, Eff_bind. destruct (result m); simpl; auto using app_nil_r.
  all: by rewrite app_nil_r.
Qed.

Lemma Eff_bind_result {A B} (m : Eff A) (f : A -> Eff B) :
  result (m ≫= f) =
  match result m with Ok a => result (f a) | Throw e => Throw e | Undefined => Undefined end.
Proof. unfold mbind, Eff_bind. by destruct (result m). Qed.

Lemma Eff_bind_result' {A B} (m : Eff A) (f : A -> Eff B) :
  result (m ≫= f) = result m ≫= (fun a => result (f a)).
Proof. rewrite Eff_bind_result. by destruct (result m). Qed.

Lemma Eff_eta {A} (m : Eff A) : mkEff (trace m) (result m) = m.
Proof. by destruct m. Qed.

Lemma Eff_bind_ok {A B} (events : list Event) (a : A) (f : A -> Eff B) :
  mkEff events (Ok a) ≫= f = mkEff (events ++ trace (f a)) (result (f a)).
Proof. reflexivity. Qed.

Lemma Eff_bind_lift {A B} (o : outcome A) (f : A -> Eff B) :
  lift o ≫= f =
  match o with Ok a => f a | Throw e => lift (Throw e) | Undefined => lift Undefined end.
Proof. destruct o as [a|e|]; try reflexivity. apply Eff_eta. Qed.

Lemma Eff_bind_ret {A B} (a : A) (f : A -> Eff B) : mret a ≫= f = f a.
Proof. apply (Eff_bind_lift (Ok a)). Qed.

Lemma publications_app (t1 t2 : list Event) :
  publications (t1 ++ t2) = publications t1 ++ publications t2.
Proof. unfold publications. apply omap_app. Qed.

Section Controller.

Context `{Ext : Externals}.

(** C9.  [setGraph] called with a null pointer or with an empty graph
    leaves the object as it was (the held graph and the redraw flag
    included); all it does is log one warning, so nothing is published
    and the current render is not retracted. *)
Theorem setGraph_rejects_absent_or_empty
    (scene_graph : option DynamicSceneGraph) (this : SceneGraphVisualizer) :
  (scene_graph = None \/ exists graph, scene_graph = Some graph /\ empty graph = true) ->
  setGraph scene_graph this =
    (this, [ROS_WARN "Request to visualize empty scene graph, skipping."]) /\
  publications (setGraph scene_graph this).2 = [].
Proof.
  intros [-> | (graph & -> & Hempty)]; unfold setGraph; [|rewrite Hempty]; done.
Qed.

(** The cases of a tick.  With the redraw flag set and a graph held,
    [redraw] clears the flag and then runs [displayLayers] and
    [displayEdges] on the cleaned object; otherwise it returns at once.
    Both configuration callbacks and an accepted [setGraph] set the
    flag. *)
Lemma redraw_cases (now_layers now_edges : Z) (this : SceneGraphVisualizer) :
  (forall graph,
      need_redraw_ this = true -> scene_graph_ this = Some graph ->
      (redraw now_layers now_edges this).1 = cleaned this /\
      (redraw now_layers now_edges this).2 =
        (_ ← orchestration_pass (cleaned this) now_layers now_edges graph; mret true) /\
      forall t1 t2, redraw t1 t2 (cleaned this) = (cleaned this, mret false)) /\
  (need_redraw_ this = false \/ scene_graph_ this = None ->
   redraw now_layers now_edges this = (this, mret false)) /\
  (forall config, need_redraw_ (configUpdateCb config this) = true) /\
  (forall layer_id config, need_redraw_ (layerConfigUpdateCb layer_id config this) = true) /\
  (forall graph, empty graph = false ->
     need_redraw_ (setGraph (Some graph) this).1 = true /\
     scene_graph_ (setGraph (Some graph) this).1 = Some graph).
Proof.
  split; [|split; [|split; [|split]]].
  - intros graph Hdirty Hgraph.
    destruct this as [dirty held frame vconfig lconfigs]; simpl in *; subst.
    unfold redraw, cleaned; simpl.
    split; [reflexivity|]. split; [|reflexivity].
    unfold orchestration_pass, mbind, Eff_bind. simpl.
    destruct (result (displayLayers _ _ _)); simpl; try reflexivity.
    destruct (result (displayEdges _ _ _)); simpl; try reflexivity.
    by rewrite <- app_assoc.
  - intros [H | H]; unfold redraw; rewrite H; [|done].
    by destruct (scene_graph_ this).
  - done.
  - done.
  - intros graph H. unfold setGraph. by rewrite H.
Qed.

End Controller.

(** ** Marker updates *)

Lemma push_back_push_back (ps1 ps2 : list Point) (cs1 cs2 : list Msg.ColorRGBA)
    (m : Marker) :
  Msg.push_back ps2 cs2 (Msg.push_back ps1 cs1 m) =
  Msg.push_back (ps1 ++ ps2) (cs1 ++ cs2) m.
Proof. unfold Msg.push_back; simpl. by rewrite !app_assoc. Qed.

Section Centroids.

Context `{Ext : Externals}.

Variables (config : LayerConfig) (layer : SceneGraphLayer)
          (visualizer_config : VisualizerConfig).

(** The colours are read from the nodes: no fixed layer colour, and not
    the distance ramp of the places layer. *)
Hypothesis by_node_color :
  color_places_by_distance visualizer_config && bool_decide (layer_id layer = PLACES)
  = false.

#[local] Abbreviation sentinel_msg :=
  (makeColorMsg sentinel_color (Some (marker_alpha config))).

#[local] Abbreviation centroid_of :=
  (fun p : N * Node =>
     raise_z (position (attributes p.2)) (getZOffset config visualizer_config)).

(** The colour of one node in this mode. *)
Lemma centroid_color_by_node (valid : bool) (node : Node) :
  centroid_color visualizer_config layer None valid node =
  Ok (if valid then
        match semantic_color (attributes node) with
        | Ok c => (c, true)
        | _ => (sentinel_color, false)
        end
      else (sentinel_color, false)).
Proof.
  unfold centroid_color. destruct valid; simpl; [|reflexivity].
  rewrite by_node_color. by destruct (attributes node).
Qed.

Lemma centroid_loop_cons (p : N * Node) (l : list (N * Node)) (valid : bool)
    (marker : Marker) :
  centroid_loop config layer visualizer_config None (p :: l) valid marker =
  '(desired_color, valid') ← centroid_color visualizer_config layer None valid p.2;
  centroid_loop config layer visualizer_config None l valid'
    (Msg.push_back [centroid_of p]
       [makeColorMsg desired_color (Some (marker_alpha config))] marker).
Proof. reflexivity. Qed.

(** Once the flag is down, every node is red. *)
Lemma centroid_loop_degraded (l : list (N * Node)) (marker : Marker) :
  centroid_loop config layer visualizer_config None l false marker =
  Ok (Msg.push_back (centroid_of <$> l) (replicate (length l) sentinel_msg) marker).
Proof.
  revert marker. induction l as [|p l IH]; intros marker.
  - unfold Msg.push_back. destruct marker; simpl. by rewrite !app_nil_r.
  - rewrite centroid_loop_cons, centroid_color_by_node. simpl.
    rewrite IH, push_back_push_back. reflexivity.
Qed.

(** Up to a node without semantic attributes the loop cannot throw; that
    node and all the nodes after it are red. *)
Lemma centroid_loop_mismatch (pre post : list (N * Node)) (n : N * Node)
    (valid : bool) (marker : Marker) :
  semantic_color (attributes n.2) = Throw bad_cast ->
  exists cs,
    length cs = length pre /\
    centroid_loop config layer visualizer_config None (pre ++ n :: post) valid marker =
    Ok (Msg.push_back (centroid_of <$> (pre ++ n :: post))
          (cs ++ replicate (S (length post)) sentinel_msg) marker).
Proof.
  intros Hn. revert valid marker.
  induction pre as [|p pre IH]; intros valid marker.
  - exists []. split; [done|].
    rewrite app_nil_l, centroid_loop_cons, centroid_color_by_node, Hn.
    destruct valid; simpl;
      rewrite centroid_loop_degraded, push_back_push_back; reflexivity.
  - rewrite <- app_comm_cons, centroid_loop_cons, centroid_color_by_node.
    destruct (if valid then _ else _) as [c valid']. simpl.
    destruct (IH valid' (Msg.push_back [centroid_of p]
                 [makeColorMsg c (Some (marker_alpha config))] marker))
      as (cs & Hlen & ->).
    exists (makeColorMsg c (Some (marker_alpha config)) :: cs).
    split; [simpl; lia|]. by rewrite push_back_push_back.
Qed.

(** C5.  In [makeCentroidMarkers], called without a fixed layer colour
    and outside the distance colouring of the places layer, a node whose
    attributes are not semantic gets the sentinel colour, and so does
    every node after it in the layer; the builder returns its marker, no
    exception leaves it. *)
Theorem makeCentroidMarkers_sentinel_propagates
    (marker_namespace : string) (pre post : list (N * Node)) (n : N * Node) :
  nodes layer = pre ++ n :: post ->
  semantic_color (attributes n.2) = Throw bad_cast ->
  exists marker,
    makeCentroidMarkers config layer visualizer_config None marker_namespace = Ok marker /\
    length (Msg.colors marker) = length (nodes layer) /\
    drop (length pre) (Msg.colors marker) =
      replicate (S (length post))
                (makeColorMsg sentinel_color (Some (marker_alpha config))).
Proof.
  intros Hnodes Hn. unfold makeCentroidMarkers. rewrite Hnodes.
  edestruct (centroid_loop_mismatch pre post n true) as (cs & Hlen & ->); [exact Hn|].
  eexists. split; [reflexivity|]. simpl. split.
  - rewrite !length_app. simpl. rewrite length_replicate. lia.
  - by rewrite drop_app_length'.
Qed.

End Centroids.

Section BoundingBoxes.

Context `{Ext : Externals}.

Variables (this : SceneGraphVisualizer) (config : LayerConfig) (current_time : Z).

(** An object node always gets its box: both casts of
    [makeBoundingBoxMarker] succeed. *)
Lemma makeBoundingBoxMarker_object (node : Node) (ns : string) (bb : BoundingBox) :
  object_bounding_box (attributes node) = Ok bb ->
  exists marker,
    result (makeBoundingBoxMarker config node (visualizer_config_ this) ns) = Ok marker /\
    Msg.type marker = Msg.CUBE /\ Msg.action marker = Msg.ADD /\
    Msg.id marker = to_int32 (node_id node) /\ Msg.ns marker = ns.
Proof.
  intros Hbb. unfold makeBoundingBoxMarker, bounding_box_pose.
  destruct (attributes node); try discriminate. injection Hbb as ->.
  destruct (bb_type bb) eqn:Htype; cbn; rewrite Htype; cbn;
    (eexists; split; [reflexivity|done]).
Qed.

Lemma handleBoundingBoxes_loop_stops (ns : string) (pre post : list (N * Node))
    (n : N * Node) (markers : MarkerArray) :
  visualize config = true -> use_bounding_box config = true ->
  Forall (fun p : N * Node => exists bb, object_bounding_box (attributes p.2) = Ok bb) pre ->
  object_bounding_box (attributes n.2) = Throw bad_cast ->
  exists boxes,
    boxes_of this config current_time ns pre boxes /\
    handleBoundingBoxes_loop this ns config current_time (pre ++ n :: post) markers =
    mkEff (box_log this config ns pre
             ++ [ROS_ERROR "Bounding boxes enabled for non-object layer"])
          (Ok (markers ++ boxes)).
Proof.
  intros Hvis Hbox Hpre Hn. revert markers.
  induction Hpre as [|p pre [bb Hp] Hpre IH]; intros markers.
  - exists []. split; [constructor|]. simpl.
    rewrite Hvis, Hbox, Hn. simpl. by rewrite app_nil_r.
  - destruct (makeBoundingBoxMarker_object p.2 ns bb Hp) as (marker & Hmarker & _).
    destruct (IH (markers ++ [fillHeader this marker current_time]))
      as (boxes & Hboxes & Hrun).
    exists (fillHeader this marker current_time :: boxes). split.
    + constructor; [eauto|exact Hboxes].
    + cbn [app handleBoundingBoxes_loop]. rewrite Hvis, Hbox, Hp. cbn [andb].
      rewrite <- (Eff_eta (makeBoundingBoxMarker _ _ _ _)), Hmarker.
      rewrite Eff_bind_ok, Hrun. cbn [trace result].
      unfold box_log. cbn [fmap list_fmap concat].
      by rewrite <- !app_assoc.
Qed.

(** C1, as the code has it.  With boxes enabled for a shown layer, the
    first node that is not an object ends [handleBoundingBoxes] for the
    layer: the error is logged once, after what the boxes before it
    logged; the object nodes before it have their boxes in the array,
    and neither that node nor any node after it adds a marker. *)
Theorem handleBoundingBoxes_stops_at_mismatch (layer : SceneGraphLayer)
    (pre post : list (N * Node)) (n : N * Node) (markers : MarkerArray) :
  visualize config = true -> use_bounding_box config = true ->
  nodes layer = pre ++ n :: post ->
  Forall (fun p : N * Node => exists bb, object_bounding_box (attributes p.2) = Ok bb) pre ->
  object_bounding_box (attributes n.2) = Throw bad_cast ->
  exists boxes,
    boxes_of this config current_time
      ("layer_" +:+ to_string (layer_id layer) +:+ "_bounding_boxes") pre boxes /\
    handleBoundingBoxes this layer config current_time markers =
    mkEff (box_log this config
             ("layer_" +:+ to_string (layer_id layer) +:+ "_bounding_boxes") pre
             ++ [ROS_ERROR "Bounding boxes enabled for non-object layer"])
          (Ok (markers ++ boxes)).
Proof.
  intros Hvis Hbox Hnodes Hpre Hn. unfold handleBoundingBoxes. rewrite Hnodes.
  by apply handleBoundingBoxes_loop_stops.
Qed.

End BoundingBoxes.

(** ** Runs that publish nothing *)

Lemma silent_ret {A} (a : A) : silent (mret a : Eff A).
Proof. reflexivity. Qed.

Lemma silent_lift {A} (o : outcome A) : silent (lift o).
Proof. reflexivity. Qed.

Lemma silent_bind {A B} (m : Eff A) (f : A -> Eff B) :
  silent m -> (forall a, silent (f a)) -> silent (m ≫= f).
Proof.
  unfold silent. intros Hm Hf.
  rewrite Eff_bind_trace, publications_app, Hm.
  destruct (result m); simpl; auto.
Qed.

Create HintDb silent.
#[local] Hint Resolve silent_ret silent_lift : silent.

Section Orchestrator.

Context `{Ext : Externals}.

Variables (this : SceneGraphVisualizer) (current_time : Z).

Lemma silent_handleCentroids layer config markers :
  silent (handleCentroids this layer config current_time markers).
Proof.
  unfold handleCentroids. destruct (visualize config); auto with silent.
  apply silent_bind; auto with silent.
Qed.

Lemma silent_handleMeshEdges layer config markers :
  silent (handleMeshEdges this layer config current_time markers).
Proof.
  unfold handleMeshEdges.
  destruct (negb _); auto with silent.
  destruct (visualize config); auto with silent.
  repeat (apply silent_bind; intros; auto with silent).
Qed.

Lemma silent_handleLabels layer config markers :
  silent (handleLabels this layer config current_time markers).
Proof. reflexivity. Qed.

Lemma silent_makeBoundingBoxMarker config node ns :
  silent (makeBoundingBoxMarker config node (visualizer_config_ this) ns).
Proof.
  unfold makeBoundingBoxMarker.
  apply silent_bind; [apply silent_lift|intros color].
  apply silent_bind; [apply silent_lift|intros bb].
  apply silent_bind; [|intros; apply silent_ret].
  unfold bounding_box_pose. destruct (bb_type bb); try apply silent_ret.
  apply silent_bind; [reflexivity|intros; apply silent_ret].
Qed.

Lemma silent_handleBoundingBoxes_loop ns config l markers :
  silent (handleBoundingBoxes_loop this ns config current_time l markers).
Proof.
  revert markers. induction l as [|p l IH]; intros markers; simpl; auto with silent.
  destruct (visualize config && use_bounding_box config); [|apply IH].
  destruct (object_bounding_box _) as [bb|[]|]; auto with silent.
  - apply silent_bind; [apply silent_makeBoundingBoxMarker|intros; apply IH].
  - apply silent_bind; [reflexivity|auto with silent].
Qed.

Lemma silent_handleBoundingBoxes layer config markers :
  silent (handleBoundingBoxes this layer config current_time markers).
Proof. apply silent_handleBoundingBoxes_loop. Qed.

Lemma silent_displayLayers_loop l acc :
  silent (displayLayers_loop this current_time l acc).
Proof.
  revert acc. induction l as [|p l IH]; intros acc; simpl; auto with silent.
  destruct (layer_configs_ this !! p.1).
  - apply silent_bind; [apply silent_handleCentroids|intros].
    apply silent_bind; [apply silent_handleLabels|intros].
    apply silent_bind; [apply silent_handleBoundingBoxes|intros].
    apply silent_bind; [apply silent_handleMeshEdges|intros]. apply IH.
  - apply silent_bind; [reflexivity|intros; apply IH].
Qed.

Lemma publications_publish_unless_empty channel markers :
  publications (trace (publish_unless_empty channel markers)) =
  filter (fun p : Channel * MarkerArray => p.2 <> []) [(channel, markers)].
Proof. by destruct markers. Qed.

(** What [displayLayers] sends: nothing when its loop is left by an
    exception, else the non-empty ones of the four arrays. *)
Lemma displayLayers_publications (scene_graph : DynamicSceneGraph) :
  publications (trace (displayLayers this current_time scene_graph)) =
  match result (displayLayers_loop this current_time (layers scene_graph) no_batches) with
  | Ok batches =>
      filter (fun p : Channel * MarkerArray => p.2 <> []) (batches_by_channel batches)
  | _ => []
  end.
Proof.
  unfold displayLayers. fold no_batches.
  rewrite Eff_bind_trace, publications_app, silent_displayLayers_loop.
  destruct (result (displayLayers_loop _ _ _ _)) as [batches| |]; try reflexivity.
  simpl app. unfold batches_by_channel.
  destruct (layer_centroids batches), (bounding_boxes batches),
    (text_markers batches), (line_assoc_markers batches); reflexivity.
Qed.

(** C4, as the code has it.  [displayLayers] hands each of its four
    arrays to its publisher exactly when the array holds a marker,
    whatever the action of the marker: an array of delete markers is
    sent like any other.  When the layer loop is left by an exception
    nothing is sent. *)
Theorem displayLayers_publishes_nonempty (scene_graph : DynamicSceneGraph) :
  (forall batches,
     result (displayLayers_loop this current_time (layers scene_graph) no_batches)
       = Ok batches ->
     forall channel markers,
       (channel, markers) ∈ publications (trace (displayLayers this current_time scene_graph))
       <-> (channel, markers) ∈ batches_by_channel batches /\ markers <> []) /\
  ((forall batches,
      result (displayLayers_loop this current_time (layers scene_graph) no_batches)
        <> Ok batches) ->
   publications (trace (displayLayers this current_time scene_graph)) = []).
Proof.
  split.
  - intros batches Hrun channel markers.
    rewrite displayLayers_publications, Hrun, list_elem_of_filter. simpl. tauto.
  - intros Hrun. rewrite displayLayers_publications.
    destruct (result (displayLayers_loop _ _ _ _)) as [batches| |]; try reflexivity.
    by destruct (Hrun batches).
Qed.

End Orchestrator.

Section BoxesOnTheLabelChannel.

Context `{Ext : Externals}.

Variables (this : SceneGraphVisualizer) (current_time : Z).

(** [handleBoundingBoxes] only appends to the array it is given: its
    log is the same whatever the array, and the array it returns is the
    given one followed by what it returns on the empty array. *)
Lemma handleBoundingBoxes_loop_appends ns config l markers :
  handleBoundingBoxes_loop this ns config current_time l markers =
  mkEff (trace (handleBoundingBoxes_loop this ns config current_time l []))
        ((fun boxes => markers ++ boxes) <$>
           result (handleBoundingBoxes_loop this ns config current_time l [])).
Proof.
  assert (Hshift : forall (front mid : MarkerArray) (r : outcome MarkerArray),
             (fun boxes => front ++ boxes) <$> ((fun boxes => ([] ++ mid) ++ boxes) <$> r) =
             (fun boxes => (front ++ mid) ++ boxes) <$> r).
  { intros front mid [boxes| |]; try reflexivity.
    unfold fmap, outcome_fmap. simpl. by rewrite app_assoc. }
  revert markers. induction l as [|p l IH]; intros markers.
  - simpl. unfold fmap, outcome_fmap. by rewrite app_nil_r.
  - cbn [handleBoundingBoxes_loop].
    destruct (visualize config && use_bounding_box config).
    + destruct (object_bounding_box _) as [bb|[]|]; try reflexivity.
      * destruct (makeBoundingBoxMarker _ _ _ _) as [events [marker| |]];
          try reflexivity.
        rewrite !Eff_bind_ok.
        rewrite (IH (markers ++ _)), (IH ([] ++ _)). cbn [trace result].
        by rewrite Hshift.
      * simpl. unfold fmap, outcome_fmap. by rewrite app_nil_r.
    + rewrite (IH (markers ++ _)), (IH ([] ++ _)). cbn [trace result].
      by rewrite Hshift.
Qed.

Lemma handleLabels_loop_appends ns config l markers :
  handleLabels_loop this ns config current_time l markers =
  markers ++ handleLabels_loop this ns config current_time l [].
Proof.
  revert markers. induction l as [|p l IH]; intros markers; simpl.
  - by rewrite app_nil_r.
  - rewrite (IH (markers ++ _)), (IH [_]). by rewrite <- app_assoc.
Qed.

(** The text array after one configured layer: the array before it, the
    labels of the layer, the boxes of the layer. *)
Lemma layer_texts layer config markers texts :
  result (handleLabels this layer config current_time markers
          ≫= handleBoundingBoxes this layer config current_time) = Ok texts ->
  exists labels boxes,
    result (handleBoundingBoxes this layer config current_time []) = Ok boxes /\
    texts = markers ++ labels ++ boxes.
Proof.
  unfold handleLabels. rewrite Eff_bind_ret.
  unfold handleBoundingBoxes.
  rewrite handleBoundingBoxes_loop_appends. cbn [result].
  destruct (result (handleBoundingBoxes_loop _ _ _ _ _ [])) as [boxes| |];
    try discriminate.
  intros [= <-]. eexists _, boxes. split; [reflexivity|].
  rewrite handleLabels_loop_appends, <- app_assoc. reflexivity.
Qed.

(** The result of one iteration of the layer loop for a configured
    layer. *)
Lemma displayLayers_loop_cons_result p l acc config :
  layer_configs_ this !! p.1 = Some config ->
  result (displayLayers_loop this current_time (p :: l) acc) =
  centroids ← result (handleCentroids this p.2 config current_time (layer_centroids acc));
  texts ← result (handleLabels this p.2 config current_time (text_markers acc)
                  ≫= handleBoundingBoxes this p.2 config current_time);
  lines ← result (handleMeshEdges this p.2 config current_time (line_assoc_markers acc));
  result (displayLayers_loop this current_time l
            {| layer_centroids := centroids; text_markers := texts;
               line_assoc_markers := lines; bounding_boxes := bounding_boxes acc |}).
Proof.
  intros Hconfig. cbn [displayLayers_loop]. rewrite Hconfig.
  rewrite Eff_bind_result'.
  destruct (result (handleCentroids _ _ _ _ _)) as [centroids| |]; try reflexivity.
  cbn [mbind outcome_bind]. unfold handleLabels.
  rewrite !Eff_bind_ret, Eff_bind_result'.
  destruct (result (handleBoundingBoxes _ _ _ _ _)) as [texts| |]; try reflexivity.
  cbn [mbind outcome_bind]. apply Eff_bind_result'.
Qed.

Lemma displayLayers_loop_skip_result p l acc :
  layer_configs_ this !! p.1 = None ->
  result (displayLayers_loop this current_time (p :: l) acc) =
  result (displayLayers_loop this current_time l acc).
Proof. intros Hconfig. cbn [displayLayers_loop]. by rewrite Hconfig. Qed.

(** The arrays only grow along the layer loop, and the array of the
    bounding box publisher is never touched. *)
Lemma displayLayers_loop_grows l acc batches :
  result (displayLayers_loop this current_time l acc) = Ok batches ->
  bounding_boxes batches = bounding_boxes acc /\
  exists more, text_markers batches = text_markers acc ++ more.
Proof.
  revert acc. induction l as [|p l IH]; intros acc.
  - intros [= <-]. split; [done|]. exists []. by rewrite app_nil_r.
  - destruct (layer_configs_ this !! p.1) as [config|] eqn:Hconfig.
    + rewrite (displayLayers_loop_cons_result _ _ _ _ Hconfig).
      destruct (result (handleCentroids _ _ _ _ _)) as [centroids| |]; try discriminate.
      cbn [mbind outcome_bind].
      destruct (result (_ ≫= _)) as [texts| |] eqn:Htexts; try discriminate.
      cbn [mbind outcome_bind].
      destruct (result (handleMeshEdges _ _ _ _ _)) as [lines| |]; try discriminate.
      cbn [mbind outcome_bind].
      intros Hrun. apply IH in Hrun as [Hboxes (more & Hmore)]. simpl in *.
      split; [done|].
      apply layer_texts in Htexts as (labels & boxes & _ & ->).
      exists ((labels ++ boxes) ++ more). by rewrite Hmore, <- !app_assoc.
    + rewrite (displayLayers_loop_skip_result _ _ _ Hconfig). apply IH.
Qed.

(** Every box of every configured layer is in the text array the loop
    returns. *)
Lemma displayLayers_loop_boxes_in_texts l acc batches id layer config boxes marker :
  result (displayLayers_loop this current_time l acc) = Ok batches ->
  (id, layer) ∈ l ->
  layer_configs_ this !! id = Some config ->
  result (handleBoundingBoxes this layer config current_time []) = Ok boxes ->
  marker ∈ boxes ->
  marker ∈ text_markers batches.
Proof.
  intros Hrun Hin Hid Hboxes Hmarker. revert acc Hrun.
  induction l as [|p l IH]; intros acc; [by apply elem_of_nil in Hin|].
  apply elem_of_cons in Hin as [<- | Hin].
  - rewrite (displayLayers_loop_cons_result (id, layer) _ _ _ Hid).
    cbn [fst snd].
    destruct (result (handleCentroids _ _ _ _ _)) as [centroids| |]; try discriminate.
    cbn [mbind outcome_bind].
    destruct (result (_ ≫= _)) as [texts| |] eqn:Htexts; try discriminate.
    cbn [mbind outcome_bind].
    destruct (result (handleMeshEdges _ _ _ _ _)) as [lines| |]; try discriminate.
    cbn [mbind outcome_bind].
    intros Hrun. apply displayLayers_loop_grows in Hrun as [_ (more & ->)].
    apply layer_texts in Htexts as (labels & boxes' & Hboxes' & ->).
    simpl in *. rewrite Hboxes in Hboxes'. injection Hboxes' as <-.
    set_solver.
  - destruct (layer_configs_ this !! p.1) as [config'|] eqn:Hconfig.
    + rewrite (displayLayers_loop_cons_result _ _ _ _ Hconfig).
      destruct (result (handleCentroids _ _ _ _ _)) as [centroids| |]; try discriminate.
      cbn [mbind outcome_bind].
      destruct (result (_ ≫= _)) as [texts| |]; try discriminate.
      cbn [mbind outcome_bind].
      destruct (result (handleMeshEdges _ _ _ _ _)) as [lines| |]; try discriminate.
      apply (IH Hin).
    + rewrite (displayLayers_loop_skip_result _ _ _ Hconfig). apply (IH Hin).
Qed.

(** C10.  In [displayLayers] the markers of [handleBoundingBoxes] go
    into the array of the text markers: every box of every configured
    layer is in the array published on the text marker topic, while the
    array of the bounding box topic stays empty and no pass publishes on
    that topic. *)
Theorem displayLayers_boxes_on_text_channel (scene_graph : DynamicSceneGraph) :
  (forall markers,
     (bounding_box_pub_, markers)
       ∉ publications (trace (displayLayers this current_time scene_graph))) /\
  (forall batches,
     result (displayLayers_loop this current_time (layers scene_graph) no_batches)
       = Ok batches ->
     bounding_boxes batches = [] /\
     forall id layer config boxes marker,
       (id, layer) ∈ layers scene_graph ->
       layer_configs_ this !! id = Some config ->
       result (handleBoundingBoxes this layer config current_time []) = Ok boxes ->
       marker ∈ boxes ->
       marker ∈ text_markers batches /\
       (text_markers_pub_, text_markers batches)
         ∈ publications (trace (displayLayers this current_time scene_graph))).
Proof.
  split.
  - intros markers. rewrite displayLayers_publications.
    destruct (result (displayLayers_loop _ _ _ _)) as [batches| |] eqn:Hrun;
      [|apply not_elem_of_nil..].
    apply displayLayers_loop_grows in Hrun as [Hboxes _].
    rewrite list_elem_of_filter. unfold batches_by_channel. rewrite Hboxes.
    cbn [snd]. intros [Hne Hin].
    repeat (apply elem_of_cons in Hin as [[=] | Hin]); [by subst|].
    by apply elem_of_nil in Hin.
  - intros batches Hrun.
    split; [by apply displayLayers_loop_grows in Hrun as [-> _]|].
    intros id layer config boxes marker Hin Hid Hboxes Hmarker.
    pose proof (displayLayers_loop_boxes_in_texts _ _ _ _ _ _ _ _
                  Hrun Hin Hid Hboxes Hmarker) as Htext.
    split; [exact Htext|].
    rewrite displayLayers_publications, Hrun, list_elem_of_filter.
    split; [|unfold batches_by_channel; do 2 right; left].
    cbn [snd]. intros Hnil. rewrite Hnil in Htext. by apply elem_of_nil in Htext.
Qed.

End BoxesOnTheLabelChannel.

(** ** The inter-layer edge loop *)


Lemma skip_stride_Forall {A} (P : A -> Prop) (n c : N) (l : list A) :
  Forall P l -> Forall P (skip_stride n c l).
Proof.
  intros H. revert c. induction H as [|x l Hx Hl IH]; intros c; simpl; [constructor|].
  destruct (n <=? c)%N; [constructor|]; auto.
Qed.

Section EdgeLoop.

Context `{Ext : Externals}.

Variables (graph : DynamicSceneGraph) (configs : gmap N LayerConfig)
          (visualizer_config : VisualizerConfig).

Lemma map_at_Ok {V} (m : gmap N V) (k : N) (v : V) :
  map_at m k = Ok v <-> m !! k = Some v.
Proof. unfold map_at. destruct (m !! k); split; congruence. Qed.

(** The state after the first statement of the loop body. *)
Lemma open_layer_spec (s t : Node) (st st1 : EdgeLoop) :
  open_layer configs s t st = Ok st1 ->
  (forall L, L <> node_layer s ->
     layer_markers st1 !! L = layer_markers st !! L /\
     num_since_last_insertion st1 !! L = num_since_last_insertion st !! L) /\
  points_at st1 (node_layer s) = points_at st (node_layer s) /\
  counter_at (num_since_last_insertion st1) (node_layer s) = counter_before st (node_layer s) /\
  exists m1,
    layer_markers st1 !! node_layer s = Some m1 /\
    match layer_markers st !! node_layer s with
    | Some m => m1 = m /\
                num_since_last_insertion st1 !! node_layer s =
                num_since_last_insertion st !! node_layer s
    | None => Msg.id m1 = to_int32 (node_layer s) /\ Msg.ns m1 = "graph_edges" /\
              is_Some (configs !! node_layer s) /\
              num_since_last_insertion st1 !! node_layer s = Some 0%N
    end.
Proof.
  unfold open_layer, points_at, counter_before. case_bool_decide as Hnew.
  - rewrite Hnew.
    destruct (configs !! node_layer s) as [cs|] eqn:Hcs;
      [|by unfold map_at; rewrite Hcs].
    rewrite (proj2 (map_at_Ok _ _ _) Hcs). simpl.
    destruct (map_at configs (node_layer t)) as [ct| |]; simpl; try discriminate.
    intros [= <-]. simpl. split; [|split; [|split]].
    + intros L HL. by rewrite !lookup_insert_ne.
    + rewrite lookup_insert_eq. simpl. by destruct (visualize ct).
    + unfold counter_at. by rewrite lookup_insert_eq.
    + eexists. rewrite !lookup_insert_eq. split; [reflexivity|].
      by destruct (visualize ct).
  - intros [= <-].
    destruct (layer_markers st !! node_layer s) as [m|] eqn:Hm; [|done].
    repeat split; eauto.
Qed.

(** One iteration of the edge loop, seen from the source layer of its
    edge: the other layers are not touched; the marker of the source
    layer exists afterwards; an eligible edge is drawn and the counter
    reset when the counter has reached the configured count, and is
    counted otherwise; any other edge leaves points and counter alone. *)
Lemma edge_body_spec (st st' : EdgeLoop) (edge : N * Edge) :
  edge_body graph configs visualizer_config st edge = Ok st' ->
  exists s t cs,
    getNode graph (source edge.2) = Some s /\
    getNode graph (target edge.2) = Some t /\
    configs !! node_layer s = Some cs /\
    (forall L, L <> node_layer s ->
       layer_markers st' !! L = layer_markers st !! L /\
       num_since_last_insertion st' !! L = num_since_last_insertion st !! L) /\
    (exists m',
       layer_markers st' !! node_layer s = Some m' /\
       match layer_markers st !! node_layer s with
       | Some m => Msg.id m' = Msg.id m /\ Msg.ns m' = Msg.ns m
       | None => Msg.id m' = to_int32 (node_layer s) /\ Msg.ns m' = "graph_edges"
       end) /\
    match eligible graph configs edge with
    | Some e =>
        e_source e = s /\
        if (to_size_t (interlayer_edge_insertion_skip cs)
              <=? counter_before st (node_layer s))%N
        then points_at st' (node_layer s) =
               points_at st (node_layer s) ++ drawn_points visualizer_config e /\
             counter_at (num_since_last_insertion st') (node_layer s) = 0%N
        else points_at st' (node_layer s) = points_at st (node_layer s) /\
             counter_at (num_since_last_insertion st') (node_layer s) =
               size_incr (counter_before st (node_layer s))
    | None =>
        points_at st' (node_layer s) = points_at st (node_layer s) /\
        counter_at (num_since_last_insertion st') (node_layer s) =
          counter_before st (node_layer s)
    end.
Proof.
  unfold edge_body, eligible.
  destruct (getNode graph (source edge.2)) as [s|]; [|discriminate].
  destruct (getNode graph (target edge.2)) as [t|]; [|discriminate].
  cbn [deref mbind outcome_bind option_bind].
  destruct (open_layer configs s t st) as [st1| |] eqn:Hopen; try discriminate.
  apply open_layer_spec in Hopen as (Hother & Hpoints & Hcounter & m1 & Hm1 & Hfresh).
  destruct (configs !! node_layer s) as [cs|] eqn:Hcs;
    [|by unfold map_at; rewrite Hcs].
  rewrite (proj2 (map_at_Ok _ _ _) Hcs). cbn [mbind outcome_bind option_bind].
  intros Hrun. exists s, t, cs. do 2 (split; [reflexivity|]). split; [exact Hcs|].
  assert (Hkeep : exists m',
             layer_markers st1 !! node_layer s = Some m' /\
             match layer_markers st !! node_layer s with
             | Some m => Msg.id m' = Msg.id m /\ Msg.ns m' = Msg.ns m
             | None => Msg.id m' = to_int32 (node_layer s) /\ Msg.ns m' = "graph_edges"
             end).
  { exists m1. split; [exact Hm1|].
    destruct (layer_markers st !! node_layer s) as [m|] eqn:Hm.
    - by destruct Hfresh as [-> _].
    - by destruct Hfresh as (? & ? & _). }
  destruct (visualize cs) eqn:Hvs; cbn [negb andb] in *.
  2: { injection Hrun as <-. split; [exact Hother|]. split; [exact Hkeep|].
       by destruct (configs !! node_layer t). }
  destruct (configs !! node_layer t) as [ct|] eqn:Hct;
    [|by unfold map_at in Hrun; rewrite Hct in Hrun].
  rewrite (proj2 (map_at_Ok _ _ _) Hct) in Hrun.
  cbn [mbind outcome_bind option_bind] in *.
  destruct (visualize ct) eqn:Hvt; cbn [negb] in *.
  2: { injection Hrun as <-. split; [exact Hother|]. split; [exact Hkeep|]. by split. }
  rewrite Hcounter in Hrun.
  destruct (to_size_t (interlayer_edge_insertion_skip cs)
              <=? counter_before st (node_layer s))%N.
  - rewrite (proj2 (map_at_Ok _ _ _) Hm1) in Hrun.
    cbn [mbind outcome_bind] in Hrun.
    destruct (edge_color cs s t) as [color| |]; try discriminate.
    injection Hrun as <-. cbn [layer_markers num_since_last_insertion].
    split; [|split; [|split; [reflexivity|split]]].
    + intros L HL. rewrite !lookup_insert_ne by done. by apply Hother.
    + destruct Hkeep as (m' & Hm' & Hstatic). rewrite Hm1 in Hm'.
      injection Hm' as <-. eexists. rewrite lookup_insert_eq.
      split; [reflexivity|]. exact Hstatic.
    + unfold points_at in *. cbn [layer_markers]. rewrite lookup_insert_eq.
      rewrite Hm1 in Hpoints. simpl in *. by rewrite Hpoints.
    + unfold counter_at. cbn [num_since_last_insertion]. by rewrite lookup_insert_eq.
  - injection Hrun as <-. cbn [layer_markers num_since_last_insertion].
    split; [|split; [exact Hkeep|split; [reflexivity|split]]].
    + intros L HL. rewrite !lookup_insert_ne by done. by apply Hother.
    + exact Hpoints.
    + unfold counter_at at 1. cbn [num_since_last_insertion].
      by rewrite lookup_insert_eq.
Qed.

Lemma eligible_edges_cons (L : N) (edge : N * Edge) (rest : list (N * Edge)) :
  eligible_edges graph configs L (edge :: rest) =
  match eligible graph configs edge with
  | Some e =>
      if decide (node_layer (e_source e) = L)
      then e :: eligible_edges graph configs L rest
      else eligible_edges graph configs L rest
  | None => eligible_edges graph configs L rest
  end.
Proof.
  unfold eligible_edges. cbn [omap list_omap].
  destruct (eligible graph configs edge) as [e|]; [|reflexivity].
  rewrite filter_cons. by destruct (decide _).
Qed.

(** What an eligible edge is. *)
Lemma eligible_Some (edge : N * Edge) (e : EligibleEdge) :
  eligible graph configs edge = Some e ->
  getNode graph (source edge.2) = Some (e_source e) /\
  getNode graph (target edge.2) = Some (e_target e) /\
  configs !! node_layer (e_source e) = Some (e_source_config e) /\
  configs !! node_layer (e_target e) = Some (e_target_config e) /\
  visualize (e_source_config e) = true /\
  visualize (e_target_config e) = true.
Proof.
  unfold eligible.
  destruct (getNode graph (source edge.2)) as [s|]; [|discriminate].
  destruct (getNode graph (target edge.2)) as [t|]; [|discriminate].
  cbn [mbind option_bind].
  destruct (configs !! node_layer s) as [cs|] eqn:Hcs; [|discriminate].
  destruct (configs !! node_layer t) as [ct|] eqn:Hct; [|discriminate].
  cbn [mbind option_bind].
  destruct (visualize cs) eqn:Hvs, (visualize ct) eqn:Hvt; try discriminate.
  intros [= <-]. by repeat split.
Qed.

Lemma eligible_edges_Forall (L : N) (edges : list (N * Edge)) :
  Forall
    (fun e =>
       node_layer (e_source e) = L /\
       exists edge, edge ∈ edges /\ eligible graph configs edge = Some e)
    (eligible_edges graph configs L edges).
Proof.
  apply Forall_forall. intros e He. unfold eligible_edges in He.
  apply list_elem_of_filter in He as [HL He]. split; [exact HL|].
  apply list_elem_of_omap in He as (edge & Hedge & Helig). eauto.
Qed.

Lemma edge_loop_cons (edge : N * Edge) (rest : list (N * Edge)) (st st' : EdgeLoop) :
  edge_loop graph configs visualizer_config (edge :: rest) st = Ok st' ->
  exists st1,
    edge_body graph configs visualizer_config st edge = Ok st1 /\
    edge_loop graph configs visualizer_config rest st1 = Ok st'.
Proof.
  cbn [edge_loop].
  destruct (edge_body graph configs visualizer_config st edge) as [st1| |];
    try discriminate.
  eauto.
Qed.

Lemma edge_body_wf (st st' : EdgeLoop) (edge : N * Edge) :
  edge_body graph configs visualizer_config st edge = Ok st' ->
  edge_loop_wf configs st -> edge_loop_wf configs st'.
Proof.
  intros Hrun Hwf L.
  apply edge_body_spec in Hrun
    as (s & t & cs & _ & _ & Hcs & Hother & (m' & Hm' & Hstatic) & _).
  destruct (decide (L = node_layer s)) as [-> | HL].
  - rewrite Hm'. specialize (Hwf (node_layer s)).
    destruct (layer_markers st !! node_layer s) as [m|].
    + destruct Hstatic as [-> ->]. exact Hwf.
    + destruct Hstatic as [-> ->]. by rewrite Hcs.
  - destruct (Hother L HL) as [-> ->]. apply Hwf.
Qed.

Lemma counter_before_present (st : EdgeLoop) (L : N) :
  is_Some (layer_markers st !! L) ->
  counter_before st L = counter_at (num_since_last_insertion st) L.
Proof. unfold counter_before. by intros [m ->]. Qed.

Lemma to_size_t_lt (n : N) : (to_size_t n < size_max)%N.
Proof. unfold to_size_t. by apply N.mod_lt. Qed.

(** The whole loop, seen from one layer: the marker of the layer gains
    the points of the eligible edges of the layer that its counter
    selects. *)
Lemma edge_loop_layer (edges : list (N * Edge)) (st st' : EdgeLoop) (L : N)
    (cs : LayerConfig) :
  edge_loop graph configs visualizer_config edges st = Ok st' ->
  configs !! L = Some cs ->
  (counter_before st L <= to_size_t (interlayer_edge_insertion_skip cs))%N ->
  points_at st' L =
  points_at st L ++
  concat (drawn_points visualizer_config <$>
            skip_stride (to_size_t (interlayer_edge_insertion_skip cs))
                        (counter_before st L)
                        (eligible_edges graph configs L edges)).
Proof.
  intros Hrun Hcs. revert st Hrun.
  induction edges as [|edge rest IH]; intros st Hrun Hbound.
  - injection Hrun as <-. simpl. by rewrite app_nil_r.
  - apply edge_loop_cons in Hrun as (st1 & Hbody & Hrest).
    apply edge_body_spec in Hbody
      as (s & t & cs' & Hs & Ht & Hcs' & Hother & (m' & Hm' & _) & Hstep).
    rewrite eligible_edges_cons.
    destruct (decide (L = node_layer s)) as [-> | HL].
    + rewrite Hcs in Hcs'. injection Hcs' as <-.
      assert (counter_before st1 (node_layer s) =
              counter_at (num_since_last_insertion st1) (node_layer s)) as Hc1.
      { apply counter_before_present. by rewrite Hm'. }
      revert Hstep. destruct (eligible graph configs edge) as [e|]; intros Hstep.
      * destruct Hstep as [Hes Hstep]. subst s.
        rewrite decide_True by reflexivity.
        cbn [skip_stride]. revert Hstep.
        destruct (N.leb_spec (to_size_t (interlayer_edge_insertion_skip cs))
                    (counter_before st (node_layer (e_source e)))) as [Hle | Hlt].
        -- intros [Hpoints Hzero].
           rewrite (IH st1 Hrest) by (rewrite Hc1, Hzero; lia).
           rewrite Hpoints, Hc1, Hzero. cbn [fmap list_fmap concat].
           by rewrite <- !app_assoc.
        -- intros [Hpoints Hincr].
           assert (size_incr (counter_before st (node_layer (e_source e))) =
                   counter_before st (node_layer (e_source e)) + 1)%N as Hnowrap.
           { unfold size_incr. apply N.mod_small.
             pose proof (to_size_t_lt (interlayer_edge_insertion_skip cs)). lia. }
           rewrite (IH st1 Hrest) by (rewrite Hc1, Hincr, Hnowrap; lia).
           by rewrite Hpoints, Hc1, Hincr, Hnowrap.
      * destruct Hstep as [Hpoints Hsame].
        rewrite (IH st1 Hrest) by (rewrite Hc1, Hsame; lia).
        by rewrite Hpoints, Hc1, Hsame.
    + destruct (Hother L HL) as [Hmarkers Hcounters].
      assert (counter_before st1 L = counter_before st L) as Hc1.
      { unfold counter_before, counter_at. by rewrite Hmarkers, Hcounters. }
      assert (points_at st1 L = points_at st L) as Hp1.
      { unfold points_at. by rewrite Hmarkers. }
      rewrite (IH st1 Hrest) by (rewrite Hc1; lia). rewrite Hp1, Hc1.
      revert Hstep. destruct (eligible graph configs edge) as [e|]; [|reflexivity].
      intros [Hes _]. subst s. by rewrite decide_False.
Qed.

(** The layers with a marker at the end: those that had one, and the
    source layers of the edges. *)
Lemma edge_loop_dom (edges : list (N * Edge)) (st st' : EdgeLoop) (L : N) :
  edge_loop graph configs visualizer_config edges st = Ok st' ->
  is_Some (layer_markers st' !! L) <->
  is_Some (layer_markers st !! L) \/
  exists edge s, edge ∈ edges /\ getNode graph (source edge.2) = Some s /\ node_layer s = L.
Proof.
  revert st. induction edges as [|edge rest IH]; intros st Hrun.
  - injection Hrun as <-. split; [auto|].
    intros [H | (edge & s & Hin & _)]; [exact H|by apply elem_of_nil in Hin].
  - apply edge_loop_cons in Hrun as (st1 & Hbody & Hrest).
    apply edge_body_spec in Hbody
      as (s & t & cs' & Hs & Ht & Hcs' & Hother & (m' & Hm' & Hstatic) & _).
    rewrite (IH st1 Hrest). split.
    + intros [H1 | (edge' & s' & Hin & Hs' & HL)].
      * destruct (decide (L = node_layer s)) as [-> | HL].
        -- right. exists edge, s. split; [left|]. done.
        -- left. by rewrite <- (proj1 (Hother L HL)).
      * right. exists edge', s'. split; [by right|]. done.
    + intros [H | (edge' & s' & Hin & Hs' & HL)].
      * left. destruct (decide (L = node_layer s)) as [-> | HL].
        -- by rewrite Hm'.
        -- by rewrite (proj1 (Hother L HL)).
      * apply elem_of_cons in Hin as [-> | Hin].
        -- left. rewrite Hs in Hs'. injection Hs' as <-. subst L. by rewrite Hm'.
        -- right. eauto.
Qed.

Lemma edge_loop_wf_preserved (edges : list (N * Edge)) (st st' : EdgeLoop) :
  edge_loop graph configs visualizer_config edges st = Ok st' ->
  edge_loop_wf configs st -> edge_loop_wf configs st'.
Proof.
  revert st. induction edges as [|edge rest IH]; intros st Hrun Hwf.
  - by injection Hrun as <-.
  - apply edge_loop_cons in Hrun as (st1 & Hbody & Hrest).
    eapply IH; [exact Hrest|]. by eapply edge_body_wf.
Qed.

End EdgeLoop.

(** ** Reading a map out in key order *)

Section KeyOrder.

Context {V : Type}.

#[local] Instance key_le_total : Total (@key_le V).
Proof. intros p q. unfold key_le. lia. Qed.

#[local] Instance key_le_trans : Transitive (@key_le V).
Proof. intros p q r. unfold key_le. lia. Qed.

Lemma elem_of_in_key_order (m : gmap N V) (k : N) (v : V) :
  (k, v) ∈ in_key_order m <-> m !! k = Some v.
Proof.
  unfold in_key_order. rewrite merge_sort_Permutation.
  apply elem_of_map_to_list.
Qed.

Lemma in_key_order_ascending (m : gmap N V) :
  StronglySorted N.lt (in_key_order m).*1.
Proof.
  assert (Hnodup : NoDup (in_key_order m).*1).
  { unfold in_key_order. rewrite merge_sort_Permutation.
    apply NoDup_fst_map_to_list. }
  assert (Hsorted : StronglySorted key_le (in_key_order m)).
  { apply StronglySorted_merge_sort; apply _. }
  induction Hsorted as [|p l Hl IH Hp]; [constructor|].
  cbn [fmap list_fmap] in *. apply NoDup_cons in Hnodup as [Hfresh Hnodup].
  constructor; [by apply IH|].
  apply Forall_fmap, Forall_forall. intros q Hq. cbn.
  assert (p.1 <> q.1).
  { intros Heq. apply Hfresh. rewrite Heq. apply list_elem_of_fmap. eauto. }
  pose proof (proj1 (Forall_forall _ _) Hp q Hq) as Hle. unfold key_le in Hle. lia.
Qed.

Lemma in_key_order_Forall2 (m : gmap N V) :
  Forall2 (fun k v => m !! k = Some v) (in_key_order m).*1 (in_key_order m).*2.
Proof.
  apply Forall2_fmap, Forall_Forall2_diag, Forall_forall.
  intros [k v] Hkv. by apply elem_of_in_key_order.
Qed.

End KeyOrder.

Section EdgeMarkers.

Context `{Ext : Externals}.

Variables (graph : DynamicSceneGraph) (configs : gmap N LayerConfig)
          (visualizer_config : VisualizerConfig).

#[local] Abbreviation no_markers :=
  {| layer_markers := ∅; num_since_last_insertion := ∅ |}.

(** The array of [makeGraphEdgeMarkers]: the markers the edge loop
    leaves, one per layer with a marker, by ascending layer. *)
Lemma makeGraphEdgeMarkers_spec (out : MarkerArray) :
  makeGraphEdgeMarkers graph configs visualizer_config = Ok out ->
  exists (keys : list N) (st : EdgeLoop),
    edge_loop graph configs visualizer_config (inter_layer_edges graph) no_markers = Ok st /\
    StronglySorted N.lt keys /\
    (forall L, L ∈ keys <-> is_Some (layer_markers st !! L)) /\
    Forall2 (fun L marker => layer_markers st !! L = Some marker) keys out.
Proof.
  unfold makeGraphEdgeMarkers.
  destruct (edge_loop _ _ _ _ _) as [st| |]; try discriminate.
  cbn [mbind outcome_bind]. intros [= <-].
  exists (in_key_order (layer_markers st)).*1, st.
  split; [reflexivity|]. split; [apply in_key_order_ascending|]. split.
  - intros L. rewrite list_elem_of_fmap. split.
    + intros ([k v] & -> & Hkv). apply elem_of_in_key_order in Hkv. by eexists.
    + intros [v Hv]. exists (L, v). split; [done|]. by apply elem_of_in_key_order.
  - apply in_key_order_Forall2.
Qed.

Lemma no_markers_wf : edge_loop_wf configs no_markers.
Proof. intros L. cbn. by rewrite !lookup_empty. Qed.

(** C6.  [makeGraphEdgeMarkers] returns one marker per source layer of
    the inter-layer edges, by ascending layer; the points of the marker
    of a layer are the end points of edges whose source node lies in
    that layer and whose source and target layers are both configured
    with [visualize] on.  An edge into a layer with [visualize] off adds
    nothing to any marker. *)
Theorem interlayer_edges_need_both_layers_shown (out : MarkerArray) :
  makeGraphEdgeMarkers graph configs visualizer_config = Ok out ->
  exists keys : list N,
    StronglySorted N.lt keys /\
    (forall L,
       L ∈ keys <->
       exists edge s,
         edge ∈ inter_layer_edges graph /\
         getNode graph (source edge.2) = Some s /\ node_layer s = L) /\
    Forall2
      (fun L marker =>
         Msg.id marker = to_int32 L /\ Msg.ns marker = "graph_edges" /\
         exists drawn : list EligibleEdge,
           Msg.points marker = concat (drawn_points visualizer_config <$> drawn) /\
           Forall
             (fun e =>
                node_layer (e_source e) = L /\
                configs !! L = Some (e_source_config e) /\
                visualize (e_source_config e) = true /\
                configs !! node_layer (e_target e) = Some (e_target_config e) /\
                visualize (e_target_config e) = true /\
                exists edge,
                  edge ∈ inter_layer_edges graph /\
                  getNode graph (source edge.2) = Some (e_source e) /\
                  getNode graph (target edge.2) = Some (e_target e))
             drawn)
      keys out.
Proof.
  intros Hout.
  apply makeGraphEdgeMarkers_spec in Hout as (keys & st & Hloop & Hsorted & Hkeys & Hout).
  exists keys. split; [exact Hsorted|]. split.
  - intros L. rewrite Hkeys, (edge_loop_dom _ _ _ _ _ _ _ Hloop).
    cbn. rewrite lookup_empty. split; [|by right].
    intros [[? [=]] | H]; exact H.
  - eapply Forall2_impl; [exact Hout|]. intros L marker Hmarker.
    pose proof (edge_loop_wf_preserved _ _ _ _ _ _ Hloop no_markers_wf L) as Hwf.
    rewrite Hmarker in Hwf. destruct Hwf as (Hid & Hns & [cs Hcs]).
    split; [exact Hid|]. split; [exact Hns|].
    exists (skip_stride (to_size_t (interlayer_edge_insertion_skip cs)) 0
              (eligible_edges graph configs L (inter_layer_edges graph))).
    split.
    + pose proof (edge_loop_layer _ _ _ _ _ _ L cs Hloop Hcs) as Hpoints.
      unfold points_at, counter_before in Hpoints. cbn in Hpoints.
      rewrite Hmarker, lookup_empty in Hpoints. cbn in Hpoints.
      apply Hpoints. lia.
    + apply skip_stride_Forall.
      eapply Forall_impl; [apply eligible_edges_Forall|].
      intros e (HL & edge & Hedge & Helig). cbn beta.
      apply eligible_Some in Helig as (Hs & Ht & Hcs' & Hct & Hvs & Hvt).
      rewrite <- HL. repeat split; eauto.
Qed.

(** The array of [makeGraphEdgeMarkers], layer by layer: one marker for
    each layer that is the source layer of an inter-layer edge, by
    ascending layer, with the layer as its identifier. *)
Lemma makeGraphEdgeMarkers_by_layer (out : MarkerArray) :
  makeGraphEdgeMarkers graph configs visualizer_config = Ok out ->
  exists (keys : list N) (st : EdgeLoop),
    edge_loop graph configs visualizer_config (inter_layer_edges graph) no_markers = Ok st /\
    StronglySorted N.lt keys /\
    (forall L,
       L ∈ keys <->
       exists edge s,
         edge ∈ inter_layer_edges graph /\
         getNode graph (source edge.2) = Some s /\ node_layer s = L) /\
    Forall2
      (fun L marker =>
         layer_markers st !! L = Some marker /\
         Msg.id marker = to_int32 L /\ Msg.ns marker = "graph_edges" /\
         is_Some (configs !! L))
      keys out.
Proof.
  intros Hout.
  apply makeGraphEdgeMarkers_spec in Hout as (keys & st & Hloop & Hsorted & Hkeys & Hout).
  exists keys, st. split; [exact Hloop|]. split; [exact Hsorted|]. split.
  - intros L. rewrite Hkeys, (edge_loop_dom _ _ _ _ _ _ _ Hloop).
    cbn. rewrite lookup_empty. split; [|by right].
    intros [[? [=]] | H]; exact H.
  - eapply Forall2_impl; [exact Hout|]. intros L marker Hmarker.
    pose proof (edge_loop_wf_preserved _ _ _ _ _ _ Hloop no_markers_wf L) as Hwf.
    rewrite Hmarker in Hwf. destruct Hwf as (Hid & Hns & Hcs). done.
Qed.


End EdgeMarkers.

(** ** The properties on the sample inputs *)

Section SampleProperties.

Import Sample.
#[local] Existing Instance Sample.externals.

Example every_nth_3 : every_nth 3 [1; 2; 3; 4; 5; 6; 7]%nat = [3; 6]%nat.
Proof. reflexivity. Qed.

Example skip_stride_2 : skip_stride 2 0 [1; 2; 3; 4; 5; 6; 7]%nat = [3; 6]%nat.
Proof. reflexivity. Qed.

(** [getRatio] on equal bounds, on a NaN, and inside the range. *)
Example getRatio_degenerate : getRatio one one one = zero.
Proof. reflexivity. Qed.

Example getRatio_nan : getRatio zero one S754_nan = zero.
Proof. reflexivity. Qed.

Example getRatio_above : getRatio zero one (of_Z 3) = one.
Proof. vm_compute. reflexivity. Qed.

Example getRatio_half : getRatio zero (of_Z 4) (of_Z 2) = div one (of_Z 2).
Proof. vm_compute. reflexivity. Qed.

Lemma getRatio_unit_interval_witness :
  isfinite (div (sub one one) (sub one one)) = false /\
  in_unit_interval (getRatio one one one) /\ getRatio one one one = zero.
Proof.
  split; [reflexivity|]. split.
  - exact (proj1 (getRatio_unit_interval one one one)).
  - apply (proj2 (getRatio_unit_interval one one one)). reflexivity.
Defined.

Lemma setGraph_rejects_absent_or_empty_witness :
  empty (one_layer_graph (Build_SceneGraphLayer 2 [] [])) = true /\
  setGraph (Some (one_layer_graph (Build_SceneGraphLayer 2 [] [])))
           (visualizer false (Some graph) both_shown) =
    (visualizer false (Some graph) both_shown,
     [ROS_WARN "Request to visualize empty scene graph, skipping."]).
Proof.
  split; [reflexivity|].
  apply (setGraph_rejects_absent_or_empty
           (Some (one_layer_graph (Build_SceneGraphLayer 2 [] [])))
           (visualizer false (Some graph) both_shown)).
  right. eexists. split; reflexivity.
Defined.

Lemma makeCentroidMarkers_sentinel_propagates_witness :
  color_places_by_distance visualizer_config && bool_decide (layer_id mixed_colors = PLACES)
    = false /\
  nodes mixed_colors =
    [node 40 4 (SemanticAttributes origin pure_blue)]
      ++ node 41 4 (PlainAttributes unit_x)
      :: [node 42 4 (SemanticAttributes unit_x pure_blue);
          node 43 4 (SemanticAttributes origin pure_red)] /\
  semantic_color (PlainAttributes unit_x) = Throw bad_cast /\
  exists marker,
    makeCentroidMarkers (layer_config true false 0) mixed_colors visualizer_config None
      "layer_centroids" = Ok marker /\
    length (Msg.colors marker) = 4%nat /\
    drop 1 (Msg.colors marker) = replicate 3 (makeColorMsg sentinel_color (Some one)).
Proof.
  split; [reflexivity|]. split; [reflexivity|]. split; [reflexivity|].
  exact (makeCentroidMarkers_sentinel_propagates
           (layer_config true false 0) mixed_colors visualizer_config eq_refl
           "layer_centroids"
           [node 40 4 (SemanticAttributes origin pure_blue)]
           [node 42 4 (SemanticAttributes unit_x pure_blue);
            node 43 4 (SemanticAttributes origin pure_red)]
           (node 41 4 (PlainAttributes unit_x)) eq_refl eq_refl).
Defined.

Lemma handleBoundingBoxes_stops_at_mismatch_witness :
  visualize (layer_config true true 0) = true /\
  use_bounding_box (layer_config true true 0) = true /\
  nodes mixed_objects =
    [node 10 2 (ObjectAttributes origin pure_red box)]
      ++ node 11 2 (SemanticAttributes unit_x pure_blue)
      :: [node 12 2 (ObjectAttributes unit_x pure_blue box)] /\
  object_bounding_box (ObjectAttributes origin pure_red box) = Ok box /\
  object_bounding_box (SemanticAttributes unit_x pure_blue) = Throw bad_cast /\
  exists boxes,
    boxes_of (visualizer true None both_shown) (layer_config true true 0) 7
      "layer_2_bounding_boxes" [node 10 2 (ObjectAttributes origin pure_red box)] boxes /\
    handleBoundingBoxes (visualizer true None both_shown) mixed_objects
      (layer_config true true 0) 7 [] =
    mkEff [ROS_ERROR "Bounding boxes enabled for non-object layer"] (Ok boxes).
Proof.
  do 5 (split; [reflexivity|]).
  apply (handleBoundingBoxes_stops_at_mismatch
           (visualizer true None both_shown) (layer_config true true 0) 7 mixed_objects
           [node 10 2 (ObjectAttributes origin pure_red box)]
           [node 12 2 (ObjectAttributes unit_x pure_blue box)]
           (node 11 2 (SemanticAttributes unit_x pure_blue)) []);
    try reflexivity.
  constructor; [|constructor]. exists box. reflexivity.
Defined.

(** C1 as worded fails: in [mixed_objects] the node 12 comes after the
    semantic node 11 and has object attributes, and the run of
    [handleBoundingBoxes] ends with the box of node 10 alone. *)
Lemma handleBoundingBoxes_drops_later_object :
  let run := handleBoundingBoxes (visualizer true None both_shown) mixed_objects
               (layer_config true true 0) 7 [] in
  In (node 12 2 (ObjectAttributes unit_x pure_blue box)) (nodes mixed_objects) /\
  object_bounding_box (ObjectAttributes unit_x pure_blue box) = Ok box /\
  trace run = [ROS_ERROR "Bounding boxes enabled for non-object layer"] /\
  exists markers, result run = Ok markers /\ Msg.id <$> markers = [10].
Proof.
  vm_compute. repeat split; [tauto|]. eexists. split; reflexivity.
Qed.

(** C4 as worded fails: with the object layer hidden every marker of
    the pass is a delete marker, and the pass publishes on three
    topics. *)
Lemma displayLayers_publishes_deletes :
  let sent :=
    publications
      (trace (displayLayers (visualizer true None objects_hidden) 7
                (one_layer_graph objects))) in
  sent.*1 = [semantic_instance_centroid_pub_; text_markers_pub_; edges_centroid_pcl_pub_] /\
  Forall (fun p : Channel * MarkerArray =>
            Forall (fun marker => Msg.action marker = Msg.DELETE) p.2) sent.
Proof.
  vm_compute. split; [reflexivity|]. repeat constructor.
Qed.

(** [displayEdges] has no such test: on a graph without edges it
    publishes an array without markers. *)
Example displayEdges_publishes_empty_array :
  publications
    (trace (displayEdges (visualizer true None both_shown) 7 (one_layer_graph objects)))
  = [(edges_node_node_pub_, [])].
Proof. vm_compute. reflexivity. Qed.

Lemma displayLayers_publishes_nonempty_witness :
  result (displayLayers_loop (visualizer true None objects_hidden) 7
            (layers (one_layer_graph objects)) no_batches) = Ok hidden_batches /\
  (semantic_instance_centroid_pub_, layer_centroids hidden_batches)
    ∈ publications (trace (displayLayers (visualizer true None objects_hidden) 7
                             (one_layer_graph objects))).
Proof.
  split; [vm_compute; reflexivity|].
  apply (proj1 (displayLayers_publishes_nonempty
                  (visualizer true None objects_hidden) 7 (one_layer_graph objects))
           hidden_batches).
  - vm_compute; reflexivity.
  - split; [left|discriminate].
Defined.

Lemma displayLayers_boxes_on_text_channel_witness :
  result (displayLayers_loop (visualizer true (Some (one_layer_graph objects)) both_shown) 7
            (layers (one_layer_graph objects)) no_batches) = Ok shown_batches /\
  both_shown !! 2%N = Some (layer_config true true 0) /\
  result (handleBoundingBoxes (visualizer true (Some (one_layer_graph objects)) both_shown) objects
            (layer_config true true 0) 7 []) = Ok object_boxes /\
  Forall (fun marker =>
            marker ∈ text_markers shown_batches /\
            (text_markers_pub_, text_markers shown_batches)
              ∈ publications (trace (displayLayers (visualizer true (Some (one_layer_graph objects)) both_shown) 7
                                       (one_layer_graph objects))))
         object_boxes.
Proof.
  assert (Hrun : result (displayLayers_loop (visualizer true (Some (one_layer_graph objects)) both_shown) 7
                           (layers (one_layer_graph objects)) no_batches)
                 = Ok shown_batches) by (vm_compute; reflexivity).
  assert (Hconfig : both_shown !! 2%N = Some (layer_config true true 0))
    by (vm_compute; reflexivity).
  assert (Hboxes : result (handleBoundingBoxes (visualizer true (Some (one_layer_graph objects)) both_shown) objects
                             (layer_config true true 0) 7 []) = Ok object_boxes)
    by (vm_compute; reflexivity).
  split; [exact Hrun|]. split; [exact Hconfig|]. split; [exact Hboxes|].
  apply Forall_forall. intros marker Hmarker.
  apply (proj2 (proj2 (displayLayers_boxes_on_text_channel
                         (visualizer true (Some (one_layer_graph objects)) both_shown) 7 (one_layer_graph objects))
                  shown_batches Hrun)
           2%N objects (layer_config true true 0) object_boxes marker);
    [left|exact Hconfig|exact Hboxes|exact Hmarker].
Defined.

Lemma interlayer_edges_need_both_layers_shown_witness :
  makeGraphEdgeMarkers graph both_shown visualizer_config = Ok graph_edge_markers /\
  exists keys : list N,
    StronglySorted N.lt keys /\
    length keys = length graph_edge_markers.
Proof.
  assert (Hrun : makeGraphEdgeMarkers graph both_shown visualizer_config
                 = Ok graph_edge_markers) by (vm_compute; reflexivity).
  split; [exact Hrun|].
  destruct (interlayer_edges_need_both_layers_shown graph both_shown visualizer_config
              graph_edge_markers Hrun) as (keys & Hsorted & _ & Hmarkers).
  exists keys. split; [exact Hsorted|]. exact (Forall2_length _ _ _ Hmarkers).
Defined.



(** On the sample graph, with skip count 1 for the places layer, the
    marker of that layer holds the second and the fourth of its five
    edges. *)
Example graph_edge_markers_points :
  Msg.points <$> graph_edge_markers =
  [ [ origin; unit_x; unit_x; unit_x ] ].
Proof. vm_compute. reflexivity. Qed.

(** C2 fails on the code.  A layer without a registered configuration
    is skipped with a warning by [displayLayers], but the first
    inter-layer edge out of that layer makes [makeGraphEdgeMarkers] call
    [configs.at] on it: [std::out_of_range] leaves [displayLoop].  And
    with the places coloured by distance, a node of the places layer
    without place attributes makes [makeCentroidMarkers] throw
    [std::bad_cast], which leaves [displayLoop] as well. *)
Theorem displayLoop_lets_exceptions_escape :
  (let run := (displayLoop 1 2 (visualizer true (Some graph) objects_only)).2 in
   result run = Throw out_of_range /\
   ROS_WARN "failed to find config for layer 3" ∈ trace run) /\
  (let this :=
     {| need_redraw_ := true; scene_graph_ := Some (one_layer_graph mixed_places);
        world_frame_ := "world"; visualizer_config_ := by_distance;
        layer_configs_ := places_only |} in
   result (displayLoop 1 2 this).2 = Throw bad_cast).
Proof.
  split.
  - vm_compute. split; [reflexivity|]. left.
  - vm_compute. reflexivity.
Qed.

End SampleProperties.

(** * Further properties of the builders *)

(** ** The colour ramp *)

Lemma getRatio_in_unit_interval (min max value : double) :
  in_unit_interval (getRatio min max value).
Proof.
  unfold getRatio. generalize (div (sub value min) (sub max min)). intros r.
  destruct (isfinite r) eqn:Hr; simpl negb; cbv iota.
  - apply (clamp_in_unit_interval r Hr).
  - apply (clamp_in_unit_interval zero eq_refl).
Qed.

(** A difference [x - x] is a zero or a NaN. *)
Lemma sub_diag (x : double) : sub x x = S754_zero false \/ sub x x = S754_nan.
Proof.
  destruct x as [[]|[]| |s m e]; cbn; auto.
  left. unfold sub, SFsub. rewrite Z.sub_diag. reflexivity.
Qed.

Lemma div_by_zero_not_finite (x : double) (s : bool) :
  isfinite (div x (S754_zero s)) = false.
Proof. by destruct x. Qed.

Lemma div_by_nan_not_finite (x : double) : isfinite (div x S754_nan) = false.
Proof. by destruct x. Qed.

Lemma getRatio_not_finite (min max value : double) :
  isfinite (div (sub value min) (sub max min)) = false ->
  getRatio min max value = zero.
Proof. unfold getRatio. by intros ->. Qed.

(** X1.  [getRatio] is exactly [0.0] on an empty range ([min] and [max]
    the same value, whatever it is) and as soon as one of its three
    arguments is a NaN. *)
Theorem getRatio_zero_on_empty_range_or_nan (min max value : double) :
  min = max \/ min = S754_nan \/ max = S754_nan \/ value = S754_nan ->
  getRatio min max value = zero.
Proof.
  intros H. apply getRatio_not_finite.
  destruct H as [-> | [-> | [-> | ->]]].
  - destruct (sub_diag max) as [-> | ->];
      [apply div_by_zero_not_finite|apply div_by_nan_not_finite].
  - replace (sub max S754_nan) with S754_nan by (by destruct max).
    apply div_by_nan_not_finite.
  - apply div_by_nan_not_finite.
  - replace (sub S754_nan min) with S754_nan by (by destruct min).
    reflexivity.
Qed.

Section DistanceColor.

Context `{Ext : Externals}.

(** X2.  [getDistanceColor] gives the zero colour on an empty or
    inverted distance range, without consulting the colour map;
    otherwise it is the colour map at a ratio that lies in [[0,1]],
    whatever the distance. *)
Theorem getDistanceColor_ratio_in_range (config : VisualizerConfig) (distance : double) :
  (le (places_max_distance config) (places_min_distance config) = true ->
   getDistanceColor config distance = NodeColor_Zero) /\
  (le (places_max_distance config) (places_min_distance config) = false ->
   exists ratio,
     in_unit_interval ratio /\
     getDistanceColor config distance =
     interpolateColorMap
       {| min_hue := places_min_hue config;
          max_hue := places_max_hue config;
          min_saturation := places_min_saturation config;
          max_saturation := places_max_saturation config;
          min_luminance := places_min_luminance config;
          max_luminance := places_max_luminance config |}
       ratio).
Proof.
  unfold getDistanceColor. split; intros ->; [reflexivity|].
  eexists. split; [apply getRatio_in_unit_interval|reflexivity].
Qed.

End DistanceColor.

(** ** The centroid marker *)

Section CentroidMarker.

Context `{Ext : Externals}.

Variables (config : LayerConfig) (layer : SceneGraphLayer)
          (visualizer_config : VisualizerConfig).

#[local] Abbreviation centroid_of :=
  (fun p : N * Node =>
     raise_z (position (attributes p.2)) (getZOffset config visualizer_config)).

#[local] Abbreviation color_msg :=
  (fun c : NodeColor => makeColorMsg c (Some (marker_alpha config))).

(** Whatever the colouring, a completed node loop has added the
    centroid of every node, one colour per node, and nothing else. *)
Lemma centroid_loop_Ok (layer_color : option NodeColor) (l : list (N * Node))
    (valid : bool) (marker marker' : Marker) :
  centroid_loop config layer visualizer_config layer_color l valid marker = Ok marker' ->
  exists cs,
    length cs = length l /\
    marker' = Msg.push_back (centroid_of <$> l) cs marker.
Proof.
  revert valid marker. induction l as [|p l IH]; intros valid marker.
  - intros [= <-]. exists []. split; [done|].
    unfold Msg.push_back. destruct marker; simpl. by rewrite !app_nil_r.
  - cbn [centroid_loop].
    destruct (centroid_color _ _ _ _ _) as [[c valid']| |]; try discriminate.
    cbn [mbind outcome_bind]. intros Hrun.
    apply IH in Hrun as (cs & Hlen & ->).
    exists (color_msg c :: cs). split; [simpl; lia|].
    by rewrite push_back_push_back.
Qed.

(** X3.  A marker returned by [makeCentroidMarkers] holds one point per
    node of the layer, the node positions raised by the layer offset in
    node order, and as many colours as points; it is an [ADD] marker
    named by the layer, a sphere list or a cube list by configuration. *)
Theorem makeCentroidMarkers_one_point_per_node (layer_color : option NodeColor)
    (marker_namespace : string) (marker : Marker) :
  makeCentroidMarkers config layer visualizer_config layer_color marker_namespace
    = Ok marker ->
  Msg.points marker = centroid_of <$> nodes layer /\
  length (Msg.colors marker) = length (Msg.points marker) /\
  Msg.action marker = Msg.ADD /\
  Msg.id marker = to_int32 (layer_id layer) /\
  Msg.ns marker = marker_namespace /\
  Msg.type marker =
    (if use_sphere_marker config then Msg.SPHERE_LIST else Msg.CUBE_LIST).
Proof.
  unfold makeCentroidMarkers. intros Hrun.
  apply centroid_loop_Ok in Hrun as (cs & Hlen & ->). cbn.
  by rewrite length_fmap.
Qed.

Lemma centroid_loop_fixed_color (c : NodeColor) (l : list (N * Node)) (valid : bool)
    (marker : Marker) :
  centroid_loop config layer visualizer_config (Some c) l valid marker =
  Ok (Msg.push_back (centroid_of <$> l) (replicate (length l) (color_msg c)) marker).
Proof.
  revert marker. induction l as [|p l IH]; intros marker.
  - unfold Msg.push_back. destruct marker; simpl. by rewrite !app_nil_r.
  - cbn [centroid_loop centroid_color mbind outcome_bind].
    rewrite IH, push_back_push_back. reflexivity.
Qed.

(** X4.  With a fixed layer colour [makeCentroidMarkers] reads the
    attributes of no node beyond its position: it cannot throw, and
    every node gets the layer colour, also the nodes without semantic
    attributes. *)
Theorem makeCentroidMarkers_fixed_color (c : NodeColor) (marker_namespace : string) :
  exists marker,
    makeCentroidMarkers config layer visualizer_config (Some c) marker_namespace
      = Ok marker /\
    Msg.colors marker = replicate (length (nodes layer)) (color_msg c).
Proof.
  unfold makeCentroidMarkers. rewrite centroid_loop_fixed_color.
  eexists. split; reflexivity.
Qed.

(** The colouring by distance: the places layer, with the flag set. *)
Hypothesis by_distance :
  color_places_by_distance visualizer_config && bool_decide (layer_id layer = PLACES)
  = true.

Lemma centroid_loop_by_distance_step (p : N * Node) (l : list (N * Node))
    (marker : Marker) :
  centroid_loop config layer visualizer_config None (p :: l) true marker =
  d ← place_distance (attributes p.2);
  centroid_loop config layer visualizer_config None l true
    (Msg.push_back [centroid_of p]
       [color_msg (getDistanceColor visualizer_config d)] marker).
Proof.
  cbn [centroid_loop centroid_color negb]. rewrite by_distance.
  by destruct (place_distance (attributes p.2)).
Qed.

Lemma centroid_loop_all_places (l : list (N * Node)) (marker : Marker) :
  Forall (fun p : N * Node => exists d, place_distance (attributes p.2) = Ok d) l ->
  exists cs,
    Forall2
      (fun (p : N * Node) c =>
         exists d, place_distance (attributes p.2) = Ok d /\
                   c = color_msg (getDistanceColor visualizer_config d)) l cs /\
    centroid_loop config layer visualizer_config None l true marker =
    Ok (Msg.push_back (centroid_of <$> l) cs marker).
Proof.
  intros Hl. revert marker. induction Hl as [|p l [d Hd] Hl IH]; intros marker.
  - exists []. split; [constructor|].
    unfold Msg.push_back. destruct marker; simpl. by rewrite !app_nil_r.
  - rewrite centroid_loop_by_distance_step, Hd. cbn [mbind outcome_bind].
    destruct (IH (Msg.push_back [centroid_of p]
                    [color_msg (getDistanceColor visualizer_config d)] marker))
      as (cs & Hcs & ->).
    exists (color_msg (getDistanceColor visualizer_config d) :: cs).
    split; [constructor; eauto|]. by rewrite push_back_push_back.
Qed.

Lemma centroid_loop_not_a_place (l : list (N * Node)) (marker : Marker) :
  Exists (fun p : N * Node => place_distance (attributes p.2) = Throw bad_cast) l ->
  centroid_loop config layer visualizer_config None l true marker = Throw bad_cast.
Proof.
  intros Hl. revert marker. induction Hl as [p l Hp | p l Hl IH]; intros marker.
  - by rewrite centroid_loop_by_distance_step, Hp.
  - rewrite centroid_loop_by_distance_step.
    destruct (place_distance (attributes p.2)) as [d|[]|] eqn:Hp;
      cbn [mbind outcome_bind]; try reflexivity.
    + apply IH.
    + destruct (attributes p.2); discriminate.
    + destruct (attributes p.2); discriminate.
Qed.

(** X5.  When the places are coloured by distance and no layer colour is
    given, [makeCentroidMarkers] on the places layer colours every node
    by its distance if all nodes carry place attributes; if one node
    does not, [std::bad_cast] leaves the builder and no marker is
    returned: there is no sentinel colour in this mode. *)
Theorem makeCentroidMarkers_by_distance (marker_namespace : string) :
  (Forall (fun p : N * Node => exists d, place_distance (attributes p.2) = Ok d)
          (nodes layer) ->
   exists marker,
     makeCentroidMarkers config layer visualizer_config None marker_namespace
       = Ok marker /\
     Forall2
       (fun (p : N * Node) c =>
          exists d, place_distance (attributes p.2) = Ok d /\
                    c = color_msg (getDistanceColor visualizer_config d))
       (nodes layer) (Msg.colors marker)) /\
  (Exists (fun p : N * Node => place_distance (attributes p.2) = Throw bad_cast)
          (nodes layer) ->
   makeCentroidMarkers config layer visualizer_config None marker_namespace
     = Throw bad_cast).
Proof.
  unfold makeCentroidMarkers. split; intros Hnodes.
  - edestruct centroid_loop_all_places as (cs & Hcs & ->); [exact Hnodes|].
    eexists. split; [reflexivity|]. exact Hcs.
  - by apply centroid_loop_not_a_place.
Qed.

End CentroidMarker.

(** ** Strided loops *)

Lemma strided_length {A} (s w : nat) (l : list A) :
  (w <= s)%nat ->
  length (strided s w l) = ((length l + s - w) / S s)%nat.
Proof.
  revert w. induction l as [|x l IH]; intros w Hw; cbn [strided length].
  - symmetry. apply Nat.div_small. lia.
  - destruct w as [|w].
    + cbn [length]. rewrite (IH s) by lia.
      replace (S (length l) + s - 0)%nat with ((length l + s - s) + 1 * S s)%nat by lia.
      rewrite Nat.div_add by lia. lia.
    + rewrite (IH w) by lia. reflexivity.
Qed.

Lemma strided_lookup {A} (s w : nat) (l : list A) (i : nat) :
  strided s w l !! i = l !! (w + i * S s)%nat.
Proof.
  revert w i. induction l as [|x l IH]; intros w i; cbn [strided].
  - by rewrite !lookup_nil.
  - destruct w as [|w].
    + destruct i as [|i]; [reflexivity|].
      cbn [lookup list_lookup]. rewrite IH.
      replace (0 + S i * S s)%nat with (S (s + i * S s)) by lia. reflexivity.
    + rewrite IH. reflexivity.
Qed.

Lemma lands_on_end (s n : nat) :
  (S n mod S s = 0 <-> s <= n /\ (n - s) mod S s = 0)%nat.
Proof.
  destruct (Nat.le_gt_cases s n) as [Hle | Hgt].
  - replace (S n) with ((n - s) + 1 * S s)%nat by lia.
    rewrite Nat.Div0.mod_add. intuition.
  - rewrite Nat.mod_small by lia. lia.
Qed.

Section LayerEdges.

Context `{Ext : Externals}.

Variables (config : LayerConfig) (layer : SceneGraphLayer)
          (visualizer_config : VisualizerConfig).

#[local] Abbreviation skip := (N.to_nat (intralayer_edge_insertion_skip config)).

#[local] Abbreviation ends_resolve := (edge_ends_resolve config layer visualizer_config).

(** The [while] loop over edges whose nodes all resolve: it ends on
    [end()] exactly when the edges left after the owed increments are a
    multiple of the stride, and then has drawn the edges it stopped
    at. *)
Lemma layer_edge_loop_spec (wait : nat) (edges : list (N * Edge)) :
  Forall (fun edge => exists ends, ends_resolve edge ends) edges ->
  (wait <= length edges /\ (length edges - wait) mod S skip = 0 ->
   exists pss,
     Forall2 ends_resolve (strided skip wait edges) pss /\
     layer_edge_loop config layer visualizer_config wait edges = Ok (concat pss))%nat /\
  (~ (wait <= length edges /\ (length edges - wait) mod S skip = 0)%nat ->
   layer_edge_loop config layer visualizer_config wait edges = Undefined).
Proof.
  intros Hedges. revert wait.
  induction Hedges as [|edge rest Hedge Hrest IH]; intros wait.
  - destruct wait as [|wait]; cbn [layer_edge_loop strided length].
    + split; [|intros []; split; [lia|apply Nat.Div0.mod_0_l]].
      intros _. exists []. split; [constructor|reflexivity].
    + split; [intros [? _]; lia|reflexivity].
  - destruct wait as [|wait]; cbn [layer_edge_loop strided length].
    + destruct Hedge as (ends & p & q & Hp & Hq & ->). rewrite Hp, Hq.
      cbn [mbind outcome_bind]. destruct (IH skip) as [IHok IHub]. split.
      * intros [_ Hmod]. rewrite Nat.sub_0_r in Hmod.
        apply lands_on_end in Hmod.
        destruct (IHok Hmod) as (pss & Hpss & ->). cbn [mbind outcome_bind].
        exists ([ raise_z p (getZOffset config visualizer_config);
                  raise_z q (getZOffset config visualizer_config) ] :: pss).
        split; [|reflexivity].
        constructor; [|exact Hpss]. exists p, q. done.
      * intros Hnot. rewrite IHub; [reflexivity|].
        intros Hmod. apply Hnot. split; [lia|].
        rewrite Nat.sub_0_r. by apply lands_on_end.
    + destruct (IH wait) as [IHok IHub]. split.
      * intros [Hle Hmod]. apply IHok. split; [lia|exact Hmod].
      * intros Hnot. apply IHub. intros [Hle Hmod]. apply Hnot. split; [lia|exact Hmod].
Qed.

(** X6.  [makeLayerEdgeMarkers] for a hidden layer is a [DELETE] marker
    without points, whatever the edges.  For a shown layer whose edge
    end points all resolve, it draws the first edge and every
    [(skip+1)]-th after it when the number of edges is a multiple of
    [skip+1] (the edges at indices 0, [skip+1], [2(skip+1)], ...); when
    it is not, the last [std::advance] steps over
    [end()], which the language leaves undefined.  With skip 0 every
    edge is drawn. *)
Theorem makeLayerEdgeMarkers_stride (color : NodeColor) :
  (visualize config = false ->
   exists marker,
     makeLayerEdgeMarkers config layer visualizer_config color = Ok marker /\
     Msg.action marker = Msg.DELETE /\ Msg.points marker = []) /\
  (forall i, strided skip 0 (edges layer) !! i = edges layer !! (i * S skip)%nat) /\
  (visualize config = true ->
   Forall (fun edge => exists ends, ends_resolve edge ends) (edges layer) ->
   ((length (edges layer) mod S skip = 0)%nat ->
    exists marker pss,
      makeLayerEdgeMarkers config layer visualizer_config color = Ok marker /\
      Msg.action marker = Msg.ADD /\
      Forall2 ends_resolve (strided skip 0 (edges layer)) pss /\
      Msg.points marker = concat pss) /\
   ((length (edges layer) mod S skip <> 0)%nat ->
    makeLayerEdgeMarkers config layer visualizer_config color = Undefined)).
Proof.
  unfold makeLayerEdgeMarkers.
  split; [|split; [intros i; apply (strided_lookup skip 0)|]];
    intros Hvis; rewrite Hvis; cbn [negb].
  - eexists. split; [reflexivity|done].
  - intros Hedges.
    destruct (layer_edge_loop_spec 0 (edges layer) Hedges) as [Hok Hub]. split.
    + intros Hmod. destruct Hok as (pss & Hpss & ->).
      { split; [lia|by rewrite Nat.sub_0_r]. }
      eexists _, pss. split; [reflexivity|]. done.
    + intros Hmod. rewrite Hub; [reflexivity|].
      intros [_ H]. by rewrite Nat.sub_0_r in H.
Qed.

End LayerEdges.

(** ** The mesh edge marker *)

Lemma length_concat_pairs {A B} (f : A -> list B) (l : list A) :
  (forall a, length (f a) = 2%nat) ->
  length (concat (f <$> l)) = (2 * length l)%nat.
Proof.
  intros Hf. induction l as [|a l IH]; [reflexivity|].
  cbn [fmap list_fmap concat length]. rewrite length_app, Hf.
  change (list_fmap A (list B) f l) with (f <$> l). rewrite IH. lia.
Qed.

Section MeshEdges.

Context `{Ext : Externals}.

Variables (config : LayerConfig) (visualizer_config : VisualizerConfig)
          (graph : DynamicSceneGraph).

Lemma mesh_edges_of_node_size (node : Node) (ps : list Point)
    (cs : list Msg.ColorRGBA) :
  mesh_edges_of_node config visualizer_config graph node = Ok (ps, cs) ->
  length ps = fan_size config graph node /\ length cs = length ps.
Proof.
  unfold mesh_edges_of_node, fan_size.
  destruct (getMeshCloudForNode graph (node_id node)) as [[|v vs]|].
  - by intros [= <- <-].
  - destruct (semantic_color (attributes node)) as [color| |]; try discriminate.
    cbn [mbind outcome_bind]. intros [= <- <-].
    set (s := N.to_nat (interlayer_edge_insertion_skip config)).
    cbn [length]. rewrite !length_concat_pairs by done.
    rewrite !length_fmap, strided_length by lia.
    replace (S (length vs) + s)%nat with (length vs + 1 * S s)%nat by lia.
    rewrite Nat.div_add by lia. rewrite Nat.add_sub. lia.
  - by intros [= <- <-].
Qed.

Lemma mesh_edges_loop_size (l : list (N * Node)) (marker marker' : Marker) :
  mesh_edges_loop config visualizer_config graph l marker = Ok marker' ->
  length (Msg.points marker') =
    (length (Msg.points marker)
     + sum_list ((fun p : N * Node => fan_size config graph p.2) <$> l))%nat /\
  length (Msg.colors marker') =
    (length (Msg.colors marker)
     + sum_list ((fun p : N * Node => fan_size config graph p.2) <$> l))%nat /\
  Msg.action marker' = Msg.action marker /\ Msg.type marker' = Msg.type marker.
Proof.
  revert marker. induction l as [|p l IH]; intros marker.
  - intros [= <-]. cbn. by rewrite !Nat.add_0_r.
  - cbn [mesh_edges_loop].
    destruct (mesh_edges_of_node _ _ _ _) as [[ps cs]| |] eqn:Hnode; try discriminate.
    cbn [mbind outcome_bind]. intros Hrun.
    apply mesh_edges_of_node_size in Hnode as [Hps Hcs].
    apply IH in Hrun as (-> & -> & -> & ->). cbn.
    rewrite !length_app. repeat split; lia.
Qed.

(** X7.  A marker returned by [makeMeshEdgesMarker] is an [ADD] line
    list with as many colours as points; a node without surface samples
    adds nothing to it, and a node with [n] samples adds the two points
    of its first edge and two points for each of the
    [ceil(n / (skip+1))] samples the fan visits. *)
Theorem makeMeshEdgesMarker_size (layer : SceneGraphLayer) (marker_namespace : string)
    (marker : Marker) :
  makeMeshEdgesMarker config visualizer_config graph layer marker_namespace = Ok marker ->
  length (Msg.points marker) =
    sum_list ((fun p : N * Node => fan_size config graph p.2) <$> nodes layer) /\
  length (Msg.colors marker) = length (Msg.points marker) /\
  Msg.action marker = Msg.ADD /\ Msg.type marker = Msg.LINE_LIST.
Proof.
  unfold makeMeshEdgesMarker. intros Hrun.
  apply mesh_edges_loop_size in Hrun as (-> & -> & -> & ->). cbn. done.
Qed.

Lemma mesh_edges_of_node_without_samples (node : Node) :
  has_samples graph node = false ->
  mesh_edges_of_node config visualizer_config graph node = Ok ([], []).
Proof.
  unfold has_samples, mesh_edges_of_node.
  by destruct (getMeshCloudForNode graph (node_id node)) as [[|v vs]|].
Qed.

Lemma mesh_edges_of_node_with_samples (node : Node) :
  has_samples graph node = true ->
  mesh_edges_of_node config visualizer_config graph node =
  match semantic_color (attributes node) with
  | Ok _ => mesh_edges_of_node config visualizer_config graph node
  | _ => Throw bad_cast
  end.
Proof.
  unfold has_samples, mesh_edges_of_node.
  destruct (getMeshCloudForNode graph (node_id node)) as [[|v vs]|]; try discriminate.
  intros _. by destruct (attributes node).
Qed.

Lemma mesh_edges_of_node_Ok (node : Node) :
  (has_samples graph node = true -> exists c, semantic_color (attributes node) = Ok c) ->
  exists ps cs, mesh_edges_of_node config visualizer_config graph node = Ok (ps, cs).
Proof.
  intros Hnode. destruct (has_samples graph node) eqn:Hs.
  - destruct (Hnode eq_refl) as [c Hc].
    unfold has_samples in Hs. unfold mesh_edges_of_node.
    destruct (getMeshCloudForNode graph (node_id node)) as [[|v vs]|]; try discriminate.
    rewrite Hc. cbn [mbind outcome_bind]. eauto.
  - rewrite mesh_edges_of_node_without_samples by done. eauto.
Qed.

(** X8.  [makeMeshEdgesMarker] reads the semantic attributes of the
    nodes with surface samples only: it returns its marker when each of
    those has semantic attributes, whatever the attributes of the nodes
    without samples; a node with samples and without semantic
    attributes makes it throw [std::bad_cast]. *)
Theorem makeMeshEdgesMarker_reads_sampled_nodes (layer : SceneGraphLayer)
    (marker_namespace : string) :
  (Forall (fun p : N * Node =>
             has_samples graph p.2 = true ->
             exists c, semantic_color (attributes p.2) = Ok c) (nodes layer) ->
   exists marker,
     makeMeshEdgesMarker config visualizer_config graph layer marker_namespace
       = Ok marker) /\
  (Exists (fun p : N * Node =>
             has_samples graph p.2 = true /\
             semantic_color (attributes p.2) = Throw bad_cast) (nodes layer) ->
   makeMeshEdgesMarker config visualizer_config graph layer marker_namespace
     = Throw bad_cast).
Proof.
  unfold makeMeshEdgesMarker. generalize (nodes layer) as l.
  match goal with |- context [mesh_edges_loop _ _ _ _ ?m] => generalize m as marker end.
  intros marker l. split; intros Hl; revert marker.
  - induction Hl as [|p l Hp Hl IH]; intros marker; [by eexists|].
    cbn [mesh_edges_loop].
    destruct (mesh_edges_of_node_Ok p.2 Hp) as (ps & cs & ->).
    cbn [mbind outcome_bind]. apply IH.
  - induction Hl as [p l [Hs Hp] | p l Hl IH]; intros marker; cbn [mesh_edges_loop].
    + rewrite mesh_edges_of_node_with_samples, Hp by done. reflexivity.
    + destruct (has_samples graph p.2) eqn:Hs.
      * rewrite mesh_edges_of_node_with_samples by done.
        destruct (semantic_color (attributes p.2)) as [c|[]|] eqn:Hc; try reflexivity.
        destruct (mesh_edges_of_node_Ok p.2) as (ps & cs & ->); [eauto|].
        cbn [mbind outcome_bind]. apply IH.
      * rewrite mesh_edges_of_node_without_samples by done.
        cbn [mbind outcome_bind]. apply IH.
Qed.

End MeshEdges.

(** ** More on the inter-layer edge markers *)

Section InterLayerMarkers.

Context `{Ext : Externals}.

Variables (graph : DynamicSceneGraph) (configs : gmap N LayerConfig)
          (visualizer_config : VisualizerConfig).

#[local] Abbreviation no_markers :=
  {| layer_markers := ∅; num_since_last_insertion := ∅ |}.

Lemma open_layer_marker (s t : Node) (st st1 : EdgeLoop) :
  open_layer configs s t st = Ok st1 ->
  exists m1,
    layer_markers st1 !! node_layer s = Some m1 /\
    match layer_markers st !! node_layer s with
    | Some m => m1 = m
    | None =>
        exists cs ct,
          configs !! node_layer s = Some cs /\ configs !! node_layer t = Some ct /\
          m1 = opened_marker cs ct (node_layer s)
    end.
Proof.
  unfold open_layer. case_bool_decide as Hnew.
  - rewrite Hnew.
    destruct (configs !! node_layer s) as [cs|] eqn:Hcs;
      [|by unfold map_at; rewrite Hcs].
    rewrite (proj2 (map_at_Ok _ _ _) Hcs). cbn [mbind outcome_bind].
    destruct (configs !! node_layer t) as [ct|] eqn:Hct;
      [|by unfold map_at; rewrite Hct].
    rewrite (proj2 (map_at_Ok _ _ _) Hct). cbn [mbind outcome_bind].
    intros [= <-]. cbn [layer_markers]. rewrite lookup_insert_eq.
    eexists. split; [reflexivity|]. by exists cs, ct.
  - intros [= <-]. destruct (layer_markers st !! node_layer s) as [m|]; [|done].
    by exists m.
Qed.

(** One iteration, seen from the markers: only the marker of the source
    layer of the edge can change; it is the marker the layer had, or the
    one opened for it, as it is or with the two points and two colours
    of the edge added, which takes a shown source layer. *)
Lemma edge_body_marker (st st' : EdgeLoop) (edge : N * Edge) :
  edge_body graph configs visualizer_config st edge = Ok st' ->
  exists s t cs m1 m',
    getNode graph (source edge.2) = Some s /\
    getNode graph (target edge.2) = Some t /\
    configs !! node_layer s = Some cs /\
    (forall L, L <> node_layer s -> layer_markers st' !! L = layer_markers st !! L) /\
    layer_markers st' !! node_layer s = Some m' /\
    match layer_markers st !! node_layer s with
    | Some m => m1 = m
    | None =>
        exists ct, configs !! node_layer t = Some ct /\
                   m1 = opened_marker cs ct (node_layer s)
    end /\
    (m' = m1 \/
     visualize cs = true /\
     exists ps c, length ps = 2%nat /\ m' = Msg.push_back ps [c; c] m1).
Proof.
  unfold edge_body.
  destruct (getNode graph (source edge.2)) as [s|]; [|discriminate].
  destruct (getNode graph (target edge.2)) as [t|]; [|discriminate].
  cbn [deref mbind outcome_bind].
  destruct (open_layer configs s t st) as [st1| |] eqn:Hopen; try discriminate.
  pose proof (open_layer_spec configs s t st st1 Hopen) as (Hother & _).
  apply open_layer_marker in Hopen as (m1 & Hm1 & Hfresh).
  cbn [mbind outcome_bind].
  destruct (configs !! node_layer s) as [cs|] eqn:Hcs;
    [|by unfold map_at; rewrite Hcs].
  rewrite (proj2 (map_at_Ok _ _ _) Hcs). cbn [mbind outcome_bind].
  intros Hrun.
  assert (Hm1' : match layer_markers st !! node_layer s with
                 | Some m => m1 = m
                 | None => exists ct, configs !! node_layer t = Some ct /\
                                      m1 = opened_marker cs ct (node_layer s)
                 end).
  { destruct (layer_markers st !! node_layer s); [exact Hfresh|].
    destruct Hfresh as (cs' & ct & [= <-] & Hct & ->). eauto. }
  assert (Hkeep : exists m',
             (forall L, L <> node_layer s ->
                layer_markers st1 !! L = layer_markers st !! L) /\
             layer_markers st1 !! node_layer s = Some m' /\ m' = m1).
  { exists m1. split; [intros L HL; apply (Hother L HL)|done]. }
  destruct (visualize cs) eqn:Hvs; cbn [negb] in Hrun.
  2: { injection Hrun as <-. destruct Hkeep as (m' & ? & ? & ->).
       exists s, t, cs, m1, m1. repeat split; auto. }
  destruct (map_at configs (node_layer t)) as [ct| |]; try discriminate.
  cbn [mbind outcome_bind] in Hrun.
  destruct (negb (visualize ct)).
  { injection Hrun as <-. destruct Hkeep as (m' & ? & ? & ->).
    exists s, t, cs, m1, m1. repeat split; auto. }
  destruct (_ <=? _)%N.
  - rewrite (proj2 (map_at_Ok _ _ _) Hm1) in Hrun. cbn [mbind outcome_bind] in Hrun.
    destruct (edge_color cs s t) as [color| |]; try discriminate.
    injection Hrun as <-. cbn [layer_markers].
    eexists s, t, cs, m1, _. do 2 (split; [reflexivity|]). split; [exact Hcs|].
    split; [|split; [|split]].
    + intros L HL. rewrite lookup_insert_ne by done. apply (Hother L HL).
    + apply lookup_insert_eq.
    + exact Hm1'.
    + right. split; [exact Hvs|]. eexists _, _. split; [|reflexivity]. reflexivity.
  - injection Hrun as <-. cbn [layer_markers]. destruct Hkeep as (m' & ? & ? & ->).
    exists s, t, cs, m1, m1. repeat split; auto.
Qed.

Lemma opened_marker_action (cs ct : LayerConfig) (L : N) :
  Msg.action (opened_marker cs ct L) =
  if visualize cs && visualize ct then Msg.ADD else Msg.DELETE.
Proof.
  unfold opened_marker, makeNewEdgeList.
  by destruct (visualize cs), (visualize ct).
Qed.

Lemma opened_marker_ok (cs ct : LayerConfig) (L : N) :
  configs !! L = Some cs -> edge_marker_ok configs L (opened_marker cs ct L).
Proof.
  intros Hcs. unfold edge_marker_ok.
  split; [unfold opened_marker; by destruct (negb _)|].
  split; [unfold opened_marker; by destruct (negb _)|].
  split; [exists 0%nat; unfold opened_marker; by destruct (negb _)|].
  intros config Hconfig Hhidden. rewrite Hcs in Hconfig. injection Hconfig as <-.
  rewrite opened_marker_action, Hhidden. split; [reflexivity|].
  unfold opened_marker; by destruct (negb _).
Qed.

Lemma edge_body_marker_ok (st st' : EdgeLoop) (edge : N * Edge) :
  edge_body graph configs visualizer_config st edge = Ok st' ->
  (forall L m, layer_markers st !! L = Some m -> edge_marker_ok configs L m) ->
  forall L m, layer_markers st' !! L = Some m -> edge_marker_ok configs L m.
Proof.
  intros Hbody Hok L m Hm.
  apply edge_body_marker in Hbody
    as (s & t & cs & m1 & m' & _ & _ & Hcs & Hother & Hm' & Hm1 & Hdraw).
  destruct (decide (L = node_layer s)) as [-> | HL];
    [|rewrite (Hother L HL) in Hm; by apply Hok].
  rewrite Hm' in Hm. injection Hm as <-.
  assert (Hok1 : edge_marker_ok configs (node_layer s) m1).
  { destruct (layer_markers st !! node_layer s) as [m|] eqn:Hm.
    - subst m1. by apply Hok.
    - destruct Hm1 as (ct & _ & ->). by apply opened_marker_ok. }
  destruct Hdraw as [-> | (Hvs & ps & c & Hps & ->)]; [exact Hok1|].
  destruct Hok1 as (Htype & Hlen & [k Hk] & _).
  unfold edge_marker_ok. cbn. rewrite !length_app, Hps, Hlen. cbn.
  split; [exact Htype|]. split; [reflexivity|]. split; [exists (S k); lia|].
  intros config Hconfig Hhidden. rewrite Hcs in Hconfig. injection Hconfig as <-.
  congruence.
Qed.

Lemma edge_loop_marker_ok (edges : list (N * Edge)) (st st' : EdgeLoop) :
  edge_loop graph configs visualizer_config edges st = Ok st' ->
  (forall L m, layer_markers st !! L = Some m -> edge_marker_ok configs L m) ->
  forall L m, layer_markers st' !! L = Some m -> edge_marker_ok configs L m.
Proof.
  revert st. induction edges as [|edge rest IH]; intros st Hrun Hok.
  - by injection Hrun as <-.
  - apply edge_loop_cons in Hrun as (st1 & Hbody & Hrest).
    apply (IH st1 Hrest). by apply (edge_body_marker_ok st st1 edge).
Qed.

(** X9.  [makeGraphEdgeMarkers] returns one marker for each layer that
    is the source layer of an inter-layer edge, by ascending layer and
    with the layer as its identifier.  Each is a line list with an even
    number of points and as many colours as points (two of each per edge
    added); the layer has a configuration, and when that configuration
    has [visualize] off the marker is a [DELETE] marker without
    points. *)
Theorem makeGraphEdgeMarkers_markers_well_formed (out : MarkerArray) :
  makeGraphEdgeMarkers graph configs visualizer_config = Ok out ->
  exists keys : list N,
    StronglySorted N.lt keys /\
    (forall L,
       L ∈ keys <->
       exists edge s,
         edge ∈ inter_layer_edges graph /\
         getNode graph (source edge.2) = Some s /\ node_layer s = L) /\
    Forall2
      (fun L marker =>
         Msg.id marker = to_int32 L /\
         Msg.type marker = Msg.LINE_LIST /\
         length (Msg.colors marker) = length (Msg.points marker) /\
         Nat.Even (length (Msg.points marker)) /\
         exists config,
           configs !! L = Some config /\
           (visualize config = false ->
            Msg.action marker = Msg.DELETE /\ Msg.points marker = []))
      keys out.
Proof.
  intros Hout.
  apply makeGraphEdgeMarkers_by_layer in Hout
    as (keys & st & Hloop & Hsorted & Hkeys & Hout).
  exists keys. split; [exact Hsorted|]. split; [exact Hkeys|].
  eapply Forall2_impl; [exact Hout|]. intros L m (Hm & Hid & _ & [config Hconfig]).
  assert (Hok : edge_marker_ok configs L m).
  { apply (edge_loop_marker_ok _ _ _ Hloop); [|exact Hm].
    intros L' m'. cbn. by rewrite lookup_empty. }
  destruct Hok as (Htype & Hcolors & Heven & Hhidden).
  split; [exact Hid|]. split; [exact Htype|]. split; [exact Hcolors|].
  split; [exact Heven|]. exists config. split; [exact Hconfig|].
  exact (Hhidden config Hconfig).
Qed.

(** The action of a marker is settled when the marker is made. *)
Lemma edge_loop_action_kept (edges : list (N * Edge)) (st st' : EdgeLoop) (L : N)
    (m : Marker) :
  edge_loop graph configs visualizer_config edges st = Ok st' ->
  layer_markers st !! L = Some m ->
  exists m', layer_markers st' !! L = Some m' /\ Msg.action m' = Msg.action m.
Proof.
  revert st m. induction edges as [|edge rest IH]; intros st m Hrun Hm.
  - injection Hrun as <-. eauto.
  - apply edge_loop_cons in Hrun as (st1 & Hbody & Hrest).
    apply edge_body_marker in Hbody
      as (s & t & cs & m1 & m' & _ & _ & _ & Hother & Hm' & Hm1 & Hdraw).
    destruct (decide (L = node_layer s)) as [-> | HL].
    + rewrite Hm in Hm1. subst m1.
      destruct (IH st1 m' Hrest Hm') as (m'' & Hm'' & Haction).
      exists m''. split; [exact Hm''|]. rewrite Haction.
      by destruct Hdraw as [-> | (_ & ps & c & _ & ->)].
    + apply (IH st1 m Hrest). by rewrite (Hother L HL).
Qed.

Lemma edge_loop_action_first (edges : list (N * Edge)) (st st' : EdgeLoop) (L : N)
    (m : Marker) :
  edge_loop graph configs visualizer_config edges st = Ok st' ->
  layer_markers st !! L = None ->
  layer_markers st' !! L = Some m ->
  exists pre edge post s t cs ct,
    edges = pre ++ edge :: post /\
    Forall (fun e => source_layer graph e <> Some L) pre /\
    getNode graph (source edge.2) = Some s /\ node_layer s = L /\
    getNode graph (target edge.2) = Some t /\
    configs !! L = Some cs /\ configs !! node_layer t = Some ct /\
    Msg.action m = if visualize cs && visualize ct then Msg.ADD else Msg.DELETE.
Proof.
  revert st. induction edges as [|edge rest IH]; intros st Hrun Hnone Hm.
  - injection Hrun as <-. congruence.
  - apply edge_loop_cons in Hrun as (st1 & Hbody & Hrest).
    apply edge_body_marker in Hbody
      as (s & t & cs & m1 & m' & Hs & Ht & Hcs & Hother & Hm' & Hm1 & Hdraw).
    destruct (decide (L = node_layer s)) as [-> | HL].
    + rewrite Hnone in Hm1. destruct Hm1 as (ct & Hct & ->).
      destruct (edge_loop_action_kept rest st1 st' (node_layer s) m' Hrest Hm')
        as (m'' & Hm'' & Haction).
      rewrite Hm in Hm''. injection Hm'' as <-.
      exists [], edge, rest, s, t, cs, ct. repeat split; auto.
      rewrite Haction.
      destruct Hdraw as [-> | (_ & ps & c & _ & ->)]; apply opened_marker_action.
    + destruct (IH st1 Hrest) as (pre & e & post & s' & t' & cs' & ct' & -> & Hpre & H);
        [by rewrite (Hother L HL)|exact Hm|].
      exists (edge :: pre), e, post, s', t', cs', ct'.
      split; [reflexivity|]. split; [|exact H].
      constructor; [|exact Hpre]. unfold source_layer. rewrite Hs. cbn. congruence.
Qed.

(** X10.  [makeGraphEdgeMarkers] returns one marker for each layer that
    is the source layer of an inter-layer edge, by ascending layer and
    with the layer as its identifier.  The action of the marker of a
    layer is decided by the first edge, in traversal order, whose source
    node lies in that layer: [ADD] when the source layer and the target
    layer of that edge are both shown, [DELETE] otherwise, whatever the
    layers the later edges of the source layer lead to. *)
Theorem makeGraphEdgeMarkers_action_by_first_edge (out : MarkerArray) :
  makeGraphEdgeMarkers graph configs visualizer_config = Ok out ->
  exists keys : list N,
    StronglySorted N.lt keys /\
    (forall L,
       L ∈ keys <->
       exists edge s,
         edge ∈ inter_layer_edges graph /\
         getNode graph (source edge.2) = Some s /\ node_layer s = L) /\
    Forall2
      (fun L marker =>
         Msg.id marker = to_int32 L /\
         exists pre edge post s t cs ct,
           inter_layer_edges graph = pre ++ edge :: post /\
           Forall (fun e => source_layer graph e <> Some L) pre /\
           getNode graph (source edge.2) = Some s /\ node_layer s = L /\
           getNode graph (target edge.2) = Some t /\
           configs !! L = Some cs /\ configs !! node_layer t = Some ct /\
           Msg.action marker =
             if visualize cs && visualize ct then Msg.ADD else Msg.DELETE)
      keys out.
Proof.
  intros Hout.
  apply makeGraphEdgeMarkers_by_layer in Hout
    as (keys & st & Hloop & Hsorted & Hkeys & Hout).
  exists keys. split; [exact Hsorted|]. split; [exact Hkeys|].
  eapply Forall2_impl; [exact Hout|]. intros L m (Hm & Hid & _).
  split; [exact Hid|].
  apply (edge_loop_action_first _ _ _ _ _ Hloop); [|exact Hm].
  cbn. apply lookup_empty.
Qed.

Lemma edge_body_runs (st : EdgeLoop) (edge : N * Edge) :
  edge_can_be_drawn graph configs edge ->
  exists st', edge_body graph configs visualizer_config st edge = Ok st'.
Proof.
  intros (s & t & cs & ct & c & Hs & Ht & Hcs & Hct & Hc).
  unfold edge_body. rewrite Hs, Ht. cbn [deref mbind outcome_bind].
  assert (exists st1, open_layer configs s t st = Ok st1) as [st1 Hopen].
  { unfold open_layer. case_bool_decide; [|eauto].
    rewrite (proj2 (map_at_Ok _ _ _) Hcs), (proj2 (map_at_Ok _ _ _) Hct).
    cbn [mbind outcome_bind]. eauto. }
  rewrite Hopen. cbn [mbind outcome_bind].
  apply open_layer_marker in Hopen as (m1 & Hm1 & _).
  rewrite (proj2 (map_at_Ok _ _ _) Hcs). cbn [mbind outcome_bind].
  destruct (negb (visualize cs)); [eauto|].
  rewrite (proj2 (map_at_Ok _ _ _) Hct). cbn [mbind outcome_bind].
  destruct (negb (visualize ct)); [eauto|].
  destruct (_ <=? _)%N; [|eauto].
  rewrite (proj2 (map_at_Ok _ _ _) Hm1), Hc. cbn [mbind outcome_bind]. eauto.
Qed.

(** X11.  [makeGraphEdgeMarkers] returns its markers, no exception or
    undefined step, when for every inter-layer edge both end points
    resolve, the layers of both have a configuration, and the colour
    the source layer asks for can be read (edge colouring off, or
    semantic attributes on the node it is read from). *)
Theorem makeGraphEdgeMarkers_runs :
  Forall (edge_can_be_drawn graph configs) (inter_layer_edges graph) ->
  exists out, makeGraphEdgeMarkers graph configs visualizer_config = Ok out.
Proof.
  intros Hedges. unfold makeGraphEdgeMarkers.
  assert (forall st, exists st',
            edge_loop graph configs visualizer_config (inter_layer_edges graph) st
            = Ok st') as Hloop.
  { induction Hedges as [|edge rest Hedge Hrest IH]; intros st; [by eexists|].
    cbn [edge_loop]. destruct (edge_body_runs st edge Hedge) as [st1 ->].
    cbn [mbind outcome_bind]. apply IH. }
  destruct (Hloop no_markers) as [st' ->]. cbn [mbind outcome_bind]. eauto.
Qed.

End InterLayerMarkers.

(** ** The layer handlers *)

Section Handlers.

Context `{Ext : Externals}.

Variables (this : SceneGraphVisualizer) (current_time : Z).

Lemma retracts_makeDeleteMarker (id : N) (ns : string) :
  retracts (fillHeader this (makeDeleteMarker id ns) current_time).
Proof. by repeat split. Qed.

Lemma handleLabels_loop_spec (ns : string) (config : LayerConfig)
    (l : list (N * Node)) (markers : MarkerArray) :
  handleLabels_loop this ns config current_time l markers =
  markers ++
  ((fun p : N * Node =>
      fillHeader this
        (if visualize config && use_label config
         then makeTextMarker config p.2 (visualizer_config_ this) ns
         else makeDeleteMarker (node_id p.2) ns) current_time) <$> l).
Proof.
  revert markers. induction l as [|p l IH]; intros markers; cbn.
  - by rewrite app_nil_r.
  - by rewrite IH, <- app_assoc.
Qed.

Lemma handleBoundingBoxes_loop_disabled (ns : string) (config : LayerConfig)
    (l : list (N * Node)) (markers : MarkerArray) :
  visualize config && use_bounding_box config = false ->
  handleBoundingBoxes_loop this ns config current_time l markers =
  mkEff [] (Ok (markers ++
                ((fun p : N * Node =>
                    fillHeader this (makeDeleteMarker (node_id p.2) ns) current_time)
                   <$> l))).
Proof.
  intros Hoff. revert markers. induction l as [|p l IH]; intros markers; cbn.
  - by rewrite app_nil_r.
  - by rewrite Hoff, IH, <- app_assoc.
Qed.

(** X12.  For a layer configured with [visualize] off the four handlers
    of [displayLayers] cannot fail and log nothing, and every marker
    they append only retracts: one [DELETE] marker for the centroids,
    one per node for the labels, one per node for the bounding boxes,
    and one for the mesh edges when the layer is the objects layer.
    No attribute of a node beyond its identifier is read. *)
Theorem hidden_layer_only_retracts (layer : SceneGraphLayer) (config : LayerConfig)
    (markers : MarkerArray) :
  visualize config = false ->
  exists centroids labels boxes lines,
    handleCentroids this layer config current_time markers
      = mkEff [] (Ok (markers ++ centroids)) /\
    handleLabels this layer config current_time markers
      = mkEff [] (Ok (markers ++ labels)) /\
    handleBoundingBoxes this layer config current_time markers
      = mkEff [] (Ok (markers ++ boxes)) /\
    handleMeshEdges this layer config current_time markers
      = mkEff [] (Ok (markers ++ lines)) /\
    Forall retracts (centroids ++ labels ++ boxes ++ lines) /\
    length centroids = 1%nat /\
    Msg.id <$> labels = (fun p : N * Node => to_int32 (node_id p.2)) <$> nodes layer /\
    Msg.id <$> boxes = (fun p : N * Node => to_int32 (node_id p.2)) <$> nodes layer /\
    length lines = (if bool_decide (layer_id layer = OBJECTS) then 1 else 0)%nat.
Proof.
  intros Hvis.
  exists [fillHeader this (makeDeleteMarker (layer_id layer) "layer_centroids") current_time].
  eexists _, _.
  exists (if bool_decide (layer_id layer = OBJECTS)
          then [fillHeader this (makeDeleteMarker (layer_id layer) "mesh_layer_edges")
                  current_time]
          else []).
  split; [by unfold handleCentroids; rewrite Hvis|].
  split; [unfold handleLabels; rewrite handleLabels_loop_spec, Hvis; reflexivity|].
  split; [unfold handleBoundingBoxes;
          rewrite handleBoundingBoxes_loop_disabled by (by rewrite Hvis); reflexivity|].
  split.
  { unfold handleMeshEdges. case_bool_decide; cbn [negb]; [by rewrite Hvis|].
    by rewrite app_nil_r. }
  split.
  { rewrite !Forall_app. split; [by repeat constructor|]. cbn [andb].
    split; [by apply Forall_fmap, Forall_true|].
    split; [by apply Forall_fmap, Forall_true|].
    case_bool_decide; by repeat constructor. }
  split; [reflexivity|]. cbn [andb].
  split; [by rewrite <- list_fmap_compose|].
  split; [by rewrite <- list_fmap_compose|].
  by case_bool_decide.
Qed.

(** X13.  [handleLabels] cannot fail and logs nothing; it appends one
    marker per node of the layer, in node order, named
    [layer_<id>_text] and identified by the node: the text marker of the
    node when the layer is shown with labels on, a marker that retracts
    otherwise. *)
Theorem handleLabels_one_marker_per_node (layer : SceneGraphLayer) (config : LayerConfig)
    (markers : MarkerArray) :
  exists labels,
    handleLabels this layer config current_time markers
      = mkEff [] (Ok (markers ++ labels)) /\
    Forall2
      (fun (p : N * Node) label =>
         Msg.id label = to_int32 (node_id p.2) /\
         Msg.ns label = ("layer_" +:+ to_string (layer_id layer) +:+ "_text")%string /\
         stamped this current_time label /\
         if visualize config && use_label config
         then Msg.action label = Msg.ADD /\ Msg.type label = Msg.TEXT_VIEW_FACING /\
              Msg.text label = getLabel (node_id p.2)
         else retracts label)
      (nodes layer) labels.
Proof.
  eexists. split.
  - unfold handleLabels. rewrite handleLabels_loop_spec. reflexivity.
  - apply Forall2_fmap_r, Forall_Forall2_diag, Forall_forall. intros p _.
    destruct (visualize config && use_label config); by repeat split.
Qed.

Lemma handleBoundingBoxes_loop_objects (ns : string) (config : LayerConfig)
    (l : list (N * Node)) (markers : MarkerArray) :
  visualize config = true -> use_bounding_box config = true ->
  Forall (fun p : N * Node => exists bb, object_bounding_box (attributes p.2) = Ok bb) l ->
  exists boxes,
    boxes_of this config current_time ns l boxes /\
    Forall (fun box => Msg.type box = Msg.CUBE /\ Msg.action box = Msg.ADD /\
                       Msg.ns box = ns /\ stamped this current_time box) boxes /\
    handleBoundingBoxes_loop this ns config current_time l markers =
    mkEff (box_log this config ns l) (Ok (markers ++ boxes)).
Proof.
  intros Hvis Hbox Hl. revert markers.
  induction Hl as [|p l [bb Hp] Hl IH]; intros markers.
  - exists []. split; [constructor|]. split; [constructor|]. cbn. by rewrite app_nil_r.
  - destruct (makeBoundingBoxMarker_object this config p.2 ns bb Hp)
      as (marker & Hmarker & Htype & Haction & _ & Hns).
    destruct (IH (markers ++ [fillHeader this marker current_time]))
      as (boxes & Hboxes & Hkinds & Hrun).
    exists (fillHeader this marker current_time :: boxes).
    split; [constructor; [eauto|exact Hboxes]|].
    split; [constructor; [done|exact Hkinds]|].
    cbn [handleBoundingBoxes_loop]. rewrite Hvis, Hbox, Hp. cbn [andb].
    rewrite <- (Eff_eta (makeBoundingBoxMarker _ _ _ _)), Hmarker.
    rewrite Eff_bind_ok, Hrun. cbn [trace result].
    unfold box_log. cbn [fmap list_fmap concat].
    by rewrite <- !app_assoc.
Qed.

(** X14.  With boxes enabled for a shown layer whose nodes all carry
    object attributes, [handleBoundingBoxes] appends one [ADD] cube per
    node, in node order; the layer error is not logged, only a line for
    each box that is neither oriented nor axis-aligned, and such a box
    still gets its marker. *)
Theorem handleBoundingBoxes_object_layer (layer : SceneGraphLayer) (config : LayerConfig)
    (markers : MarkerArray) :
  visualize config = true -> use_bounding_box config = true ->
  Forall (fun p : N * Node => exists bb, object_bounding_box (attributes p.2) = Ok bb)
         (nodes layer) ->
  exists boxes,
    handleBoundingBoxes this layer config current_time markers =
    mkEff (box_log this config
             ("layer_" +:+ to_string (layer_id layer) +:+ "_bounding_boxes")
             (nodes layer))
          (Ok (markers ++ boxes)) /\
    boxes_of this config current_time
      ("layer_" +:+ to_string (layer_id layer) +:+ "_bounding_boxes") (nodes layer) boxes /\
    Forall (fun box => Msg.type box = Msg.CUBE /\ Msg.action box = Msg.ADD) boxes /\
    Forall (fun e => e = ROS_ERROR "Invalid bounding box encountered!")
           (box_log this config
              ("layer_" +:+ to_string (layer_id layer) +:+ "_bounding_boxes")
              (nodes layer)).
Proof.
  intros Hvis Hbox Hnodes. unfold handleBoundingBoxes.
  destruct (handleBoundingBoxes_loop_objects
              ("layer_" +:+ to_string (layer_id layer) +:+ "_bounding_boxes")
              config (nodes layer) markers Hvis Hbox Hnodes)
    as (boxes & Hboxes & Hkinds & ->).
  exists boxes. split; [reflexivity|]. split; [exact Hboxes|]. split.
  - eapply Forall_impl; [exact Hkinds|]. by intros box (? & ? & _).
  - unfold box_log. apply Forall_concat, Forall_fmap, Forall_forall.
    intros p Hp. cbn.
    apply (proj1 (Forall_forall _ _) Hnodes) in Hp as [bb Hbb].
    unfold makeBoundingBoxMarker, bounding_box_pose.
    destruct (attributes p.2); try discriminate. injection Hbb as ->.
    destruct (bb_type bb) eqn:Htype; cbn; rewrite Htype; cbn; by repeat constructor.
Qed.

End Handlers.

(** ** The two display passes *)

Lemma Eff_bind_emit {B} (e : Event) (f : unit -> Eff B) :
  emit e ≫= f = mkEff (e :: trace (f tt)) (result (f tt)).
Proof. reflexivity. Qed.

Section Passes.

Context `{Ext : Externals}.

Variables (this : SceneGraphVisualizer) (current_time : Z).

Lemma displayLayers_loop_unconfigured (l : list (N * SceneGraphLayer))
    (acc : LayerBatches) :
  Forall (fun p : N * SceneGraphLayer => layer_configs_ this !! p.1 = None) l ->
  displayLayers_loop this current_time l acc =
  mkEff (missing_config_warning <$> l.*1) (Ok acc).
Proof.
  induction 1 as [|p l Hp Hl IH]; [reflexivity|].
  cbn [displayLayers_loop]. rewrite Hp, Eff_bind_emit, IH. reflexivity.
Qed.

Lemma displayEdges_loop_unconfigured (l : list (N * SceneGraphLayer))
    (edge_markers : MarkerArray) :
  Forall (fun p : N * SceneGraphLayer => layer_configs_ this !! p.1 = None) l ->
  displayEdges_loop this current_time l edge_markers =
  mkEff (missing_edge_config_warning <$>
           (filter (fun p : N * SceneGraphLayer => numEdges p.2 <> 0%nat) l).*1)
        (Ok edge_markers).
Proof.
  induction 1 as [|p l Hp Hl IH]; [reflexivity|].
  cbn [displayEdges_loop]. rewrite filter_cons.
  case_bool_decide as Hempty.
  - rewrite decide_False by (by intros ?). exact IH.
  - rewrite decide_True by done. rewrite Hp, Eff_bind_emit, IH. reflexivity.
Qed.

(** X15.  When none of the layers of the graph has a registered
    configuration, [displayLayers] publishes nothing and fails on
    nothing: it logs one warning per layer, in layer order.  On such a
    graph without inter-layer edges [displayEdges] warns for each layer
    that has edges and publishes an array without markers. *)
Theorem display_without_configurations (scene_graph : DynamicSceneGraph) :
  Forall (fun p : N * SceneGraphLayer => layer_configs_ this !! p.1 = None)
         (layers scene_graph) ->
  displayLayers this current_time scene_graph =
    mkEff (missing_config_warning <$> (layers scene_graph).*1) (Ok tt) /\
  (inter_layer_edges scene_graph = [] ->
   displayEdges this current_time scene_graph =
     mkEff ((missing_edge_config_warning <$>
               (filter (fun p : N * SceneGraphLayer => numEdges p.2 <> 0%nat)
                       (layers scene_graph)).*1)
              ++ [Publish edges_node_node_pub_ []])
           (Ok tt)).
Proof.
  intros Hnone. split.
  - unfold displayLayers. rewrite (displayLayers_loop_unconfigured _ _ Hnone).
    rewrite Eff_bind_ok. cbn. by rewrite app_nil_r.
  - intros Hedges. unfold displayEdges, makeGraphEdgeMarkers. rewrite Hedges.
    cbn [edge_loop mbind outcome_bind].
    replace (in_key_order (∅ : gmap N Marker)) with ([] : list (N * Marker))
      by (unfold in_key_order; by rewrite map_to_list_empty).
    rewrite Eff_bind_lift. cbn [fmap list_fmap].
    rewrite (displayEdges_loop_unconfigured _ _ Hnone), Eff_bind_ok.
    reflexivity.
Qed.

Lemma silent_displayEdges_loop l edge_markers :
  silent (displayEdges_loop this current_time l edge_markers).
Proof.
  revert edge_markers. induction l as [|p l IH]; intros edge_markers;
    cbn [displayEdges_loop]; [apply silent_ret|].
  case_bool_decide; [apply IH|].
  destruct (layer_configs_ this !! p.1).
  - apply silent_bind; [apply silent_lift|intros; apply IH].
  - apply silent_bind; [reflexivity|intros; apply IH].
Qed.

(** What [displayEdges] sends: the array its layer loop returns, when it
    gets that far; nothing otherwise. *)
Lemma displayEdges_publications (scene_graph : DynamicSceneGraph) :
  publications (trace (displayEdges this current_time scene_graph)) =
  match makeGraphEdgeMarkers scene_graph (layer_configs_ this) (visualizer_config_ this)
  with
  | Ok edge_markers =>
      match result (displayEdges_loop this current_time (layers scene_graph)
                      ((fun marker => fillHeader this marker current_time)
                         <$> edge_markers)) with
      | Ok markers => [(edges_node_node_pub_, markers)]
      | _ => []
      end
  | _ => []
  end.
Proof.
  unfold displayEdges.
  destruct (makeGraphEdgeMarkers _ _ _) as [edge_markers| |]; try reflexivity.
  rewrite Eff_bind_lift.
  rewrite Eff_bind_trace, publications_app, silent_displayEdges_loop.
  by destruct (result (displayEdges_loop _ _ _ _)) as [markers| |].
Qed.

Lemma displayEdges_result (scene_graph : DynamicSceneGraph) :
  result (displayEdges this current_time scene_graph) =
  match makeGraphEdgeMarkers scene_graph (layer_configs_ this) (visualizer_config_ this)
  with
  | Ok edge_markers =>
      match result (displayEdges_loop this current_time (layers scene_graph)
                      ((fun marker => fillHeader this marker current_time)
                         <$> edge_markers)) with
      | Ok markers => Ok tt
      | Throw e => Throw e
      | Undefined => Undefined
      end
  | Throw e => Throw e
  | Undefined => Undefined
  end.
Proof.
  unfold displayEdges.
  destruct (makeGraphEdgeMarkers _ _ _) as [edge_markers| |]; try reflexivity.
  rewrite Eff_bind_lift, Eff_bind_result.
  by destruct (result (displayEdges_loop _ _ _ _)) as [markers| |].
Qed.

Lemma displayEdges_publishes_once_aux (scene_graph : DynamicSceneGraph) :
  match result (displayEdges this current_time scene_graph) with
  | Ok _ =>
      exists markers,
        publications (trace (displayEdges this current_time scene_graph))
        = [(edges_node_node_pub_, markers)]
  | _ => publications (trace (displayEdges this current_time scene_graph)) = []
  end.
Proof.
  rewrite displayEdges_publications, displayEdges_result.
  destruct (makeGraphEdgeMarkers _ _ _) as [edge_markers| |]; try reflexivity.
  destruct (result (displayEdges_loop _ _ _ _)) as [markers| |]; try reflexivity.
  by exists markers.
Qed.

(** X16.  A call of [displayEdges] that completes publishes exactly one
    array, on the node-to-node edge topic, also when the array holds no
    marker; a call that fails publishes nothing. *)
Theorem displayEdges_publishes_once (scene_graph : DynamicSceneGraph) :
  (result (displayEdges this current_time scene_graph) = Ok tt ->
   exists markers,
     publications (trace (displayEdges this current_time scene_graph))
     = [(edges_node_node_pub_, markers)]) /\
  (result (displayEdges this current_time scene_graph) <> Ok tt ->
   publications (trace (displayEdges this current_time scene_graph)) = []).
Proof.
  rewrite displayEdges_publications, displayEdges_result.
  destruct (makeGraphEdgeMarkers _ _ _) as [edge_markers| |];
    [|split; [discriminate|reflexivity]..].
  destruct (result (displayEdges_loop _ _ _ _)) as [markers| |];
    split; try discriminate; try reflexivity; [eauto|by intros []].
Qed.

(** *** Headers *)

Lemma stamped_fillHeader (marker : Marker) :
  stamped this current_time (fillHeader this marker current_time).
Proof. reflexivity. Qed.

Lemma handleCentroids_stamped layer config markers out :
  result (handleCentroids this layer config current_time markers) = Ok out ->
  Forall (stamped this current_time) markers ->
  Forall (stamped this current_time) out.
Proof.
  unfold handleCentroids. destruct (visualize config).
  - rewrite Eff_bind_lift.
    destruct (makeCentroidMarkers _ _ _ _ _) as [marker| |]; try discriminate.
    intros [= <-] Hmarkers. apply Forall_app. by repeat constructor.
  - intros [= <-] Hmarkers. apply Forall_app. by repeat constructor.
Qed.

Lemma handleMeshEdges_stamped layer config markers out :
  result (handleMeshEdges this layer config current_time markers) = Ok out ->
  Forall (stamped this current_time) markers ->
  Forall (stamped this current_time) out.
Proof.
  unfold handleMeshEdges. destruct (negb _); [by intros [= <-]|].
  destruct (visualize config).
  - rewrite Eff_bind_lift.
    destruct (deref (scene_graph_ this)) as [graph| |]; try discriminate.
    rewrite Eff_bind_lift.
    destruct (makeMeshEdgesMarker _ _ _ _ _) as [marker| |]; try discriminate.
    intros [= <-] Hmarkers. apply Forall_app. by repeat constructor.
  - intros [= <-] Hmarkers. apply Forall_app. by repeat constructor.
Qed.

Lemma handleBoundingBoxes_loop_stamped ns config l markers out :
  result (handleBoundingBoxes_loop this ns config current_time l markers) = Ok out ->
  Forall (stamped this current_time) markers ->
  Forall (stamped this current_time) out.
Proof.
  revert markers. induction l as [|p l IH]; intros markers;
    cbn [handleBoundingBoxes_loop]; [by intros [= <-]|].
  destruct (visualize config && use_bounding_box config).
  - destruct (object_bounding_box _) as [bb|[]|]; try discriminate.
    + destruct (makeBoundingBoxMarker _ _ _ _) as [events [marker| |]];
        try discriminate.
      rewrite Eff_bind_ok. cbn [result]. intros Hrun Hmarkers.
      apply (IH _ Hrun). apply Forall_app. by repeat constructor.
    + by intros [= <-].
  - intros Hrun Hmarkers. apply (IH _ Hrun). apply Forall_app. by repeat constructor.
Qed.

Lemma layer_texts_stamped layer config markers texts :
  result (handleLabels this layer config current_time markers
          ≫= handleBoundingBoxes this layer config current_time) = Ok texts ->
  Forall (stamped this current_time) markers ->
  Forall (stamped this current_time) texts.
Proof.
  unfold handleLabels. rewrite Eff_bind_ret. unfold handleBoundingBoxes.
  intros Hrun Hmarkers. apply (handleBoundingBoxes_loop_stamped _ _ _ _ _ Hrun).
  rewrite handleLabels_loop_spec. apply Forall_app. split; [exact Hmarkers|].
  by apply Forall_fmap, Forall_true.
Qed.

Lemma displayLayers_loop_stamped l acc batches :
  result (displayLayers_loop this current_time l acc) = Ok batches ->
  Forall (fun p : Channel * MarkerArray => Forall (stamped this current_time) p.2)
         (batches_by_channel acc) ->
  Forall (fun p : Channel * MarkerArray => Forall (stamped this current_time) p.2)
         (batches_by_channel batches).
Proof.
  revert acc. induction l as [|p l IH]; intros acc; [by intros [= <-]|].
  destruct (layer_configs_ this !! p.1) as [config|] eqn:Hconfig.
  - rewrite (displayLayers_loop_cons_result _ _ _ _ _ _ Hconfig).
    destruct (result (handleCentroids _ _ _ _ _)) as [centroids| |] eqn:Hc;
      try discriminate.
    cbn [mbind outcome_bind].
    destruct (result (_ ≫= _)) as [texts| |] eqn:Ht; try discriminate.
    cbn [mbind outcome_bind].
    destruct (result (handleMeshEdges _ _ _ _ _)) as [lines| |] eqn:Hl; try discriminate.
    cbn [mbind outcome_bind].
    intros Hrun Hacc. apply (IH _ Hrun).
    unfold batches_by_channel in *. cbn [layer_centroids text_markers
      line_assoc_markers bounding_boxes].
    apply Forall_cons in Hacc as [Hacc1 Hacc].
    apply Forall_cons in Hacc as [Hacc2 Hacc].
    apply Forall_cons in Hacc as [Hacc3 Hacc].
    apply Forall_cons in Hacc as [Hacc4 _]. cbn [snd] in *.
    repeat constructor; cbn [snd].
    + by apply (handleCentroids_stamped _ _ _ _ Hc).
    + exact Hacc2.
    + by apply (layer_texts_stamped _ _ _ _ Ht).
    + by apply (handleMeshEdges_stamped _ _ _ _ Hl).
  - rewrite (displayLayers_loop_skip_result _ _ _ _ _ Hconfig). apply IH.
Qed.

Lemma displayEdges_loop_stamped l edge_markers out :
  result (displayEdges_loop this current_time l edge_markers) = Ok out ->
  Forall (stamped this current_time) edge_markers ->
  Forall (stamped this current_time) out.
Proof.
  revert edge_markers. induction l as [|p l IH]; intros edge_markers;
    cbn [displayEdges_loop]; [by intros [= <-]|].
  case_bool_decide; [apply IH|].
  destruct (layer_configs_ this !! p.1).
  - rewrite Eff_bind_lift.
    destruct (makeLayerEdgeMarkers _ _ _ _) as [marker| |]; try discriminate.
    intros Hrun Hmarkers. apply (IH _ Hrun). apply Forall_app. by repeat constructor.
  - rewrite Eff_bind_emit. cbn [result]. apply IH.
Qed.

(** X17.  Every marker that [displayLayers] or [displayEdges] publishes
    carries the world frame of the visualizer and the time the pass
    read: no marker leaves either pass without [fillHeader]. *)
Theorem published_markers_are_stamped (scene_graph : DynamicSceneGraph)
    (channel : Channel) (markers : MarkerArray) :
  ((channel, markers) ∈ publications (trace (displayLayers this current_time scene_graph))
   \/ (channel, markers)
        ∈ publications (trace (displayEdges this current_time scene_graph))) ->
  Forall (stamped this current_time) markers.
Proof.
  intros [Hin | Hin].
  - rewrite displayLayers_publications in Hin.
    destruct (result (displayLayers_loop _ _ _ _)) as [batches| |] eqn:Hrun;
      [|by apply elem_of_nil in Hin..].
    apply list_elem_of_filter in Hin as [_ Hin].
    pose proof (displayLayers_loop_stamped _ _ _ Hrun) as Hall.
    apply (proj1 (Forall_forall _ _) (Hall ltac:(by repeat constructor)) _ Hin).
  - rewrite displayEdges_publications in Hin.
    destruct (makeGraphEdgeMarkers _ _ _) as [edge_markers| |];
      [|by apply elem_of_nil in Hin..].
    destruct (result (displayEdges_loop _ _ _ _)) as [out| |] eqn:Hrun;
      [|by apply elem_of_nil in Hin..].
    apply list_elem_of_singleton in Hin as [= -> ->].
    apply (displayEdges_loop_stamped _ _ _ Hrun).
    by apply Forall_fmap, Forall_true.
Qed.

(** *** The centroid array and the mesh edge array *)

Lemma handleCentroids_appends_one layer config markers out :
  result (handleCentroids this layer config current_time markers) = Ok out ->
  exists marker,
    out = markers ++ [marker] /\
    Msg.id marker = to_int32 (layer_id layer) /\
    Msg.ns marker = "layer_centroids" /\
    Msg.action marker = (if visualize config then Msg.ADD else Msg.DELETE) /\
    length (Msg.points marker)
      = (if visualize config then length (nodes layer) else 0%nat).
Proof.
  unfold handleCentroids. destruct (visualize config).
  - rewrite Eff_bind_lift.
    destruct (makeCentroidMarkers _ _ _ _ _) as [marker| |] eqn:Hmarker;
      try discriminate.
    intros [= <-]. eexists. split; [reflexivity|].
    unfold makeCentroidMarkers in Hmarker.
    apply centroid_loop_Ok in Hmarker as (cs & _ & ->). cbn.
    by rewrite length_fmap.
  - intros [= <-]. eexists. split; [reflexivity|]. done.
Qed.

Lemma displayLayers_loop_centroids l acc batches :
  result (displayLayers_loop this current_time l acc) = Ok batches ->
  exists centroids,
    layer_centroids batches = layer_centroids acc ++ centroids /\
    Forall2
      (fun (lc : SceneGraphLayer * LayerConfig) marker =>
         Msg.id marker = to_int32 (layer_id lc.1) /\
         Msg.ns marker = "layer_centroids" /\
         Msg.action marker = (if visualize lc.2 then Msg.ADD else Msg.DELETE) /\
         length (Msg.points marker)
           = (if visualize lc.2 then length (nodes lc.1) else 0%nat))
      (configured_layers this l) centroids.
Proof.
  revert acc. induction l as [|p l IH]; intros acc.
  - intros [= <-]. exists []. split; [by rewrite app_nil_r|constructor].
  - unfold configured_layers. cbn [omap list_omap].
    destruct (layer_configs_ this !! p.1) as [config|] eqn:Hconfig.
    + rewrite (displayLayers_loop_cons_result _ _ _ _ _ _ Hconfig).
      destruct (result (handleCentroids _ _ _ _ _)) as [centroids| |] eqn:Hc;
        try discriminate.
      cbn [mbind outcome_bind].
      destruct (result (_ ≫= _)) as [texts| |]; try discriminate.
      cbn [mbind outcome_bind].
      destruct (result (handleMeshEdges _ _ _ _ _)) as [lines| |]; try discriminate.
      cbn [mbind outcome_bind]. intros Hrun.
      apply IH in Hrun as (more & Hmore & Hall). cbn [layer_centroids] in Hmore.
      apply handleCentroids_appends_one in Hc as (marker & -> & Hmarker).
      exists (marker :: more). split; [by rewrite Hmore, <- app_assoc|].
      cbn [fmap option_fmap option_map]. constructor; [exact Hmarker|exact Hall].
    + rewrite (displayLayers_loop_skip_result _ _ _ _ _ Hconfig). apply IH.
Qed.

(** X18.  A layer pass that completes has built one centroid marker per
    layer with a registered configuration, in layer order, identified
    by the layer: an [ADD] marker with one point per node for a shown
    layer, a [DELETE] marker without points for a hidden one.  Layers
    without configuration contribute no marker. *)
Theorem displayLayers_one_centroid_marker_per_layer (scene_graph : DynamicSceneGraph)
    (batches : LayerBatches) :
  result (displayLayers_loop this current_time (layers scene_graph) no_batches)
    = Ok batches ->
  Forall2
    (fun (lc : SceneGraphLayer * LayerConfig) marker =>
       Msg.id marker = to_int32 (layer_id lc.1) /\
       Msg.ns marker = "layer_centroids" /\
       Msg.action marker = (if visualize lc.2 then Msg.ADD else Msg.DELETE) /\
       length (Msg.points marker)
         = (if visualize lc.2 then length (nodes lc.1) else 0%nat))
    (configured_layers this (layers scene_graph)) (layer_centroids batches).
Proof.
  intros Hrun. apply displayLayers_loop_centroids in Hrun as (centroids & -> & Hall).
  exact Hall.
Qed.

Lemma displayLayers_loop_no_objects l acc batches :
  Forall (fun p : N * SceneGraphLayer => layer_id p.2 <> OBJECTS) l ->
  result (displayLayers_loop this current_time l acc) = Ok batches ->
  line_assoc_markers batches = line_assoc_markers acc.
Proof.
  intros Hl. revert acc. induction Hl as [|p l Hp Hl IH]; intros acc.
  - by intros [= <-].
  - destruct (layer_configs_ this !! p.1) as [config|] eqn:Hconfig.
    + rewrite (displayLayers_loop_cons_result _ _ _ _ _ _ Hconfig).
      destruct (result (handleCentroids _ _ _ _ _)) as [centroids| |]; try discriminate.
      cbn [mbind outcome_bind].
      destruct (result (_ ≫= _)) as [texts| |]; try discriminate.
      cbn [mbind outcome_bind].
      unfold handleMeshEdges. rewrite bool_decide_eq_false_2 by done.
      cbn [negb mbind outcome_bind]. intros Hrun. apply IH in Hrun. exact Hrun.
    + rewrite (displayLayers_loop_skip_result _ _ _ _ _ Hconfig). apply IH.
Qed.

(** X19.  The mesh edge topic belongs to the objects layer: when no
    layer of the graph is the objects layer, [displayLayers] publishes
    nothing on it, whatever the configurations and the surface
    samples. *)
Theorem displayLayers_mesh_edges_of_objects_only (scene_graph : DynamicSceneGraph)
    (markers : MarkerArray) :
  Forall (fun p : N * SceneGraphLayer => layer_id p.2 <> OBJECTS) (layers scene_graph) ->
  (edges_centroid_pcl_pub_, markers)
    ∉ publications (trace (displayLayers this current_time scene_graph)).
Proof.
  intros Hlayers. rewrite displayLayers_publications.
  destruct (result (displayLayers_loop _ _ _ _)) as [batches| |] eqn:Hrun;
    [|apply not_elem_of_nil..].
  apply (displayLayers_loop_no_objects _ _ _ Hlayers) in Hrun.
  rewrite list_elem_of_filter. unfold batches_by_channel. rewrite Hrun.
  cbn [snd line_assoc_markers no_batches]. intros [Hne Hin].
  repeat (apply elem_of_cons in Hin as [[=] | Hin]); [by subst|].
  by apply elem_of_nil in Hin.
Qed.

End Passes.

(** ** The controller beyond a single tick *)

Section Lifecycle.

Context `{Ext : Externals}.

(** X20.  [clear] sends one array holding a single [DELETEALL] marker,
    stamped and framed, on each of the five topics, and lets go of the
    graph; the redraw flag and the configurations stay as they are.
    After it no tick draws anything, also after a configuration change,
    until [setGraph] accepts a graph. *)
Theorem clear_retracts_everything (curr_time : Z) (this : SceneGraphVisualizer) :
  publications (clear curr_time this).2 =
    (fun channel =>
       (channel,
        [fillHeader this (Msg.set_action Msg.DELETEALL Msg.default) curr_time]))
    <$> cleared_channels /\
  scene_graph_ (clear curr_time this).1 = None /\
  need_redraw_ (clear curr_time this).1 = need_redraw_ this /\
  layer_configs_ (clear curr_time this).1 = layer_configs_ this /\
  (forall t1 t2,
     redraw t1 t2 (clear curr_time this).1 = ((clear curr_time this).1, mret false)) /\
  (forall config t1 t2,
     redraw t1 t2 (configUpdateCb config (clear curr_time this).1) =
     (configUpdateCb config (clear curr_time this).1, mret false)) /\
  (forall layer_id config t1 t2,
     redraw t1 t2 (layerConfigUpdateCb layer_id config (clear curr_time this).1) =
     (layerConfigUpdateCb layer_id config (clear curr_time this).1, mret false)) /\
  (forall graph, empty graph = false ->
     scene_graph_ (setGraph (Some graph) (clear curr_time this).1).1 = Some graph /\
     need_redraw_ (setGraph (Some graph) (clear curr_time this).1).1 = true).
Proof.
  do 7 (split; [reflexivity|]).
  intros graph Hgraph. unfold setGraph. by rewrite Hgraph.
Qed.

(** X21.  The layer configuration callback stores the configuration it
    is given under its layer; the configurations of the other layers,
    the global configuration and the held graph are not touched.  A
    second call for the same layer overrides the first, calls for
    different layers commute, and so do the layer callback and the
    global callback. *)
Theorem layerConfigUpdateCb_stores (layer_id other : N) (config config' : LayerConfig)
    (global : VisualizerConfig) (this : SceneGraphVisualizer) :
  layer_configs_ (layerConfigUpdateCb layer_id config this) !! layer_id = Some config /\
  (other <> layer_id ->
   layer_configs_ (layerConfigUpdateCb layer_id config this) !! other
   = layer_configs_ this !! other) /\
  scene_graph_ (layerConfigUpdateCb layer_id config this) = scene_graph_ this /\
  visualizer_config_ (layerConfigUpdateCb layer_id config this) = visualizer_config_ this /\
  layerConfigUpdateCb layer_id config' (layerConfigUpdateCb layer_id config this)
  = layerConfigUpdateCb layer_id config' this /\
  (other <> layer_id ->
   layerConfigUpdateCb other config' (layerConfigUpdateCb layer_id config this)
   = layerConfigUpdateCb layer_id config (layerConfigUpdateCb other config' this)) /\
  configUpdateCb global (layerConfigUpdateCb layer_id config this)
  = layerConfigUpdateCb layer_id config (configUpdateCb global this).
Proof.
  unfold layerConfigUpdateCb, configUpdateCb. cbn.
  split; [apply lookup_insert_eq|].
  split; [intros Hne; by apply lookup_insert_ne|].
  do 2 (split; [reflexivity|]).
  split; [by rewrite insert_insert_eq|].
  split; [|reflexivity].
  intros Hne. f_equal. by apply insert_insert_ne.
Qed.

Lemma displayLayers_result (this : SceneGraphVisualizer) (current_time : Z)
    (scene_graph : DynamicSceneGraph) :
  result (displayLayers this current_time scene_graph) =
  match result (displayLayers_loop this current_time (layers scene_graph) no_batches) with
  | Ok _ => Ok tt
  | Throw e => Throw e
  | Undefined => Undefined
  end.
Proof.
  unfold displayLayers. fold no_batches. rewrite Eff_bind_result.
  destruct (result (displayLayers_loop _ _ _ _)) as [batches| |]; try reflexivity.
  destruct (layer_centroids batches), (bounding_boxes batches),
    (text_markers batches), (line_assoc_markers batches); reflexivity.
Qed.

(** X22.  What a tick sends when the flag is set and a graph is held.
    If the tick completes: the non-empty ones of the four layer arrays,
    then one array on the node-to-node edge topic.  If the edge pass
    fails after the layer pass completed: the layer arrays alone, which
    have gone out by then. *)
Theorem redraw_publications (now_layers now_edges : Z) (this : SceneGraphVisualizer)
    (graph : DynamicSceneGraph) :
  need_redraw_ this = true -> scene_graph_ this = Some graph ->
  (result (redraw now_layers now_edges this).2 = Ok true ->
   exists batches markers,
     result (displayLayers_loop (cleaned this) now_layers (layers graph) no_batches)
       = Ok batches /\
     publications (trace (redraw now_layers now_edges this).2) =
     filter (fun p : Channel * MarkerArray => p.2 <> []) (batches_by_channel batches)
     ++ [(edges_node_node_pub_, markers)]) /\
  (result (displayLayers (cleaned this) now_layers graph) = Ok tt ->
   result (displayEdges (cleaned this) now_edges graph) <> Ok tt ->
   result (redraw now_layers now_edges this).2 <> Ok true /\
   publications (trace (redraw now_layers now_edges this).2) =
   publications (trace (displayLayers (cleaned this) now_layers graph))).
Proof.
  intros Hdirty Hgraph.
  destruct this as [dirty held frame vconfig lconfigs]; cbn in Hdirty, Hgraph; subst.
  unfold redraw. cbn [scene_graph_ need_redraw_ negb snd world_frame_
                      visualizer_config_ layer_configs_].
  set (this' := {| need_redraw_ := false; scene_graph_ := Some graph;
                   world_frame_ := frame; visualizer_config_ := vconfig;
                   layer_configs_ := lconfigs |}).
  change (cleaned _) with this'.
  rewrite !Eff_bind_result, !Eff_bind_trace, !publications_app.
  pose proof (displayLayers_publications this' now_layers graph) as Hlayers.
  pose proof (displayLayers_result this' now_layers graph) as Hlresult.
  pose proof (displayEdges_publishes_once_aux this' now_edges graph) as Hedges.
  split.
  - destruct (result (displayLayers this' now_layers graph)) as [[]| |];
      try discriminate.
    destruct (result (displayLayers_loop _ _ _ _)) as [batches| |]; try discriminate.
    destruct (result (displayEdges this' now_edges graph)) as [[]| |];
      try discriminate.
    destruct Hedges as [markers Hedges]. intros _.
    exists batches, markers. split; [reflexivity|].
    rewrite publications_app, Hlayers, Hedges. reflexivity.
  - intros Hl He. rewrite Hl. cbv beta iota.
    rewrite ?Eff_bind_result, ?Eff_bind_trace, ?publications_app.
    destruct (result (displayEdges this' now_edges graph)) as [[]| |]; try done.
    + split; [discriminate|]. rewrite Hedges. by rewrite !app_nil_r.
    + split; [discriminate|]. rewrite Hedges. by rewrite !app_nil_r.
Qed.

Lemma displayLayers_keeps_off_edge_topic (this : SceneGraphVisualizer) (current_time : Z)
    (scene_graph : DynamicSceneGraph) (markers : MarkerArray) :
  (edges_node_node_pub_, markers)
    ∉ publications (trace (displayLayers this current_time scene_graph)).
Proof.
  rewrite displayLayers_publications.
  destruct (result (displayLayers_loop _ _ _ _)) as [batches| |];
    [|apply not_elem_of_nil..].
  intros Hin. apply list_elem_of_filter in Hin as [_ Hin].
  unfold batches_by_channel in Hin.
  repeat (apply elem_of_cons in Hin as [Hin | Hin]; [discriminate|]).
  by apply elem_of_nil in Hin.
Qed.

(** C8 fails on the code.  [redraw] clears the flag before the pass,
    and nothing in [redraw] or below it catches what the pass throws.
    So when the pass of a tick with the flag set and a graph held does
    not complete, the object is left clean all the same, what has been
    sent is what [displayLayers] had sent, nothing has gone out on the
    node-to-node edge topic, and the next tick does nothing: the pass
    is not run again. *)
Theorem redraw_failed_pass_not_retried (now_layers now_edges : Z)
    (this : SceneGraphVisualizer) (graph : DynamicSceneGraph) :
  need_redraw_ this = true -> scene_graph_ this = Some graph ->
  result (redraw now_layers now_edges this).2 <> Ok true ->
  (redraw now_layers now_edges this).1 = cleaned this /\
  publications (trace (redraw now_layers now_edges this).2) =
    publications (trace (displayLayers (cleaned this) now_layers graph)) /\
  (forall markers,
     (edges_node_node_pub_, markers)
       ∉ publications (trace (redraw now_layers now_edges this).2)) /\
  (forall t1 t2,
     redraw t1 t2 (redraw now_layers now_edges this).1 =
     ((redraw now_layers now_edges this).1, mret false)).
Proof.
  intros Hdirty Hgraph Hfailed.
  destruct (proj1 (redraw_cases now_layers now_edges this) graph Hdirty Hgraph)
    as (Hstate & Hrun & Hnext).
  assert (Hsent : publications (trace (redraw now_layers now_edges this).2) =
                  publications (trace (displayLayers (cleaned this) now_layers graph))).
  { revert Hfailed. rewrite Hrun. unfold orchestration_pass.
    rewrite !Eff_bind_trace, !Eff_bind_result, !publications_app.
    pose proof (displayEdges_publishes_once_aux (cleaned this) now_edges graph) as Hedges.
    destruct (result (displayLayers (cleaned this) now_layers graph)) as [[]| |];
      [|intros _; by rewrite !app_nil_r..].
    destruct (result (displayEdges (cleaned this) now_edges graph)) as [[]| |];
      [done|..]; intros _; rewrite Hedges; by rewrite !app_nil_r. }
  split; [exact Hstate|]. split; [exact Hsent|]. split.
  - intros markers. rewrite Hsent. apply displayLayers_keeps_off_edge_topic.
  - intros t1 t2. rewrite Hstate. apply Hnext.
Qed.

End Lifecycle.

(** ** The further properties on the sample inputs *)

Section MoreSampleProperties.

Import Sample MoreSamples.
#[local] Existing Instance Sample.externals.

Lemma getRatio_zero_on_empty_range_or_nan_witness :
  getRatio (of_Z 3) (of_Z 3) one = zero /\ getRatio zero S754_nan one = zero.
Proof.
  split.
  - apply getRatio_zero_on_empty_range_or_nan. left. reflexivity.
  - apply getRatio_zero_on_empty_range_or_nan. right. right. left. reflexivity.
Defined.

Lemma getDistanceColor_ratio_in_range_witness :
  le (places_max_distance visualizer_config) (places_min_distance visualizer_config)
    = false /\
  exists ratio,
    in_unit_interval ratio /\
    getDistanceColor visualizer_config (of_Z 7) =
    interpolateColorMap
      {| min_hue := zero; max_hue := one; min_saturation := zero;
         max_saturation := one; min_luminance := zero; max_luminance := one |}
      ratio.
Proof.
  split; [reflexivity|].
  apply (proj2 (getDistanceColor_ratio_in_range visualizer_config (of_Z 7))).
  reflexivity.
Defined.

Lemma makeCentroidMarkers_one_point_per_node_witness :
  makeCentroidMarkers (layer_config true false 0) mixed_colors visualizer_config None
    "layer_centroids" = Ok mixed_colors_marker /\
  length (Msg.colors mixed_colors_marker) = length (Msg.points mixed_colors_marker) /\
  Msg.type mixed_colors_marker = Msg.CUBE_LIST.
Proof.
  assert (Hrun : makeCentroidMarkers (layer_config true false 0) mixed_colors
                   visualizer_config None "layer_centroids" = Ok mixed_colors_marker)
    by (vm_compute; reflexivity).
  split; [exact Hrun|].
  destruct (makeCentroidMarkers_one_point_per_node _ _ _ _ _ _ Hrun)
    as (_ & Hcolors & _ & _ & _ & Htype).
  split; [exact Hcolors|exact Htype].
Defined.

Lemma makeCentroidMarkers_by_distance_witness :
  color_places_by_distance by_distance && bool_decide (layer_id places = PLACES) = true /\
  color_places_by_distance by_distance && bool_decide (layer_id mixed_places = PLACES)
    = true /\
  (exists marker,
     makeCentroidMarkers (layer_config true false 0) places by_distance None
       "layer_centroids" = Ok marker /\
     length (Msg.colors marker) = 2%nat) /\
  makeCentroidMarkers (layer_config true false 0) mixed_places by_distance None
    "layer_centroids" = Throw bad_cast.
Proof.
  assert (Hplaces : color_places_by_distance by_distance
                    && bool_decide (layer_id places = PLACES) = true)
    by (vm_compute; reflexivity).
  assert (Hmixed : color_places_by_distance by_distance
                   && bool_decide (layer_id mixed_places = PLACES) = true)
    by (vm_compute; reflexivity).
  split; [exact Hplaces|]. split; [exact Hmixed|]. split.
  - destruct (proj1 (makeCentroidMarkers_by_distance
                       (layer_config true false 0) places by_distance Hplaces
                       "layer_centroids"))
      as (marker & Hrun & Hcolors).
    + repeat constructor; eexists; reflexivity.
    + exists marker. split; [exact Hrun|].
      symmetry. exact (Forall2_length _ _ _ Hcolors).
  - apply (proj2 (makeCentroidMarkers_by_distance
                    (layer_config true false 0) mixed_places by_distance Hmixed
                    "layer_centroids")).
    vm_compute. right. left. reflexivity.
Defined.

Lemma makeLayerEdgeMarkers_stride_witness :
  visualize every_other_edge = true /\
  (length (edges ring) mod 2 = 0)%nat /\
  (length (edges chain) mod 2 <> 0)%nat /\
  (exists marker pss,
     makeLayerEdgeMarkers every_other_edge ring visualizer_config NodeColor_Zero
       = Ok marker /\
     Msg.points marker = concat pss /\ length pss = 2%nat) /\
  makeLayerEdgeMarkers every_other_edge chain visualizer_config NodeColor_Zero
    = Undefined.
Proof.
  assert (Hresolve : forall layer,
             nodes layer = nodes chain ->
             Forall (fun edge => exists ends,
                       edge_ends_resolve every_other_edge layer visualizer_config
                         edge ends) (edges ring)).
  { intros layer Hnodes.
    repeat constructor; eexists; eexists _, _; cbn; unfold find_node; rewrite Hnodes;
      (split; [reflexivity|split; reflexivity]). }
  split; [reflexivity|]. split; [reflexivity|]. split; [vm_compute; discriminate|]. split.
  - destruct (proj2 (proj2 (makeLayerEdgeMarkers_stride
                              every_other_edge ring visualizer_config NodeColor_Zero))
                eq_refl (Hresolve ring eq_refl)) as [Hok _].
    destruct (Hok eq_refl) as (marker & pss & Hrun & _ & Hpss & Hpoints).
    exists marker, pss. split; [exact Hrun|]. split; [exact Hpoints|].
    symmetry. exact (Forall2_length _ _ _ Hpss).
  - refine (proj2 (proj2 (proj2 (makeLayerEdgeMarkers_stride
                              every_other_edge chain visualizer_config NodeColor_Zero))
                eq_refl _) _).
    + pose proof (Hresolve chain eq_refl) as H.
      apply Forall_app in H as [H _]. exact H.
    + vm_compute. discriminate.
Defined.

Lemma makeMeshEdgesMarker_size_witness :
  @makeMeshEdgesMarker with_samples (layer_config true true 1) visualizer_config graph
    objects "mesh_layer_edges" = Ok objects_mesh_marker /\
  length (Msg.points objects_mesh_marker) = 6%nat /\
  length (Msg.colors objects_mesh_marker) = 6%nat.
Proof.
  assert (Hrun : @makeMeshEdgesMarker with_samples (layer_config true true 1)
                   visualizer_config graph objects "mesh_layer_edges"
                 = Ok objects_mesh_marker) by (vm_compute; reflexivity).
  split; [exact Hrun|].
  destruct (@makeMeshEdgesMarker_size with_samples _ _ _ _ _ _ Hrun)
    as (Hpoints & Hcolors & _).
  rewrite Hcolors, Hpoints. split; reflexivity.
Defined.

Lemma makeMeshEdgesMarker_reads_sampled_nodes_witness :
  exists marker,
    @makeMeshEdgesMarker with_samples (layer_config true true 1) visualizer_config graph
      objects "mesh_layer_edges" = Ok marker.
Proof.
  apply (proj1 (@makeMeshEdgesMarker_reads_sampled_nodes with_samples
                  (layer_config true true 1) visualizer_config graph objects
                  "mesh_layer_edges")).
  repeat constructor; intros _; eexists; reflexivity.
Defined.

Lemma makeGraphEdgeMarkers_markers_well_formed_witness :
  makeGraphEdgeMarkers fanned places_hidden visualizer_config
    = Ok (fanned_markers places_hidden) /\
  exists marker,
    fanned_markers places_hidden = [marker] /\
    Msg.id marker = to_int32 3 /\
    Msg.type marker = Msg.LINE_LIST /\
    Msg.action marker = Msg.DELETE /\ Msg.points marker = [].
Proof.
  assert (Hrun : makeGraphEdgeMarkers fanned places_hidden visualizer_config
                 = Ok (fanned_markers places_hidden)) by (vm_compute; reflexivity).
  split; [exact Hrun|].
  destruct (makeGraphEdgeMarkers_markers_well_formed fanned places_hidden
              visualizer_config (fanned_markers places_hidden) Hrun)
    as (keys & _ & Hkeys & Hmarkers).
  assert (Hplaces : 3%N ∈ keys).
  { apply Hkeys.
    exists (0%N, {| source := 30%N; target := 40%N |}),
           (node 30 3 (PlaceAttributes (point_x 30) pure_blue one)).2.
    split; [left|]. split; reflexivity. }
  assert (Hone : fanned_markers places_hidden
                 = [hd Msg.default (fanned_markers places_hidden)])
    by (vm_compute; reflexivity).
  exists (hd Msg.default (fanned_markers places_hidden)). split; [exact Hone|].
  rewrite Hone in Hmarkers.
  apply Forall2_cons_inv_r in Hmarkers as (L & rest & Hmarker & Hrest & ->).
  apply Forall2_nil_inv_r in Hrest as ->.
  apply list_elem_of_singleton in Hplaces as <-.
  destruct Hmarker as (Hid & Htype & _ & _ & config & Hconfig & Hhidden).
  split; [exact Hid|]. split; [exact Htype|].
  assert (Hplaces : places_hidden !! 3%N = Some (layer_config false false 1))
    by reflexivity.
  rewrite Hplaces in Hconfig. injection Hconfig as <-.
  exact (Hhidden eq_refl).
Defined.

Lemma makeGraphEdgeMarkers_action_by_first_edge_witness :
  makeGraphEdgeMarkers fanned rooms_hidden visualizer_config
    = Ok (fanned_markers rooms_hidden) /\
  exists marker,
    fanned_markers rooms_hidden = [marker] /\
    Msg.id marker = to_int32 3 /\
    Msg.action marker = Msg.DELETE.
Proof.
  assert (Hrun : makeGraphEdgeMarkers fanned rooms_hidden visualizer_config
                 = Ok (fanned_markers rooms_hidden)) by (vm_compute; reflexivity).
  split; [exact Hrun|].
  destruct (makeGraphEdgeMarkers_action_by_first_edge fanned rooms_hidden
              visualizer_config (fanned_markers rooms_hidden) Hrun)
    as (keys & _ & Hkeys & Hmarkers).
  assert (Hplaces : 3%N ∈ keys).
  { apply Hkeys.
    exists (0%N, {| source := 30%N; target := 40%N |}),
           (node 30 3 (PlaceAttributes (point_x 30) pure_blue one)).2.
    split; [left|]. split; reflexivity. }
  assert (Hone : fanned_markers rooms_hidden
                 = [hd Msg.default (fanned_markers rooms_hidden)])
    by (vm_compute; reflexivity).
  exists (hd Msg.default (fanned_markers rooms_hidden)). split; [exact Hone|].
  rewrite Hone in Hmarkers.
  apply Forall2_cons_inv_r in Hmarkers as (L & rest & Hmarker & Hrest & ->).
  apply Forall2_nil_inv_r in Hrest as ->.
  apply list_elem_of_singleton in Hplaces as <-.
  destruct Hmarker
    as (Hid & pre & edge & post & s & t & cs & ct
        & Hedges & Hpre & Hs & _ & Ht & Hcs & Hct & Haction).
  split; [exact Hid|].
  destruct pre as [|e pre].
  - injection Hedges as <- _.
    injection Ht as <-.
    assert (Hplaces : rooms_hidden !! 3%N = Some (layer_config true false 1))
      by reflexivity.
    assert (Hrooms : rooms_hidden !! 4%N = Some (layer_config false false 0))
      by reflexivity.
    rewrite Hplaces in Hcs. injection Hcs as <-.
    change (rooms_hidden !! 4%N = Some ct) in Hct.
    rewrite Hrooms in Hct. injection Hct as <-.
    exact Haction.
  - exfalso. injection Hedges as <- _.
    apply Forall_cons in Hpre as [Hfirst _]. by apply Hfirst.
Defined.

Lemma makeGraphEdgeMarkers_runs_witness :
  Forall (edge_can_be_drawn graph both_shown) (inter_layer_edges graph) /\
  exists out, makeGraphEdgeMarkers graph both_shown visualizer_config = Ok out.
Proof.
  assert (Hedges : Forall (edge_can_be_drawn graph both_shown) (inter_layer_edges graph)).
  { repeat constructor; eexists _, _, _, _, _;
      (split; [reflexivity|]); (split; [reflexivity|]);
      (split; [vm_compute; reflexivity|]); (split; [vm_compute; reflexivity|]);
      reflexivity. }
  split; [exact Hedges|].
  exact (makeGraphEdgeMarkers_runs graph both_shown visualizer_config Hedges).
Defined.

Lemma hidden_layer_only_retracts_witness :
  visualize (layer_config false true 0) = false /\
  exists centroids labels boxes lines,
    handleCentroids (visualizer true None objects_hidden) objects
      (layer_config false true 0) 7 [] = mkEff [] (Ok ([] ++ centroids)) /\
    Forall retracts (centroids ++ labels ++ boxes ++ lines) /\
    length lines = 1%nat.
Proof.
  split; [reflexivity|].
  destruct (hidden_layer_only_retracts (visualizer true None objects_hidden) 7 objects
              (layer_config false true 0) [] eq_refl)
    as (centroids & labels & boxes & lines & Hc & _ & _ & _ & Hall & _ & _ & _ & Hlines).
  exists centroids, labels, boxes, lines. split; [exact Hc|]. split; [exact Hall|].
  exact Hlines.
Defined.

Lemma handleBoundingBoxes_object_layer_witness :
  visualize (layer_config true true 0) = true /\
  use_bounding_box (layer_config true true 0) = true /\
  exists boxes,
    result (handleBoundingBoxes (visualizer true None both_shown) objects
              (layer_config true true 0) 7 []) = Ok boxes /\
    length boxes = 3%nat.
Proof.
  do 2 (split; [reflexivity|]).
  destruct (handleBoundingBoxes_object_layer (visualizer true None both_shown) 7 objects
              (layer_config true true 0) [] eq_refl eq_refl)
    as (boxes & Hrun & Hboxes & _).
  - repeat constructor; eexists; reflexivity.
  - exists boxes. rewrite Hrun. split; [reflexivity|].
    symmetry. exact (Forall2_length _ _ _ Hboxes).
Defined.

Lemma clear_retracts_everything_witness :
  empty graph = false /\
  scene_graph_ (clear 9 (visualizer true (Some graph) both_shown)).1 = None /\
  need_redraw_
    (setGraph (Some graph) (clear 9 (visualizer true (Some graph) both_shown)).1).1
  = true.
Proof.
  split; [reflexivity|].
  destruct (clear_retracts_everything 9 (visualizer true (Some graph) both_shown))
    as (_ & Hgraph & _ & _ & _ & _ & _ & Hset).
  split; [exact Hgraph|]. exact (proj2 (Hset graph eq_refl)).
Defined.

Lemma layerConfigUpdateCb_stores_witness :
  (2 <> 3)%N /\
  layer_configs_ (layerConfigUpdateCb 3 every_other_edge
                    (visualizer false None objects_only)) !! 2%N
  = layer_configs_ (visualizer false None objects_only) !! 2%N.
Proof.
  split; [discriminate|].
  apply (proj1 (proj2 (layerConfigUpdateCb_stores 3 2 every_other_edge every_other_edge
                         visualizer_config (visualizer false None objects_only)))).
  discriminate.
Defined.

Lemma display_without_configurations_witness :
  Forall (fun p : N * SceneGraphLayer =>
            layer_configs_ (visualizer true None ∅) !! p.1 = None)
         (layers (one_layer_graph chain)) /\
  inter_layer_edges (one_layer_graph chain) = [] /\
  displayLayers (visualizer true None ∅) 7 (one_layer_graph chain) =
    mkEff [missing_config_warning 3] (Ok tt) /\
  displayEdges (visualizer true None ∅) 7 (one_layer_graph chain) =
    mkEff [missing_edge_config_warning 3; Publish edges_node_node_pub_ []] (Ok tt).
Proof.
  assert (Hnone : Forall (fun p : N * SceneGraphLayer =>
                            layer_configs_ (visualizer true None ∅) !! p.1 = None)
                         (layers (one_layer_graph chain)))
    by (repeat constructor).
  split; [exact Hnone|]. split; [reflexivity|].
  destruct (display_without_configurations (visualizer true None ∅) 7
              (one_layer_graph chain) Hnone) as [Hlayers Hedges].
  split; [exact Hlayers|]. exact (Hedges eq_refl).
Defined.

Lemma displayEdges_publishes_once_witness :
  result (displayEdges (visualizer true None both_shown) 7 graph) = Ok tt /\
  exists markers,
    publications (trace (displayEdges (visualizer true None both_shown) 7 graph))
    = [(edges_node_node_pub_, markers)].
Proof.
  assert (Hrun : result (displayEdges (visualizer true None both_shown) 7 graph) = Ok tt)
    by (vm_compute; reflexivity).
  split; [exact Hrun|].
  exact (proj1 (displayEdges_publishes_once (visualizer true None both_shown) 7 graph)
           Hrun).
Defined.

Lemma published_markers_are_stamped_witness :
  (semantic_instance_centroid_pub_, layer_centroids hidden_batches)
    ∈ publications (trace (displayLayers (visualizer true None objects_hidden) 7
                             (one_layer_graph objects))) /\
  Forall (stamped (visualizer true None objects_hidden) 7) (layer_centroids hidden_batches).
Proof.
  assert (Hin : (semantic_instance_centroid_pub_, layer_centroids hidden_batches)
                  ∈ publications
                      (trace (displayLayers (visualizer true None objects_hidden) 7
                                (one_layer_graph objects))))
    by (vm_compute; left).
  split; [exact Hin|].
  apply (published_markers_are_stamped (visualizer true None objects_hidden) 7
           (one_layer_graph objects) semantic_instance_centroid_pub_).
  left. exact Hin.
Defined.

Lemma displayLayers_one_centroid_marker_per_layer_witness :
  result (displayLayers_loop (visualizer true None objects_hidden) 7
            (layers (one_layer_graph objects)) no_batches) = Ok hidden_batches /\
  length (configured_layers (visualizer true None objects_hidden)
            (layers (one_layer_graph objects)))
  = length (layer_centroids hidden_batches).
Proof.
  assert (Hrun : result (displayLayers_loop (visualizer true None objects_hidden) 7
                           (layers (one_layer_graph objects)) no_batches)
                 = Ok hidden_batches) by (vm_compute; reflexivity).
  split; [exact Hrun|].
  exact (Forall2_length _ _ _
           (displayLayers_one_centroid_marker_per_layer
              (visualizer true None objects_hidden) 7 (one_layer_graph objects)
              hidden_batches Hrun)).
Defined.

Lemma displayLayers_mesh_edges_of_objects_only_witness :
  Forall (fun p : N * SceneGraphLayer => layer_id p.2 <> OBJECTS)
         (layers (one_layer_graph chain)) /\
  (edges_centroid_pcl_pub_, [])
    ∉ publications (trace (displayLayers (visualizer true None places_only) 7
                             (one_layer_graph chain))).
Proof.
  assert (Hlayers : Forall (fun p : N * SceneGraphLayer => layer_id p.2 <> OBJECTS)
                           (layers (one_layer_graph chain)))
    by (repeat constructor; discriminate).
  split; [exact Hlayers|].
  exact (displayLayers_mesh_edges_of_objects_only (visualizer true None places_only) 7
           (one_layer_graph chain) [] Hlayers).
Defined.

Lemma redraw_publications_witness :
  need_redraw_ (visualizer true (Some graph) both_shown) = true /\
  scene_graph_ (visualizer true (Some graph) both_shown) = Some graph /\
  result (redraw 1 2 (visualizer true (Some graph) both_shown)).2 = Ok true /\
  exists batches markers,
    publications (trace (redraw 1 2 (visualizer true (Some graph) both_shown)).2) =
    filter (fun p : Channel * MarkerArray => p.2 <> []) (batches_by_channel batches)
    ++ [(edges_node_node_pub_, markers)].
Proof.
  assert (Hrun : result (redraw 1 2 (visualizer true (Some graph) both_shown)).2 = Ok true)
    by (vm_compute; reflexivity).
  do 2 (split; [reflexivity|]). split; [exact Hrun|].
  destruct (proj1 (redraw_publications 1 2 (visualizer true (Some graph) both_shown)
                     graph eq_refl eq_refl) Hrun) as (batches & markers & _ & Hpubs).
  exists batches, markers. exact Hpubs.
Defined.

(** The failing tick of C8: the places layer of the sample graph has
    no configuration.  The layer pass warns and sends the arrays of the
    objects; the first inter-layer edge then makes [configs.at] throw. *)
Lemma redraw_failed_pass_not_retried_witness :
  need_redraw_ (visualizer true (Some graph) objects_only) = true /\
  scene_graph_ (visualizer true (Some graph) objects_only) = Some graph /\
  result (redraw 1 2 (visualizer true (Some graph) objects_only)).2
    = Throw out_of_range /\
  (redraw 1 2 (visualizer true (Some graph) objects_only)).1
    = visualizer false (Some graph) objects_only /\
  (publications (trace (redraw 1 2 (visualizer true (Some graph) objects_only)).2)).*1
    = [semantic_instance_centroid_pub_; text_markers_pub_; edges_centroid_pcl_pub_] /\
  (forall markers,
     (edges_node_node_pub_, markers)
       ∉ publications (trace (redraw 1 2 (visualizer true (Some graph) objects_only)).2)) /\
  redraw 3 4 (visualizer false (Some graph) objects_only)
    = (visualizer false (Some graph) objects_only, mret false).
Proof.
  assert (Hthrown : result (redraw 1 2 (visualizer true (Some graph) objects_only)).2
                    = Throw out_of_range) by (vm_compute; reflexivity).
  assert (Hfailed : result (redraw 1 2 (visualizer true (Some graph) objects_only)).2
                    <> Ok true) by (rewrite Hthrown; discriminate).
  destruct (redraw_failed_pass_not_retried 1 2 (visualizer true (Some graph) objects_only)
              graph eq_refl eq_refl Hfailed) as (Hstate & _ & Hedges & Hnext).
  do 2 (split; [reflexivity|]). split; [exact Hthrown|]. split; [exact Hstate|].
  split; [vm_compute; reflexivity|]. split; [exact Hedges|].
  rewrite Hstate in Hnext. exact (Hnext 3 4).
Defined.

End MoreSampleProperties.
